(** * LRCLIB Lyrics External Save: a shallow embedding of the plugin

    The repository holds two copies of one pipeline,
    [lrclib_lyrics_external_save/__init__.py] (version 1.1.1, module [Pkg]
    below) and [plugins/lrclib_lyrics_external_save.py] (version 1.0.0,
    module [Plugin] below).  Both read a track's metadata, build an LRCLIB
    query, issue one HTTP GET, pick the lyrics out of the JSON answer and
    write them next to the audio file.

    Conventions of the embedding:
    - a Python [str] is a [string] whose characters are code points below
      256; [bytes] are a [string] of octets;
    - [Optional[str]] is [option string]; a dict read only through [.get]
      is a [gmap] whose missing keys stand for [None];
    - a value decoded from JSON is a [pyval];
    - Python code runs in the monad [M]: it threads the file system, the
      log and the started threads, and may raise;
    - everything the interpreter, the network and the disk decide is read
      from an [Env];
    - the file system maps files, not path texts: [file_of] of the [Env]
      gives the file a path names, so that two spellings of one path reach
      one file;
    - a write that fails leaves the beginning of the data the disk took
      before it failed, [written_on_failure] characters of it;
    - [int] refuses a text of more than 4300 digits, as the interpreter
      does by default;
    - [os.path] and the text-mode newline are those of a POSIX host. *)

From Stdlib Require Import ZArith Ascii String SpecFloat DecimalString Lia.
From stdpp Require Import base option list gmap strings fin_maps.

Set Warnings "-register-all".
Local Open Scope Z_scope.

(** ** Characters and strings *)

Definition code (c : ascii) : Z := Z.of_N (N_of_ascii c).

Definition chr (z : Z) : ascii := ascii_of_N (Z.to_N z).

Definition str_truthy (s : string) : bool :=
  match s with EmptyString => false | String _ _ => true end.

Definition str_len (s : string) : Z := Z.of_nat (String.length s).

(** [s.split(sep)] for a one-character separator. *)
Fixpoint str_split (sep : ascii) (s : string) : list string :=
  match s with
  | EmptyString => [EmptyString]
  | String c r =>
      if Ascii.eqb c sep then EmptyString :: str_split sep r
      else match str_split sep r with
           | p :: ps => String c p :: ps
           | [] => [String c EmptyString]
           end
  end.

(** ** Exceptions and results *)

Inductive exn :=
  | ValueError | TypeError | AttributeError | UnicodeError
  | OSError | URLError | JSONDecodeError | RuntimeError.

Inductive res (A : Type) :=
  | Ret (a : A)
  | Raise (e : exn).
Arguments Ret {A} a.
Arguments Raise {A} e.

Definition returns {A} (r : res A) : bool :=
  match r with Ret _ => true | Raise _ => false end.

(** ** The builtin [int(str)]

    CPython accepts, in base 10: optional white space, an optional sign,
    decimal digits in which single underscores may separate digits, and
    optional white space.  Below code point 256 the white space it skips is
    9..13, 32, U+0085 and U+00A0, and the decimal digits are 0..9.  A
    literal with more digits than [sys.get_int_max_str_digits()], 4300
    unless the host changes it, is refused with a ValueError as well;
    underscores, the sign and white space do not count as digits. *)

Definition int_space (c : ascii) : bool :=
  ((9 <=? code c) && (code c <=? 13)) || (code c =? 32)
  || (code c =? 133) || (code c =? 160).

Definition digit_value (c : ascii) : option Z :=
  if (48 <=? code c) && (code c <=? 57) then Some (code c - 48) else None.

Definition is_underscore (c : ascii) : bool := code c =? 95.

Fixpoint skip_space (s : string) : string :=
  match s with
  | String c r => if int_space c then skip_space r else s
  | EmptyString => s
  end.

(** Scan of the digits after the first one; [prev_us] tells that the
    character just read was an underscore. *)
Fixpoint scan_digits (prev_us : bool) (acc : Z) (s : string) : option (Z * string) :=
  match s with
  | String c r =>
      match digit_value c with
      | Some d => scan_digits false (10 * acc + d) r
      | None =>
          if is_underscore c
          then (if prev_us then None else scan_digits true acc r)
          else (if prev_us then None else Some (acc, s))
      end
  | EmptyString => if prev_us then None else Some (acc, s)
  end.

Definition take_sign (s : string) : Z * string :=
  match s with
  | String c r =>
      if code c =? 43 then (1, r)
      else if code c =? 45 then (-1, r)
      else (1, s)
  | EmptyString => (1, s)
  end.

Definition long_from_string (s : string) : option Z :=
  let '(sign, s2) := take_sign (skip_space s) in
  match s2 with
  | String c r =>
      match digit_value c with
      | Some d =>
          match scan_digits false d r with
          | Some (v, rest) =>
              match skip_space rest with
              | EmptyString => Some (sign * v)
              | String _ _ => None
              end
          | None => None
          end
      | None => None
      end
  | EmptyString => None
  end.

Definition int_max_str_digits : Z := 4300.

Fixpoint count_digits (s : string) : Z :=
  match s with
  | EmptyString => 0
  | String c r =>
      match digit_value c with
      | Some _ => 1 + count_digits r
      | None => count_digits r
      end
  end.

Definition py_int (s : string) : res Z :=
  match long_from_string s with
  | Some z =>
      if count_digits s <=? int_max_str_digits then Ret z
      else Raise ValueError
  | None => Raise ValueError
  end.

(** ** Values decoded from JSON *)

Inductive pyval :=
  | VNone
  | VBool (b : bool)
  | VInt (z : Z)
  | VFloat (f : spec_float)
  | VStr (s : string)
  | VList (l : list pyval)
  | VDict (d : gmap string pyval).

Definition float_truthy (f : spec_float) : bool :=
  match f with S754_zero _ => false | _ => true end.

(** Python's truth value, as [if x:] and [not x] take it. *)
Definition truthy (v : pyval) : bool :=
  match v with
  | VNone => false
  | VBool b => b
  | VInt z => negb (z =? 0)
  | VFloat f => float_truthy f
  | VStr s => str_truthy s
  | VList l => match l with [] => false | _ :: _ => true end
  | VDict d => negb (bool_decide (d = ∅))
  end.

(** The builtin [len]. *)
Definition py_len (v : pyval) : res Z :=
  match v with
  | VStr s => Ret (str_len s)
  | VList l => Ret (Z.of_nat (length l))
  | VDict d => Ret (Z.of_nat (size d))
  | _ => Raise TypeError
  end.

(** [d.get(k)]: [None] when the key is missing. *)
Definition dict_get (d : gmap string pyval) (k : string) : pyval :=
  default VNone (d !! k).

Definition opt_truthy (o : option string) : bool :=
  match o with Some s => str_truthy s | None => false end.

Definition int_truthy (z : Z) : bool := negb (z =? 0).

Definition optint_truthy (o : option Z) : bool :=
  match o with Some z => int_truthy z | None => false end.

(** ** The lookup query, the log, the world *)

Record Query := {
  track_name : string;
  artist_name : string;
  album_name : string;
  duration : Z;
}.

Inductive level := Info | Warning | Error.

Record Task := {
  task_daemon : bool;
  task_audio_path : string;
  task_snapshot : gmap string string;
}.

Inductive event :=
  | Log (lvl : level) (fmt : string)
  | HttpGet (url : string) (user_agent : string) (timeout : Z).

(** [st_fs] holds the content of every file, under the name [file_of]
    gives it. *)
Record State := {
  st_fs : gmap string string;
  st_trace : list event;
  st_threads : list Task;
}.

Record Response := { resp_read : res string }.

(** What the surroundings answer.  [urlopen url ua timeout] stands for
    building the [Request] and opening it.  [file_of path] is the file the
    host finds under [path]: two spellings of a path, or a link and its
    target, name one file.  [write_text path data] stands for writing the
    octets and closing the file; when it fails,
    [written_on_failure path data] octets had reached the file. *)
Record Env := {
  urlencode : Query → res string;
  create_unverified_context : res unit;
  urlopen : string → string → Z → res Response;
  decode_utf8_replace : string → string;
  json_loads : string → res pyval;
  file_of : string → string;
  open_for_writing : string → res unit;
  write_text : string → string → res unit;
  written_on_failure : string → string → nat;
  thread_start : Task → res unit;
}.

(** A file reference of the host: reading either attribute may fail. *)
Record File := {
  file_filename : res string;
  file_metadata : res (gmap string string);
}.

(** ** The monad of Python code *)

Definition M (A : Type) : Type := State → res A * State.

#[global] Instance M_ret : MRet M := λ A a st, (Ret a, st).

#[global] Instance M_bind : MBind M := λ A B f m st,
  match m st with
  | (Ret a, st') => f a st'
  | (Raise e, st') => (Raise e, st')
  end.

Definition raise {A} (e : exn) : M A := λ st, (Raise e, st).

Definition lift {A} (r : res A) : M A := λ st, (r, st).

(** [try: body except Exception as exc: handler exc]. *)
Definition try_except {A} (body : M A) (handler : exn → M A) : M A := λ st,
  match body st with
  | (Ret a, st') => (Ret a, st')
  | (Raise e, st') => handler e st'
  end.

Definition log (lvl : level) (fmt : string) : M unit := λ st,
  (Ret tt, {| st_fs := st_fs st;
              st_trace := st_trace st ++ [Log lvl fmt];
              st_threads := st_threads st |}).

Definition emit (ev : event) : M unit := λ st,
  (Ret tt, {| st_fs := st_fs st;
              st_trace := st_trace st ++ [ev];
              st_threads := st_threads st |}).

Definition set_file (file content : string) : M unit := λ st,
  (Ret tt, {| st_fs := <[file := content]> (st_fs st);
              st_trace := st_trace st;
              st_threads := st_threads st |}).

Definition add_thread (t : Task) : M unit := λ st,
  (Ret tt, {| st_fs := st_fs st;
              st_trace := st_trace st;
              st_threads := st_threads st ++ [t] |}).

(** ** [os.path] (POSIX flavour) and the UTF-8 encoder *)

(** [s.rfind(c)]: position of the last [c], or -1. *)
Fixpoint str_rfind (c : ascii) (s : string) : Z :=
  match s with
  | EmptyString => -1
  | String a r =>
      let k := str_rfind c r in
      if 0 <=? k then k + 1 else if Ascii.eqb a c then 0 else -1
  end.

(** The slices [s[:n]] and [s[n:]]. *)
Fixpoint str_take (n : nat) (s : string) : string :=
  match n, s with
  | S n', String c r => String c (str_take n' r)
  | _, _ => EmptyString
  end.

Fixpoint str_drop (n : nat) (s : string) : string :=
  match n, s with
  | S n', String _ r => str_drop n' r
  | _, _ => s
  end.

Fixpoint str_all (c : ascii) (s : string) : bool :=
  match s with
  | EmptyString => true
  | String a r => Ascii.eqb a c && str_all c r
  end.

Fixpoint str_rstrip (c : ascii) (s : string) : string :=
  match s with
  | EmptyString => EmptyString
  | String a r =>
      match str_rstrip c r with
      | EmptyString => if Ascii.eqb a c then EmptyString else String a EmptyString
      | String b r' => String a (String b r')
      end
  end.

Definition str_startswith (c : ascii) (s : string) : bool :=
  match s with String a _ => Ascii.eqb a c | EmptyString => false end.

Fixpoint str_endswith (c : ascii) (s : string) : bool :=
  match s with
  | EmptyString => false
  | String a EmptyString => Ascii.eqb a c
  | String _ r => str_endswith c r
  end.

Definition sep : ascii := "/".
Definition extsep : ascii := ".".

(** [posixpath.split]. *)
Definition path_split (p : string) : string * string :=
  let i := Z.to_nat (str_rfind sep p + 1) in
  let head := str_take i p in
  let tail := str_drop i p in
  let head := if str_truthy head && negb (str_all sep head)
              then str_rstrip sep head else head in
  (head, tail).

(** The loop of [genericpath._splitext] over the characters between the
    last separator and the last dot: it stops at the first one that is not
    a dot.  [n] is the number of positions left to visit. *)
Fixpoint leading_dots_end (n : nat) (s : string) : bool :=
  match n, s with
  | S n', String c r => if Ascii.eqb c extsep then leading_dots_end n' r else true
  | _, _ => false
  end.

(** [posixpath.splitext]. *)
Definition path_splitext (p : string) : string * string :=
  let sepIndex := str_rfind sep p in
  let dotIndex := str_rfind extsep p in
  if (sepIndex <? dotIndex)
     && leading_dots_end (Z.to_nat (dotIndex - (sepIndex + 1)))
                         (str_drop (Z.to_nat (sepIndex + 1)) p)
  then (str_take (Z.to_nat dotIndex) p, str_drop (Z.to_nat dotIndex) p)
  else (p, EmptyString).

(** [posixpath.join] of two components. *)
Definition path_join (a b : string) : string :=
  if str_startswith sep b then b
  else if negb (str_truthy a) || str_endswith sep a then a +:+ b
  else a +:+ String sep b.

(** [s.encode("utf-8")] for code points below 256. *)
Fixpoint utf8_encode (s : string) : string :=
  match s with
  | EmptyString => EmptyString
  | String c r =>
      if code c <? 128 then String c (utf8_encode r)
      else String (chr (Z.lor 192 (Z.shiftr (code c) 6)))
             (String (chr (Z.lor 128 (Z.land (code c) 63))) (utf8_encode r))
  end.

(** ** [urllib.parse.urlencode] of a query

    [quote_plus] keeps letters, digits and [_.-~], turns a space into [+]
    and writes every other octet of the UTF-8 encoding as [%XX]. *)

Definition is_unreserved (c : ascii) : bool :=
  ((65 <=? code c) && (code c <=? 90)) || ((97 <=? code c) && (code c <=? 122))
  || ((48 <=? code c) && (code c <=? 57))
  || (code c =? 95) || (code c =? 46) || (code c =? 45) || (code c =? 126).

Definition hex_digit (n : Z) : ascii :=
  if n <? 10 then chr (48 + n) else chr (55 + n).

Fixpoint quote_octets (s : string) : string :=
  match s with
  | EmptyString => EmptyString
  | String c r =>
      if is_unreserved c then String c (quote_octets r)
      else if code c =? 32 then String "+" (quote_octets r)
      else String "%" (String (hex_digit (Z.shiftr (code c) 4))
             (String (hex_digit (Z.land (code c) 15)) (quote_octets r)))
  end.

Definition quote_plus (s : string) : string := quote_octets (utf8_encode s).

(** [str(n)] for an integer. *)
Definition str_of_int (n : Z) : string := NilZero.string_of_int (Z.to_int n).

Definition py_urlencode (q : Query) : string :=
  "track_name=" +:+ quote_plus (track_name q)
  +:+ "&artist_name=" +:+ quote_plus (artist_name q)
  +:+ "&album_name=" +:+ quote_plus (album_name q)
  +:+ "&duration=" +:+ quote_plus (str_of_int (duration q)).

Definition USER_AGENT : string := "Picard-LRCLIB-External-Save".

(** The snapshot dict literal of the hook: a key whose value is [None] is
    left out, as [.get] cannot tell the two apart. *)
Definition dict_set (k : string) (v : option string)
    (d : gmap string string) : gmap string string :=
  match v with Some s => <[k := s]> d | None => d end.

(** [with open(out_path, "w", encoding="utf-8") as f: f.write(lyrics)].
    Opening creates or empties the file [out_path] names.  [f.write]
    refuses what is not a [str] before anything is written; a write (or the
    closing flush) that fails leaves in the file the octets that had
    reached it, a prefix of the encoded text. *)
Definition open_and_write (env : Env) (out_path : string) (lyrics : pyval)
    : M unit :=
  lift (open_for_writing env out_path);;
  set_file (file_of env out_path) EmptyString;;
  match lyrics with
  | VStr s =>
      let data := utf8_encode s in
      match write_text env out_path data with
      | Ret _ => set_file (file_of env out_path) data
      | Raise e =>
          set_file (file_of env out_path)
            (str_take (written_on_failure env out_path data) data);;
          raise e
      end
  | _ => raise TypeError
  end.

(** * [lrclib_lyrics_external_save/__init__.py] *)

Module Pkg.
Section WithEnv.
Context (env : Env).

Definition LRCLIB_URL : string := "https://lrclib.net/api/get?".

(** Lines 63 to 79: the duration out of the [~length] text. *)
Definition parse_length (length_str : option string) : M (option Z) :=
  match length_str with
  | Some ls =>
      if str_truthy ls then
        try_except
          (let parts := str_split ":" ls in
           match parts with
           | [p0; p1] =>
               minutes ← lift (py_int p0);
               seconds ← lift (py_int p1);
               mret (Some (minutes * 60 + seconds))
           | _ => mret None
           end)
          (λ exc,
            log Warning "LRCLIB SIMPLE: failed to parse '~length' %r: %r";;
            mret None)
      else mret None
  | None => mret None
  end.

Definition _build_query_from_snapshot (snapshot : gmap string string)
    : M (option Query) :=
  let title := snapshot !! "title" in
  let artist := snapshot !! "artist" in
  let album := snapshot !! "album" in
  let length_str := snapshot !! "~length" in
  dur ← parse_length length_str;
  log Info "LRCLIB SIMPLE: Query → title=%r, artist=%r, album=%r, duration=%r";;
  (* past the test, title, artist and duration are there: [default] only
     unwraps them *)
  if negb (opt_truthy title && opt_truthy artist && optint_truthy dur) then
    log Warning "LRCLIB SIMPLE: Missing required metadata (title=%r, artist=%r, duration=%r). Skipping LRCLIB lookup.";;
    mret None
  else
    mret (Some {| track_name := default EmptyString title;
                  artist_name := default EmptyString artist;
                  album_name := (if opt_truthy album
                                 then default EmptyString album
                                 else EmptyString);
                  duration := default 0 dur |}).

(** Lines 146 to 165: from the decoded value to the result pair. *)
Definition pick_lyrics (obj : pyval) : M (pyval * pyval) :=
  let first :=
    match obj with
    | VList [] => None
    | VList (x :: _) => Some x
    | _ => Some obj
    end in
  match first with
  | None => mret (VNone, VNone)
  | Some (VDict d) =>
      if negb (truthy (dict_get d "id")) then mret (VNone, VNone)
      else
        let synced := dict_get d "syncedLyrics" in
        let plain := dict_get d "plainLyrics" in
        if truthy synced then
          n ← lift (py_len synced);
          log Info "LRCLIB SIMPLE: Synced lyrics found (%d chars)";;
          mret (synced, VBool true)
        else if truthy plain then
          n ← lift (py_len plain);
          log Info "LRCLIB SIMPLE: Plain lyrics found (%d chars)";;
          mret (plain, VBool false)
        else mret (VNone, VNone)
  | Some _ => mret (VNone, VNone)
  end.

Definition _fetch_lyrics_from_lrclib (query : Query) : M (pyval * pyval) :=
  qs ← lift (urlencode env query);
  let url := LRCLIB_URL +:+ qs in
  log Info "LRCLIB SIMPLE: Requesting %s";;
  ctx ← lift (create_unverified_context env);
  fetched ←
    try_except
      (emit (HttpGet url USER_AGENT 15);;
       resp ← lift (urlopen env url USER_AGENT 15);
       log Info "LRCLIB SIMPLE: HTTP status=%r";;
       data ← lift (resp_read resp);
       mret (Some data))
      (λ exc,
        log Error "LRCLIB SIMPLE: HTTP request failed: %r";;
        mret None);
  match fetched with
  | None => mret (VNone, VNone)
  | Some data =>
      decoded ←
        try_except
          (let text := decode_utf8_replace env data in
           obj ← lift (json_loads env text);
           mret (Some obj))
          (λ exc,
            log Error "LRCLIB SIMPLE: JSON decode failed: %r";;
            mret None);
      match decoded with
      | None => mret (VNone, VNone)
      | Some obj => pick_lyrics obj
      end
  end.

(** Lines 173 to 176: where the sidecar goes. *)
Definition sidecar_path (audio_path : string) (is_synced : pyval) : string :=
  let '(directory, fname) := path_split audio_path in
  let '(stem, _) := path_splitext fname in
  let ext : string := if truthy is_synced then ".lrc" else ".txt" in
  path_join directory (stem +:+ ext).

Definition _write_sidecar_for_path (audio_path : string)
    (lyrics is_synced : pyval) : M unit :=
  let out_path := sidecar_path audio_path is_synced in
  log Info "LRCLIB SIMPLE: Writing sidecar %s";;
  try_except
    (open_and_write env out_path lyrics;;
     log Info "LRCLIB SIMPLE: Successfully wrote sidecar")
    (λ exc, log Error "LRCLIB SIMPLE: Failed to write sidecar: %r").

Definition _worker_for_file (audio_path : string)
    (snapshot : gmap string string) : M unit :=
  try_except
    (log Info "LRCLIB SIMPLE: Worker started for %s";;
     query ← _build_query_from_snapshot snapshot;
     match query with
     | None => mret tt
     | Some q =>
         '(lyrics, is_synced) ← _fetch_lyrics_from_lrclib q;
         if negb (truthy lyrics) then
           log Info "LRCLIB SIMPLE: No lyrics found for %s"
         else _write_sidecar_for_path audio_path lyrics is_synced
     end)
    (λ exc, log Error "LRCLIB SIMPLE: Worker unexpected error for %s: %r").

Definition lrclib_simple_file_post_save (file : File) : M unit :=
  got_path ←
    try_except
      (audio_path ← lift (file_filename file);
       mret (Some audio_path))
      (λ exc,
        log Error "LRCLIB SIMPLE: Cannot read file filename: %r";;
        mret None);
  match got_path with
  | None => mret tt
  | Some audio_path =>
      got_snapshot ←
        try_except
          (md ← lift (file_metadata file);
           let snapshot :=
             dict_set "title" (md !! "title")
               (dict_set "artist" (md !! "artist")
                  (dict_set "album" (md !! "album")
                     (dict_set "~length" (md !! "~length") ∅))) in
           log Info "LRCLIB SIMPLE: Post-save → %s (title=%r, artist=%r)";;
           mret (Some snapshot))
          (λ exc,
            log Error "LRCLIB SIMPLE: Cannot snapshot metadata: %r";;
            mret None);
      match got_snapshot with
      | None => mret tt
      | Some snapshot =>
          try_except
            (let t := {| task_daemon := true;
                         task_audio_path := audio_path;
                         task_snapshot := snapshot |} in
             lift (thread_start env t);;
             add_thread t)
            (λ exc, log Error "LRCLIB SIMPLE: Failed to start worker thread: %r")
      end
  end.

End WithEnv.
End Pkg.

(** * [plugins/lrclib_lyrics_external_save.py] *)

Module Plugin.
Section WithEnv.
Context (env : Env).

Definition LRCLIB_URL : string := "https://lrclib.net/api/get".

(** Lines 42 to 57: the duration out of the [~length] text. *)
Definition parse_length (length_str : option string) : M (option Z) :=
  match length_str with
  | Some ls =>
      if str_truthy ls then
        try_except
          (let parts := str_split ":" ls in
           match parts with
           | [p0; p1] =>
               minutes ← lift (py_int p0);
               seconds ← lift (py_int p1);
               mret (Some (minutes * 60 + seconds))
           | _ => mret None
           end)
          (λ exc,
            log Info "LRCLIB SIMPLE: Failed to parse ~length %r: %r";;
            mret None)
      else mret None
  | None => mret None
  end.

Definition _build_query_from_file (file : File) : M (option Query) :=
  md ← lift (file_metadata file);
  let title := md !! "title" in
  let artist := md !! "artist" in
  let album := md !! "album" in
  let length_str := md !! "~length" in
  dur ← parse_length length_str;
  log Info "LRCLIB SIMPLE: Query → title=%r, artist=%r, album=%r, duration=%r";;
  (* past the test, title, artist and duration are there: [default] only
     unwraps them *)
  if negb (opt_truthy title && opt_truthy artist && optint_truthy dur) then
    mret None
  else
    mret (Some {| track_name := default EmptyString title;
                  artist_name := default EmptyString artist;
                  album_name := (if opt_truthy album
                                 then default EmptyString album
                                 else EmptyString);
                  duration := default 0 dur |}).

(** Lines 110 to 128: from the decoded value to the result pair. *)
Definition pick_lyrics (obj : pyval) : M (pyval * pyval) :=
  let first :=
    match obj with
    | VList [] => None
    | VList (x :: _) => Some x
    | _ => Some obj
    end in
  match first with
  | None => mret (VNone, VNone)
  | Some (VDict d) =>
      if negb (truthy (dict_get d "id")) then mret (VNone, VNone)
      else
        let synced := dict_get d "syncedLyrics" in
        let plain := dict_get d "plainLyrics" in
        if truthy synced then
          n ← lift (py_len synced);
          log Info "LRCLIB SIMPLE: Synced lyrics found (%d chars)";;
          mret (synced, VBool true)
        else if truthy plain then
          n ← lift (py_len plain);
          log Info "LRCLIB SIMPLE: Plain lyrics found (%d chars)";;
          mret (plain, VBool false)
        else mret (VNone, VNone)
  | Some _ => mret (VNone, VNone)
  end.

Definition _fetch_lyrics_from_lrclib (query : Query) : M (pyval * pyval) :=
  qs ← lift (urlencode env query);
  let url := LRCLIB_URL +:+ "?" +:+ qs in
  log Info "LRCLIB SIMPLE: Requesting %s";;
  ctx ← lift (create_unverified_context env);
  fetched ←
    try_except
      (emit (HttpGet url USER_AGENT 10);;
       resp ← lift (urlopen env url USER_AGENT 10);
       log Info "LRCLIB SIMPLE: HTTP status=%r";;
       data ← lift (resp_read resp);
       mret (Some data))
      (λ exc,
        log Warning "LRCLIB SIMPLE: HTTP request failed: %r";;
        mret None);
  match fetched with
  | None => mret (VNone, VNone)
  | Some data =>
      decoded ←
        try_except
          (let text := decode_utf8_replace env data in
           obj ← lift (json_loads env text);
           mret (Some obj))
          (λ exc,
            log Warning "LRCLIB SIMPLE: JSON decode failed: %r";;
            mret None);
      match decoded with
      | None => mret (VNone, VNone)
      | Some obj => pick_lyrics obj
      end
  end.

(** Lines 137 to 140: where the sidecar goes. *)
Definition sidecar_path (audio_path : string) (is_synced : pyval) : string :=
  let '(directory, fname) := path_split audio_path in
  let '(stem, _) := path_splitext fname in
  let ext : string := if truthy is_synced then ".lrc" else ".txt" in
  path_join directory (stem +:+ ext).

Definition _write_sidecar_for_file (file : File)
    (lyrics is_synced : pyval) : M unit :=
  audio_path ← lift (file_filename file);
  let out_path := sidecar_path audio_path is_synced in
  log Info "LRCLIB SIMPLE: Writing sidecar %s";;
  try_except
    (open_and_write env out_path lyrics;;
     log Info "LRCLIB SIMPLE: Successfully wrote sidecar")
    (λ exc, log Error "LRCLIB SIMPLE: Failed to write sidecar: %r").

Definition lrclib_simple_file_post_save (file : File) : M unit :=
  try_except
    (shown ← lift (file_filename file);
     log Info "LRCLIB SIMPLE: Post-save → %s";;
     query ← _build_query_from_file file;
     match query with
     | None => mret tt
     | Some q =>
         '(lyrics, is_synced) ← _fetch_lyrics_from_lrclib q;
         if negb (truthy lyrics) then
           log Info "LRCLIB SIMPLE: No lyrics found"
         else _write_sidecar_for_file file lyrics is_synced
     end)
    (λ exc, log Error "LRCLIB SIMPLE: Unexpected error: %r").

End WithEnv.
End Plugin.

(** The body of a started thread: its target is [_worker_for_file]. *)
Definition run_task (env : Env) (t : Task) : M unit :=
  Pkg._worker_for_file env (task_audio_path t) (task_snapshot t).

(** * The vocabulary of the specification *)

Fixpoint str_forall (P : ascii → bool) (s : string) : bool :=
  match s with
  | EmptyString => true
  | String c r => P c && str_forall P r
  end.

Definition is_digit (c : ascii) : bool :=
  match digit_value c with Some _ => true | None => false end.

(** A non-empty run of decimal digits. *)
Definition digits (g : string) : bool := str_truthy g && str_forall is_digit g.

Fixpoint decimal_value (acc : Z) (s : string) : Z :=
  match s with
  | EmptyString => acc
  | String c r => decimal_value (10 * acc + (code c - 48)) r
  end.

Fixpoint str_concat (gs : list string) : string :=
  match gs with
  | [] => EmptyString
  | g :: gs' => g +:+ str_concat gs'
  end.

(** The groups after the first one, each behind its underscore. *)
Fixpoint more_groups (gs : list string) : string :=
  match gs with
  | [] => EmptyString
  | g :: gs' => String "_" (g +:+ more_groups gs')
  end.

Inductive sign := NoSign | Plus | Minus.

Definition sign_text (sg : sign) : string :=
  match sg with NoSign => "" | Plus => "+" | Minus => "-" end.

Definition sign_value (sg : sign) : Z :=
  match sg with Minus => -1 | _ => 1 end.

(** The syntax of an integer in text: white space, a sign, groups of
    digits joined by single underscores, white space; its value is the
    decimal value of the digits. *)
Inductive int_syntax : string → Z → Prop :=
  | IntSyntax (w1 w2 g : string) (gs : list string) (sg : sign) :
      str_forall int_space w1 = true →
      str_forall int_space w2 = true →
      digits g = true →
      Forall (λ g', digits g' = true) gs →
      int_syntax (w1 +:+ sign_text sg +:+ g +:+ more_groups gs +:+ w2)
                 (sign_value sg * decimal_value 0 (g +:+ str_concat gs)).

(** An integer in text that [int] reads: the syntax above, with no more
    digits than the interpreter's limit. *)
Definition int_literal (s : string) (z : Z) : Prop :=
  int_syntax s z ∧ count_digits s <= int_max_str_digits.

Definition no_colon (s : string) : bool :=
  str_forall (λ c, negb (Ascii.eqb c ":")) s.

(** The shape "mm:ss": two runs of decimal digits around one colon,
    [m] minutes and [sec] seconds. *)
Definition plain_mmss (s : string) (m sec : Z) : Prop :=
  ∃ a b, s = a +:+ String ":" b ∧ digits a = true ∧ digits b = true
         ∧ m = decimal_value 0 a ∧ sec = decimal_value 0 b.

(** The number of [c] in [s]. *)
Fixpoint count_char (c : ascii) (s : string) : nat :=
  match s with
  | EmptyString => 0
  | String a r => (if Ascii.eqb a c then 1 else 0) + count_char c r
  end.

(** The characters an integer in text is made of: white space, digits,
    the underscore and the two signs. *)
Definition int_char (c : ascii) : bool :=
  int_space c || is_digit c || is_underscore c
  || (code c =? 43) || (code c =? 45).

(** [c * n]. *)
Fixpoint str_repeat (n : nat) (c : ascii) : string :=
  match n with
  | O => EmptyString
  | S n' => String c (str_repeat n' c)
  end.

(** Both copies parse the length [length_str] to [r]. *)
Definition parses_to (length_str : option string) (st : State)
    (r : option Z) : Prop :=
  fst (Pkg.parse_length length_str st) = Ret r
  ∧ fst (Plugin.parse_length length_str st) = Ret r.

(** What the parser reads: two integers in text around one colon. *)
Definition two_integers (s : string) (m sec : Z) : Prop :=
  ∃ a b, s = a +:+ String ":" b ∧ no_colon a = true ∧ no_colon b = true
         ∧ int_literal a m ∧ int_literal b sec.

(** The [~length] of a snapshot parses to [d] seconds. *)
Definition parsed_duration (snapshot : gmap string string) (d : Z) : Prop :=
  ∃ ls m sec, snapshot !! "~length" = Some ls
              ∧ two_integers ls m sec ∧ d = m * 60 + sec.

(** [q] is the query of a snapshot that has a title, an artist and a
    duration other than zero. *)
Definition complete (snapshot : gmap string string) (q : Query) : Prop :=
  snapshot !! "title" = Some (track_name q) ∧ track_name q ≠ ""
  ∧ snapshot !! "artist" = Some (artist_name q) ∧ artist_name q ≠ ""
  ∧ album_name q = default "" (snapshot !! "album")
  ∧ parsed_duration snapshot (duration q) ∧ duration q ≠ 0.

Definition is_log (ev : event) : Prop :=
  match ev with Log _ _ => True | HttpGet _ _ _ => False end.

(** From [st] to [st'] nothing happened but logging. *)
Definition quiet (st st' : State) : Prop :=
  st_fs st' = st_fs st ∧ st_threads st' = st_threads st
  ∧ ∃ logs, st_trace st' = st_trace st ++ logs ∧ Forall is_log logs.

(** From [st] to [st'] no request was sent and no file was touched; threads
    may have been started. *)
Definition offline (st st' : State) : Prop :=
  st_fs st' = st_fs st
  ∧ ∃ logs, st_trace st' = st_trace st ++ logs ∧ Forall is_log logs.

(** From [st] to [st'] the files outside [paths] kept their content. *)
Definition fs_frame (paths : list string) (st st' : State) : Prop :=
  ∀ p, p ∉ paths → st_fs st' !! p = st_fs st !! p.

Definition request_url (qs : string) : string :=
  "https://lrclib.net/api/get?" +:+ qs.

(** What one GET brings back: a decoded value, or nothing when opening,
    reading or decoding failed. *)
Inductive answer := NoAnswer | Answer (obj : pyval).

Definition service_answer (env : Env) (url : string) (timeout : Z) : answer :=
  match urlopen env url USER_AGENT timeout with
  | Raise _ => NoAnswer
  | Ret resp =>
      match resp_read resp with
      | Raise _ => NoAnswer
      | Ret data =>
          match json_loads env (decode_utf8_replace env data) with
          | Raise _ => NoAnswer
          | Ret obj => Answer obj
          end
      end
  end.

(** The request for [q] went out and brought back [a]. *)
Definition answered (env : Env) (q : Query) (timeout : Z) (a : answer) : Prop :=
  ∃ qs, urlencode env q = Ret qs
        ∧ create_unverified_context env = Ret tt
        ∧ service_answer env (request_url qs) timeout = a.

Definition NotFound : pyval * pyval := (VNone, VNone).

Definition Found (text : string) (synced : bool) : pyval * pyval :=
  (VStr text, VBool synced).

(** A lyrics field that is missing or empty: null, the empty string, or
    any other value Python takes for false. *)
Definition no_text (d : gmap string pyval) (k : string) : Prop :=
  d !! k = None ∨ ∃ v, d !! k = Some v ∧ truthy v = false.

(** A value [len] applies to. *)
Definition sized (v : pyval) : Prop :=
  match v with VStr _ | VList _ | VDict _ => True | _ => False end.

(** * Concrete worlds *)

Definition st0 : State := {| st_fs := ∅; st_trace := []; st_threads := [] |}.

Definition snapshot_of (title artist album len : string) : gmap string string :=
  <["title" := title]> (<["artist" := artist]> (<["album" := album]>
    (<["~length" := len]> ∅))).

Definition query_X : Query :=
  {| track_name := "X"; artist_name := "Y"; album_name := "Z"; duration := 225 |}.

(** A host on which a path names the file [names] gives, a write that
    fails has let [reached] octets through, the context is [ctx], the
    server answers requests whose timeout is at least [delay] seconds with
    a body that decodes to [obj], and the disk accepts writes when
    [disk_ok]. *)
Definition host (names : string → string) (reached : nat)
    (ctx : res unit) (delay : Z) (obj : res pyval) (disk_ok : bool) : Env :=
  {| urlencode := λ q, Ret (py_urlencode q);
     create_unverified_context := ctx;
     urlopen := λ url ua timeout,
       if delay <=? timeout then Ret {| resp_read := Ret "body" |}
       else Raise URLError;
     decode_utf8_replace := λ data, data;
     json_loads := λ text, obj;
     file_of := names;
     open_for_writing := λ path, Ret tt;
     write_text := λ path data, if disk_ok then Ret tt else Raise OSError;
     written_on_failure := λ path data, reached;
     thread_start := λ t, Ret tt |}.

(** Repeated separators read as one. *)
Fixpoint squeeze_sep (s : string) : string :=
  match s with
  | EmptyString => EmptyString
  | String a r =>
      match r with
      | String b _ =>
          if Ascii.eqb a sep && Ascii.eqb b sep then squeeze_sep r
          else String a (squeeze_sep r)
      | EmptyString => s
      end
  end.

(** The same, where every path names a file of its own and a write that
    fails lets nothing through. *)
Definition world (ctx : res unit) (delay : Z) (obj : res pyval) (disk_ok : bool)
    : Env :=
  host (λ path, path) 0 ctx delay obj disk_ok.

Definition response (id synced plain : pyval) : pyval :=
  VDict (<["id" := id]> (<["syncedLyrics" := synced]>
          (<["plainLyrics" := plain]> ∅))).

Definition song_file (len : string) : File :=
  {| file_filename := Ret "/music/a/Song.flac";
     file_metadata := Ret (snapshot_of "X" "Y" "Z" len) |}.

(** * The values the code computes, without its logging *)

Definition duration_of (ls : string) : option Z :=
  match str_split ":" ls with
  | [p0; p1] =>
      match py_int p0, py_int p1 with
      | Ret m, Ret s => Some (m * 60 + s)
      | _, _ => None
      end
  | _ => None
  end.

Definition length_duration (length_str : option string) : option Z :=
  match length_str with
  | Some ls => if str_truthy ls then duration_of ls else None
  | None => None
  end.

Definition query_of (snapshot : gmap string string) : option Query :=
  let title := snapshot !! "title" in
  let artist := snapshot !! "artist" in
  let album := snapshot !! "album" in
  let dur := length_duration (snapshot !! "~length") in
  if negb (opt_truthy title && opt_truthy artist && optint_truthy dur) then None
  else Some {| track_name := default EmptyString title;
               artist_name := default EmptyString artist;
               album_name := (if opt_truthy album
                              then default EmptyString album
                              else EmptyString);
               duration := default 0 dur |}.

Definition lyrics_of_dict (d : gmap string pyval) : res (pyval * pyval) :=
  if negb (truthy (dict_get d "id")) then Ret NotFound
  else
    let synced := dict_get d "syncedLyrics" in
    let plain := dict_get d "plainLyrics" in
    if truthy synced then
      match py_len synced with
      | Ret _ => Ret (synced, VBool true)
      | Raise e => Raise e
      end
    else if truthy plain then
      match py_len plain with
      | Ret _ => Ret (plain, VBool false)
      | Raise e => Raise e
      end
    else Ret NotFound.

Definition lyrics_of (obj : pyval) : res (pyval * pyval) :=
  match obj with
  | VList (VDict d :: _) => lyrics_of_dict d
  | VDict d => lyrics_of_dict d
  | _ => Ret NotFound
  end.

Definition fetch_result (a : answer) : res (pyval * pyval) :=
  match a with
  | NoAnswer => Ret NotFound
  | Answer obj => lyrics_of obj
  end.

(** What a fetch returns, read off the world. *)
Definition fetch_value (env : Env) (q : Query) (timeout : Z) : res (pyval * pyval) :=
  match urlencode env q with
  | Raise e => Raise e
  | Ret qs =>
      match create_unverified_context env with
      | Raise e => Raise e
      | Ret _ => fetch_result (service_answer env (request_url qs) timeout)
      end
  end.

(** * Properties of runs *)

(** Every run of [m] relates the state before to the state after. *)
Definition keeps (R : State → State → Prop) {A} (m : M A) : Prop :=
  ∀ st, R st (snd (m st)).

Definition never_raises {A} (m : M A) : Prop :=
  ∀ st, returns (fst (m st)) = true.

(** A relation on states that logging respects. *)
Class Frame (R : State → State → Prop) := {
  frame_refl : ∀ st, R st st;
  frame_trans : ∀ a b c, R a b → R b c → R a c;
  frame_log : ∀ lvl fmt st, R st (snd (log lvl fmt st));
}.

(** * The vocabulary of the lyrics client *)

(** The choice between the two lyrics fields of an accepted object. *)
Inductive chosen (d : gmap string pyval) : pyval * pyval → Prop :=
  | chosen_synced (s : string) :
      d !! "syncedLyrics" = Some (VStr s) → s ≠ "" →
      chosen d (Found s true)
  | chosen_plain (p : string) :
      no_text d "syncedLyrics" →
      d !! "plainLyrics" = Some (VStr p) → p ≠ "" →
      chosen d (Found p false)
  | chosen_none :
      no_text d "syncedLyrics" → no_text d "plainLyrics" →
      chosen d NotFound.

Definition is_dict (v : pyval) : Prop :=
  match v with VDict _ => True | _ => False end.

Definition is_list (v : pyval) : Prop :=
  match v with VList _ => True | _ => False end.

(** The decoded values the client turns down. *)
Inductive rejected : pyval → Prop :=
  | rejected_empty_array : rejected (VList [])
  | rejected_not_object (v : pyval) :
      ¬ is_dict v → ¬ is_list v → rejected v
  | rejected_first_not_object (v : pyval) (rest : list pyval) :
      ¬ is_dict v → rejected (VList (v :: rest))
  | rejected_no_id (d : gmap string pyval) :
      truthy (dict_get d "id") = false → rejected (VDict d)
  | rejected_first_no_id (d : gmap string pyval) (rest : list pyval) :
      truthy (dict_get d "id") = false → rejected (VList (VDict d :: rest)).

(** A field that, when present, is a string or null, as the service
    documents its lyrics fields. *)
Definition text_or_null (d : gmap string pyval) (k : string) : Prop :=
  d !! k = None ∨ d !! k = Some VNone ∨ ∃ s, d !! k = Some (VStr s).

(** The object a decoded value stands for: itself, or the first element
    of an array. *)
Definition the_object (obj : pyval) : option (gmap string pyval) :=
  match obj with
  | VDict d => Some d
  | VList (VDict d :: _) => Some d
  | _ => None
  end.

(** What the client makes of the two lyrics fields of an accepted object,
    whatever they hold.  The synced field comes first: when it holds a
    value Python takes for true, that value is the result, with flag True;
    the plain field is looked at only when the synced one is missing or
    false.  [len] is taken of the value picked, and raises TypeError when
    the value has no length. *)
Inductive choice (d : gmap string pyval) : res (pyval * pyval) → Prop :=
  | choice_synced (v : pyval) :
      d !! "syncedLyrics" = Some v → truthy v = true → sized v →
      choice d (Ret (v, VBool true))
  | choice_synced_no_len (v : pyval) :
      d !! "syncedLyrics" = Some v → truthy v = true → ¬ sized v →
      choice d (Raise TypeError)
  | choice_plain (v : pyval) :
      no_text d "syncedLyrics" →
      d !! "plainLyrics" = Some v → truthy v = true → sized v →
      choice d (Ret (v, VBool false))
  | choice_plain_no_len (v : pyval) :
      no_text d "syncedLyrics" →
      d !! "plainLyrics" = Some v → truthy v = true → ¬ sized v →
      choice d (Raise TypeError)
  | choice_none :
      no_text d "syncedLyrics" → no_text d "plainLyrics" →
      choice d (Ret NotFound).

(** When the request for [q] brings back [a], the client of either copy
    gives [r]. *)
Definition client_gives (env : Env) (q : Query) (st : State) (a : answer)
    (r : res (pyval * pyval)) : Prop :=
  (answered env q 15 a → fst (Pkg._fetch_lyrics_from_lrclib env q st) = r)
  ∧ (answered env q 10 a → fst (Plugin._fetch_lyrics_from_lrclib env q st) = r).

(** * The vocabulary of paths *)

Definition no_sep (s : string) : bool :=
  str_forall (λ c, negb (Ascii.eqb c sep)) s.

Definition no_dot (s : string) : bool :=
  str_forall (λ c, negb (Ascii.eqb c extsep)) s.

(** [audio_path] is [dir/stem.old]: a directory that does not end in a
    separator, a file name with a character other than a dot before its
    last dot, and an extension. *)
Definition path_of (dir stem old : string) (audio_path : string) : Prop :=
  audio_path = dir +:+ String sep (stem +:+ String extsep old)
  ∧ str_truthy dir = true ∧ str_endswith sep dir = false
  ∧ no_sep stem = true ∧ str_all extsep stem = false
  ∧ no_sep old = true ∧ no_dot old = true.

(** * The vocabulary of effects on files *)

Definition same_fs (st st' : State) : Prop := st_fs st' = st_fs st.

(** [data] is the beginning of [whole]. *)
Definition str_prefix (data whole : string) : Prop :=
  ∃ n, data = str_take n whole.

(** What a run may do to the files: nothing, or leave in the file a
    sidecar path of [audio_path] names the beginning of an encoded text:
    all of it, or less, down to nothing, when writing failed. *)
Definition sidecar_outcome (env : Env) (audio_path : string)
    (st st' : State) : Prop :=
  st_fs st' = st_fs st
  ∨ (∃ f s data,
       str_prefix data (utf8_encode s)
       ∧ st_fs st'
         = <[file_of env (Pkg.sidecar_path audio_path f) := data]> (st_fs st)).

Definition st_old : State :=
  {| st_fs := {["/music/a/Song.lrc" := "old"]};
     st_trace := []; st_threads := [] |}.

(** * The vocabulary of the log *)

Definition trace_grows (st st' : State) : Prop :=
  ∃ mid, st_trace st' = st_trace st ++ mid.

(** The run from [st] to [st'] ended by logging [fmt] at level [lvl]. *)
Definition logged (lvl : level) (fmt : string) (st st' : State) : Prop :=
  ∃ mid, st_trace st' = st_trace st ++ mid ++ [Log lvl fmt].

(** The run from [st] to [st'] wrote [ev] into the log. *)
Definition wrote (ev : event) (st st' : State) : Prop :=
  ∃ before after, st_trace st' = st_trace st ++ before ++ ev :: after.

(** A failure as it shows: the run wrote [ev] into the log and left the
    files as [fs]. *)
Definition shows (ev : event) (fs : gmap string string) (st st' : State)
    : Prop :=
  wrote ev st st' ∧ st_fs st' = fs.

(** * The two copies, side by side *)

Inductive copy := Package | Plugins.

(** One run of the pipeline for a file: in the package copy the worker of
    the thread the hook started, in the plugins copy the hook itself. *)
Definition run_of (c : copy) (env : Env) (file : File) (audio_path : string)
    (snapshot : gmap string string) : M unit :=
  match c with
  | Package => Pkg._worker_for_file env audio_path snapshot
  | Plugins => Plugin.lrclib_simple_file_post_save env file
  end.

(** The seconds a copy waits for the server. *)
Definition timeout_of (c : copy) : Z :=
  match c with Package => 15 | Plugins => 10 end.

(** The entry each copy writes where it catches a failure: of the two
    calls of [int], of opening or reading the response, of decoding it, of
    writing the sidecar, and of whatever reaches the catch-all around the
    run. *)
Definition parse_entry (c : copy) : event :=
  match c with
  | Package => Log Warning "LRCLIB SIMPLE: failed to parse '~length' %r: %r"
  | Plugins => Log Info "LRCLIB SIMPLE: Failed to parse ~length %r: %r"
  end.

Definition request_entry (c : copy) : event :=
  match c with
  | Package => Log Error "LRCLIB SIMPLE: HTTP request failed: %r"
  | Plugins => Log Warning "LRCLIB SIMPLE: HTTP request failed: %r"
  end.

Definition decode_entry (c : copy) : event :=
  match c with
  | Package => Log Error "LRCLIB SIMPLE: JSON decode failed: %r"
  | Plugins => Log Warning "LRCLIB SIMPLE: JSON decode failed: %r"
  end.

Definition write_entry : event :=
  Log Error "LRCLIB SIMPLE: Failed to write sidecar: %r".

(** The builder, the client and the writer of a copy. *)
Definition builder_of (c : copy) (file : File)
    (snapshot : gmap string string) : M (option Query) :=
  match c with
  | Package => Pkg._build_query_from_snapshot snapshot
  | Plugins => Plugin._build_query_from_file file
  end.

Definition client_of (c : copy) (env : Env) (q : Query) : M (pyval * pyval) :=
  match c with
  | Package => Pkg._fetch_lyrics_from_lrclib env q
  | Plugins => Plugin._fetch_lyrics_from_lrclib env q
  end.

Definition writer_of (c : copy) (env : Env) (file : File) (audio_path : string)
    (lyrics is_synced : pyval) : M unit :=
  match c with
  | Package => Pkg._write_sidecar_for_path env audio_path lyrics is_synced
  | Plugins => Plugin._write_sidecar_for_file env file lyrics is_synced
  end.

Definition catch_all_entry (c : copy) : event :=
  match c with
  | Package => Log Error "LRCLIB SIMPLE: Worker unexpected error for %s: %r"
  | Plugins => Log Error "LRCLIB SIMPLE: Unexpected error: %r"
  end.

(** The thread the hook of the package copy starts for a file. *)
Definition task_for (audio_path : string) (md : gmap string string) : Task :=
  {| task_daemon := true;
     task_audio_path := audio_path;
     task_snapshot :=
       dict_set "title" (md !! "title")
         (dict_set "artist" (md !! "artist")
            (dict_set "album" (md !! "album")
               (dict_set "~length" (md !! "~length") ∅))) |}.

(** A server that answers at once with synced lyrics; the same one with a
    full disk; a slow one, answering after twelve seconds. *)
Definition world_ok : Env :=
  world (Ret tt) 0 (Ret (response (VInt 1) (VStr "la") VNone)) true.

Definition world_disk_full : Env :=
  world (Ret tt) 0 (Ret (response (VInt 1) (VStr "la") VNone)) false.

Definition world_slow : Env :=
  world (Ret tt) 12 (Ret (response (VInt 1) (VStr "la") VNone)) true.

Definition world_no_ssl : Env :=
  world (Raise OSError) 0 (Ret (response (VInt 1) (VStr "la") VNone)) true.

(** A server whose synced lyrics come as an array of lines. *)
Definition world_lines : Env :=
  world (Ret tt) 0 (Ret (response (VInt 1) (VList [VStr "la"]) VNone)) true.

(** The server of [world_ok] and a disk that fills up while the sidecar is
    written: one octet reaches the file. *)
Definition world_disk_fills : Env :=
  host (λ path, path) 1 (Ret tt) 0
    (Ret (response (VInt 1) (VStr "la") VNone)) false.

(** * More vocabulary: what a whole run does *)

(** The requests recorded in a log, oldest first. *)
Fixpoint requests (tr : list event) : list (string * string * Z) :=
  match tr with
  | [] => []
  | HttpGet url ua timeout :: r => (url, ua, timeout) :: requests r
  | Log _ _ :: r => requests r
  end.

(** From [st] to [st'] exactly the requests [rs] were sent. *)
Definition sends (rs : list (string * string * Z)) (st st' : State) : Prop :=
  requests (st_trace st') = requests (st_trace st) ++ rs.

(** What opening [out] and writing [lyrics] does to the files. *)
Definition write_effect (env : Env) (out : string) (lyrics : pyval)
    (fs : gmap string string) : gmap string string :=
  match open_for_writing env out with
  | Raise _ => fs
  | Ret _ =>
      match lyrics with
      | VStr s =>
          match write_text env out (utf8_encode s) with
          | Ret _ => <[file_of env out := utf8_encode s]> fs
          | Raise _ =>
              <[file_of env out
                := str_take (written_on_failure env out (utf8_encode s))
                     (utf8_encode s)]> fs
          end
      | _ => <[file_of env out := ""]> fs
      end
  end.

(** What one run of the pipeline does to the files. *)
Definition pipeline_effect (env : Env) (timeout : Z) (audio_path : string)
    (snapshot : gmap string string) (fs : gmap string string)
    : gmap string string :=
  match query_of snapshot with
  | None => fs
  | Some q =>
      match fetch_value env q timeout with
      | Ret (lyrics, is_synced) =>
          if truthy lyrics
          then write_effect env (Pkg.sidecar_path audio_path is_synced) lyrics fs
          else fs
      | Raise _ => fs
      end
  end.

(** The request one call of the client sends, if any. *)
Definition fetch_requests (env : Env) (q : Query) (timeout : Z)
    : list (string * string * Z) :=
  match urlencode env q, create_unverified_context env with
  | Ret qs, Ret _ => [(request_url qs, USER_AGENT, timeout)]
  | _, _ => []
  end.

(** The request one run of the pipeline sends, if any. *)
Definition pipeline_requests (env : Env) (timeout : Z)
    (snapshot : gmap string string) : list (string * string * Z) :=
  match query_of snapshot with
  | None => []
  | Some q => fetch_requests env q timeout
  end.

(** [data.decode("utf-8")] for the encodings of code points below 256;
    [None] for any other octets. *)
Fixpoint utf8_decode (data : string) : option string :=
  match data with
  | EmptyString => Some EmptyString
  | String c r =>
      if code c <? 128 then String c <$> utf8_decode r
      else
        match r with
        | String c2 r' =>
            if ((code c =? 194) || (code c =? 195))
               && (128 <=? code c2) && (code c2 <? 192)
            then String (chr (Z.lor (Z.shiftl (Z.land (code c) 3) 6)
                                    (Z.land (code c2) 63)))
                   <$> utf8_decode r'
            else None
        | EmptyString => None
        end
  end.

(** [s.endswith(suffix)]. *)
Definition str_endswith_str (suffix s : string) : bool :=
  (String.length suffix <=? String.length s)%nat
  && String.eqb (str_drop (String.length s - String.length suffix) s) suffix.

(** The four keys the pipeline reads. *)
Definition query_keys : list string := ["title"; "artist"; "album"; "~length"].

(** The extension the writer picks. *)
Definition sidecar_ext (is_synced : pyval) : string :=
  if truthy is_synced then ".lrc" else ".txt".

(** A file name without an extension: dots, if any, only in front. *)
Definition bare_name (fname : string) : Prop :=
  ∃ dots rest, fname = dots +:+ rest
               ∧ str_all extsep dots = true
               ∧ no_dot rest = true ∧ no_sep rest = true.

(** The state [st] with the events [evs] added to its trace. *)
Definition with_events (evs : list event) (st : State) : State :=
  {| st_fs := st_fs st;
     st_trace := st_trace st ++ evs;
     st_threads := st_threads st |}.

(** What a run that finds lyrics and writes them leaves in the trace,
    after the entry of the caller: the query, the request and its status,
    the find, the write. *)
Definition found_events (url : string) (timeout : Z) (synced : bool)
    : list event :=
  [ Log Info "LRCLIB SIMPLE: Query → title=%r, artist=%r, album=%r, duration=%r";
    Log Info "LRCLIB SIMPLE: Requesting %s";
    HttpGet url USER_AGENT timeout;
    Log Info "LRCLIB SIMPLE: HTTP status=%r";
    Log Info (if synced then "LRCLIB SIMPLE: Synced lyrics found (%d chars)"
              else "LRCLIB SIMPLE: Plain lyrics found (%d chars)");
    Log Info "LRCLIB SIMPLE: Writing sidecar %s";
    Log Info "LRCLIB SIMPLE: Successfully wrote sidecar" ].

(** The characters [quote_plus] lets through or writes: letters, digits,
    [_.-~], the plus for a space and the percent of an escape. *)
Definition url_safe (c : ascii) : bool :=
  is_unreserved c || (code c =? 43) || (code c =? 37).

(** * The builtins *)

(** ** Strings *)

#[local] Arguments String.append !_ _ : simpl nomatch.

Lemma str_app_assoc (a b c : string) : (a +:+ b) +:+ c = a +:+ (b +:+ c).
Proof. induction a as [|x a IH]; simpl; [done | by rewrite IH]. Qed.

Lemma str_app_nil_r (a : string) : a +:+ "" = a.
Proof. induction a as [|x a IH]; simpl; [done | by rewrite IH]. Qed.

Lemma str_forall_app P (a b : string) :
  str_forall P (a +:+ b) = str_forall P a && str_forall P b.
Proof.
  induction a as [|x a IH]; simpl; [done |].
  rewrite IH. by destruct (P x).
Qed.

Lemma code_inj (c c' : ascii) : code c = code c' → c = c'.
Proof.
  unfold code. intros H. apply N2Z.inj in H.
  rewrite <- (ascii_N_embedding c), <- (ascii_N_embedding c'). by rewrite H.
Qed.

(** ** The character classes are disjoint *)

Lemma space_not_digit c : int_space c = true → digit_value c = None.
Proof.
  unfold int_space, digit_value. intros H.
  destruct ((48 <=? code c) && (code c <=? 57)) eqn:E; [|done].
  exfalso. apply andb_prop in E as [E1 E2].
  apply Z.leb_le in E1, E2.
  repeat (apply orb_prop in H as [H|H]);
    [apply andb_prop in H as [H1 H2]; apply Z.leb_le in H1, H2; lia
    | apply Z.eqb_eq in H; lia ..].
Qed.

Lemma space_not_underscore c : int_space c = true → is_underscore c = false.
Proof.
  unfold int_space, is_underscore. intros H.
  destruct (code c =? 95) eqn:E; [|done].
  exfalso. apply Z.eqb_eq in E.
  repeat (apply orb_prop in H as [H|H]);
    [apply andb_prop in H as [H1 H2]; apply Z.leb_le in H1, H2; lia
    | apply Z.eqb_eq in H; lia ..].
Qed.

Lemma digit_value_spec c d :
  digit_value c = Some d → d = code c - 48 ∧ 48 ≤ code c ≤ 57.
Proof.
  unfold digit_value.
  destruct ((48 <=? code c) && (code c <=? 57)) eqn:E; [|done].
  apply andb_prop in E as [E1 E2]. apply Z.leb_le in E1, E2.
  intros [= <-]. lia.
Qed.

Lemma digit_not_space c d : digit_value c = Some d → int_space c = false.
Proof.
  intros H. destruct (int_space c) eqn:E; [|done].
  apply space_not_digit in E. congruence.
Qed.

Lemma is_digit_value c : is_digit c = true → digit_value c = Some (code c - 48).
Proof.
  unfold is_digit. destruct (digit_value c) as [d|] eqn:E; [|done].
  apply digit_value_spec in E as [-> _]. done.
Qed.

(** ** [int]: every integer in text is read *)

Lemma skip_space_spaces (w s : string) :
  str_forall int_space w = true → skip_space (w +:+ s) = skip_space s.
Proof.
  induction w as [|c w IH]; simpl; [done |].
  intros [Hc Hw]%andb_prop. rewrite Hc. auto.
Qed.

Lemma skip_space_all (w : string) :
  str_forall int_space w = true → skip_space w = "".
Proof.
  intros H. rewrite <- (str_app_nil_r w). by rewrite skip_space_spaces.
Qed.

Lemma decimal_value_app (a b : string) acc :
  decimal_value acc (a +:+ b) = decimal_value (decimal_value acc a) b.
Proof. revert acc. induction a as [|c a IH]; simpl; intros; [done | apply IH]. Qed.

Lemma scan_digits_run (g rest : string) acc :
  str_forall is_digit g = true →
  scan_digits false acc (g +:+ rest) = scan_digits false (decimal_value acc g) rest.
Proof.
  revert acc. induction g as [|c g IH]; simpl; intros acc H; [done |].
  apply andb_prop in H as [Hc Hg].
  rewrite (is_digit_value _ Hc). auto.
Qed.

Lemma scan_digits_after_underscore (g rest : string) acc :
  digits g = true →
  scan_digits true acc (g +:+ rest) = scan_digits false (decimal_value acc g) rest.
Proof.
  unfold digits. destruct g as [|c g]; simpl; [done |].
  intros [Hc Hg]%andb_prop.
  rewrite (is_digit_value _ Hc). by apply scan_digits_run.
Qed.

Lemma scan_digits_groups (gs : list string) (rest : string) acc :
  Forall (λ g, digits g = true) gs →
  scan_digits false acc (more_groups gs +:+ rest)
  = scan_digits false (decimal_value acc (str_concat gs)) rest.
Proof.
  intros H. revert acc. induction H as [|g gs Hg _ IH]; intros acc; simpl; [done |].
  rewrite str_app_assoc, scan_digits_after_underscore by done.
  by rewrite IH, decimal_value_app.
Qed.

Lemma scan_digits_end (w : string) acc :
  str_forall int_space w = true → scan_digits false acc w = Some (acc, w).
Proof.
  destruct w as [|c w]; simpl; [done |].
  intros [Hc _]%andb_prop.
  by rewrite (space_not_digit _ Hc), (space_not_underscore _ Hc).
Qed.

Lemma take_sign_digit c r d :
  digit_value c = Some d → take_sign (String c r) = (1, String c r).
Proof.
  intros [_ H]%digit_value_spec. unfold take_sign.
  destruct (code c =? 43) eqn:E1; [apply Z.eqb_eq in E1; lia |].
  destruct (code c =? 45) eqn:E2; [apply Z.eqb_eq in E2; lia | done].
Qed.

Lemma long_from_string_digits (g rest w2 : string) (gs : list string) sgn :
  digits g = true →
  Forall (λ g', digits g' = true) gs →
  str_forall int_space w2 = true →
  match g +:+ more_groups gs +:+ w2 with
  | String c r =>
      match digit_value c with
      | Some d =>
          match scan_digits false d r with
          | Some (v, rest) =>
              match skip_space rest with
              | EmptyString => Some (sgn * v)
              | String _ _ => None
              end
          | None => None
          end
      | None => None
      end
  | EmptyString => None
  end = Some (sgn * decimal_value 0 (g +:+ str_concat gs)).
Proof.
  unfold digits. destruct g as [|c g]; simpl; [done |].
  intros [Hc Hg]%andb_prop Hgs Hw.
  rewrite (is_digit_value _ Hc).
  rewrite scan_digits_run, scan_digits_groups, scan_digits_end by done.
  rewrite skip_space_all by done.
  by rewrite decimal_value_app.
Qed.

Lemma long_from_string_complete (s : string) (z : Z) :
  int_syntax s z → long_from_string s = Some z.
Proof.
  intros [w1 w2 g gs sg Hw1 Hw2 Hg Hgs].
  unfold long_from_string. rewrite skip_space_spaces by done.
  destruct sg; simpl.
  - pose proof Hg as Hg'. unfold digits in Hg'.
    destruct g as [|c g]; simpl in *; [done |].
    apply andb_prop in Hg' as [Hc _].
    rewrite (digit_not_space _ _ (is_digit_value _ Hc)).
    rewrite (take_sign_digit _ _ _ (is_digit_value _ Hc)).
    apply (long_from_string_digits (String c g)); done.
  - by apply long_from_string_digits.
  - by apply long_from_string_digits.
Qed.

(** ** [int]: only integers in text are read *)

Lemma skip_space_spec (s : string) :
  ∃ w, s = w +:+ skip_space s ∧ str_forall int_space w = true.
Proof.
  induction s as [|c s [w [Hs Hw]]]; simpl.
  - by exists "".
  - destruct (int_space c) eqn:E.
    + exists (String c w). simpl. rewrite E, <- Hs. done.
    + by exists "".
Qed.

Lemma skip_space_empty (s : string) :
  skip_space s = "" → str_forall int_space s = true.
Proof.
  induction s as [|c s IH]; simpl; [done |].
  destruct (int_space c); [auto | done].
Qed.

Lemma take_sign_spec (s s2 : string) sgn :
  take_sign s = (sgn, s2) →
  ∃ sg, s = sign_text sg +:+ s2 ∧ sgn = sign_value sg.
Proof.
  unfold take_sign. destruct s as [|c r].
  - intros [= <- <-]. by exists NoSign.
  - destruct (code c =? 43) eqn:E1.
    { intros [= <- <-]. exists Plus. split; [|done].
      apply Z.eqb_eq in E1. by rewrite (code_inj c "+" E1). }
    destruct (code c =? 45) eqn:E2.
    { intros [= <- <-]. exists Minus. split; [|done].
      apply Z.eqb_eq in E2. by rewrite (code_inj c "-" E2). }
    intros [= <- <-]. by exists NoSign.
Qed.

Lemma scan_digits_spec (s : string) : ∀ b acc v rest,
  scan_digits b acc s = Some (v, rest) →
  ∃ g gs, s = g +:+ more_groups gs +:+ rest
          ∧ str_forall is_digit g = true
          ∧ (b = true → g ≠ "")
          ∧ Forall (λ g', digits g' = true) gs
          ∧ v = decimal_value acc (g +:+ str_concat gs).
Proof.
  induction s as [|c r IH]; intros b acc v rest; simpl.
  - destruct b; [done |]. intros [= <- <-].
    exists "", []. by repeat split.
  - destruct (digit_value c) as [d|] eqn:Ed.
    + intros (g & gs & -> & Hg & _ & Hgs & ->)%IH.
      exists (String c g), gs. simpl.
      apply digit_value_spec in Ed as Ed'. destruct Ed' as [-> _].
      unfold is_digit. rewrite Ed. by repeat split.
    + destruct (is_underscore c) eqn:Eu.
      * destruct b; [done |].
        intros (g & gs & -> & Hg & Hne & Hgs & ->)%IH.
        exists "", (g :: gs). simpl.
        apply Z.eqb_eq in Eu. rewrite (code_inj c "_" Eu).
        assert (digits g = true) as Hd.
        { unfold digits. rewrite Hg. destruct g; [by destruct Hne | done]. }
        rewrite str_app_assoc. repeat split; try done. by constructor.
      * destruct b; [done |]. intros [= <- <-].
        exists "", []. by repeat split.
Qed.

Lemma long_from_string_sound (s : string) (z : Z) :
  long_from_string s = Some z → int_syntax s z.
Proof.
  unfold long_from_string.
  destruct (skip_space_spec s) as (w1 & Hs & Hw1).
  destruct (take_sign (skip_space s)) as [sgn s2] eqn:Et.
  apply take_sign_spec in Et as (sg & Hs1 & ->).
  destruct s2 as [|c r]; [done |].
  destruct (digit_value c) as [d|] eqn:Ed; [|done].
  destruct (scan_digits false d r) as [[v rest]|] eqn:Es; [|done].
  destruct (skip_space rest) eqn:Er; [|done].
  intros [= <-].
  apply scan_digits_spec in Es as (g & gs & -> & Hg & _ & Hgs & ->).
  apply skip_space_empty in Er.
  rewrite Hs, Hs1.
  apply digit_value_spec in Ed as Ed'. destruct Ed' as [-> _].
  replace (decimal_value (code c - 48) (g +:+ str_concat gs))
    with (decimal_value 0 (String c g +:+ str_concat gs)) by done.
  replace (String c (g +:+ more_groups gs +:+ rest))
    with (String c g +:+ more_groups gs +:+ rest) by done.
  constructor; try done.
  unfold digits. simpl. rewrite Hg. unfold is_digit. by rewrite Ed.
Qed.

Lemma py_int_literal (s : string) (z : Z) : py_int s = Ret z ↔ int_literal s z.
Proof.
  unfold py_int, int_literal. split.
  - destruct (long_from_string s) eqn:E; [|done].
    destruct (count_digits s <=? int_max_str_digits) eqn:El; [|done].
    intros [= <-]. split; [by apply long_from_string_sound |].
    by apply Z.leb_le.
  - intros [H Hl]. rewrite (long_from_string_complete _ _ H).
    apply Z.leb_le in Hl. by rewrite Hl.
Qed.

Lemma int_syntax_unique (s : string) (z z' : Z) :
  int_syntax s z → int_syntax s z' → z = z'.
Proof.
  intros H H'. apply long_from_string_complete in H, H'. congruence.
Qed.

Lemma count_digits_digits (g : string) :
  str_forall is_digit g = true → count_digits g = str_len g.
Proof.
  unfold str_len. induction g as [|c g IH]; [done |].
  cbn [str_forall count_digits String.length].
  intros [Hc Hg]%andb_prop. unfold is_digit in Hc.
  destruct (digit_value c); [|done]. rewrite (IH Hg). lia.
Qed.

(** ** [split] on the colon *)

Lemma str_split_cons (s : string) : ∃ p ps, str_split ":" s = p :: ps.
Proof.
  induction s as [|c s (p & ps & IH)]; simpl; [by eauto |].
  destruct (Ascii.eqb c ":"); [by eauto |]. rewrite IH. eauto.
Qed.

Lemma str_split_none (b : string) :
  no_colon b = true → str_split ":" b = [b].
Proof.
  unfold no_colon. induction b as [|c b IH]; simpl; [done |].
  intros [Hc Hb]%andb_prop. apply negb_true_iff in Hc. rewrite Hc.
  by rewrite IH.
Qed.

Lemma str_split_app (a b : string) :
  no_colon a = true →
  str_split ":" (a +:+ String ":" b) = a :: str_split ":" b.
Proof.
  unfold no_colon. induction a as [|c a IH]; simpl; [done |].
  intros [Hc Ha]%andb_prop. apply negb_true_iff in Hc. rewrite Hc.
  by rewrite IH.
Qed.

Lemma str_split_inv (s p : string) (ps : list string) :
  str_split ":" s = p :: ps →
  no_colon p = true
  ∧ match ps with
    | [] => s = p
    | _ :: _ => ∃ r, s = p +:+ String ":" r ∧ str_split ":" r = ps
    end.
Proof.
  revert p ps. induction s as [|c s IH]; intros p ps; simpl.
  - by intros [= <- <-].
  - destruct (Ascii.eqb c ":") eqn:Ec.
    + intros [= <- <-]. split; [done |].
      apply Ascii.eqb_eq in Ec as ->.
      destruct (str_split_cons s) as (q & qs & Hq). rewrite Hq.
      exists s. by rewrite Hq.
    + destruct (str_split ":" s) as [|q qs] eqn:Hs.
      { destruct (str_split_cons s) as (? & ? & ?). congruence. }
      intros [= <- <-].
      destruct (IH q qs eq_refl) as [Hq Hrest].
      split.
      { unfold no_colon in *. simpl. rewrite Ec. exact Hq. }
      destruct qs as [|q' qs]; [by rewrite Hrest |].
      destruct Hrest as (r & -> & Hr). by exists r.
Qed.

Lemma duration_of_shape (ls : string) (d : Z) :
  duration_of ls = Some d ↔ ∃ m sec, two_integers ls m sec ∧ d = m * 60 + sec.
Proof.
  unfold duration_of, two_integers. split.
  - destruct (str_split ":" ls) as [|p0 [|p1 [|? ?]]] eqn:Hs; try done.
    apply str_split_inv in Hs as [H0 (r & -> & Hr)].
    apply str_split_inv in Hr as [H1 ->].
    destruct (py_int p0) as [m|] eqn:Em; [|done].
    destruct (py_int p1) as [sec|] eqn:Es; [|done].
    intros [= <-]. exists m, sec. split; [|done].
    exists p0, p1. by rewrite <- !py_int_literal.
  - intros (m & sec & (a & b & -> & Ha & Hb & Hm & Hsec) & ->).
    rewrite str_split_app, str_split_none by done.
    apply py_int_literal in Hm, Hsec. by rewrite Hm, Hsec.
Qed.

Lemma two_integers_truthy (ls : string) m sec :
  two_integers ls m sec → str_truthy ls = true.
Proof. intros (a & b & -> & _). by destruct a. Qed.

(** * The pipeline *)

(** ** Reasoning about runs *)

Ltac run :=
  unfold mbind, M_bind, mret, M_ret, lift, try_except, raise, log, emit,
    set_file, add_thread; simpl.

Section Frames.
Context (R : State → State → Prop) `{!Frame R}.

Lemma keeps_ret {A} (a : A) : keeps R (mret a).
Proof. intros st. apply frame_refl. Qed.

Lemma keeps_lift {A} (r : res A) : keeps R (lift r).
Proof. intros st. apply frame_refl. Qed.

Lemma keeps_raise {A} (e : exn) : keeps R (raise (A := A) e).
Proof. intros st. apply frame_refl. Qed.

Lemma keeps_log lvl fmt : keeps R (log lvl fmt).
Proof. intros st. apply frame_log. Qed.

Lemma keeps_bind {A B} (m : M A) (f : A → M B) :
  keeps R m → (∀ a, keeps R (f a)) → keeps R (m ≫= f).
Proof.
  intros Hm Hf st. unfold mbind, M_bind. specialize (Hm st).
  destruct (m st) as [[a|e] st']; simpl in *; [|done].
  eapply frame_trans; [done | apply Hf].
Qed.

Lemma keeps_try {A} (body : M A) (handler : exn → M A) :
  keeps R body → (∀ e, keeps R (handler e)) → keeps R (try_except body handler).
Proof.
  intros Hm Hh st. unfold try_except. specialize (Hm st).
  destruct (body st) as [[a|e] st']; simpl in *; [done |].
  eapply frame_trans; [done | apply Hh].
Qed.

End Frames.

Ltac frame_step :=
  first
    [ apply keeps_ret | apply keeps_lift | apply keeps_raise | apply keeps_log
    | apply keeps_bind | apply keeps_try
    | match goal with
      | |- keeps _ (match ?x with _ => _ end) => destruct x
      | |- keeps _ (let _ := _ in _) => cbv zeta
      | |- ∀ _, _ => intro
      end ].

Ltac frame := try typeclasses eauto; repeat (frame_step; try typeclasses eauto).

#[global] Instance quiet_frame : Frame quiet.
Proof.
  split.
  - intros st. repeat split. exists []. by rewrite app_nil_r.
  - intros a b c (Hf1 & Ht1 & l1 & Hl1 & Hlog1) (Hf2 & Ht2 & l2 & Hl2 & Hlog2).
    repeat split; [congruence | congruence |].
    exists (l1 ++ l2). rewrite Hl2, Hl1, app_assoc. split; [done |].
    by apply Forall_app.
  - intros lvl fmt st. repeat split. simpl. exists [Log lvl fmt].
    split; [done |]. by repeat constructor.
Qed.

#[global] Instance offline_frame : Frame offline.
Proof.
  split.
  - intros st. split; [done |]. exists []. by rewrite app_nil_r.
  - intros a b c (Hf1 & l1 & Hl1 & Hlog1) (Hf2 & l2 & Hl2 & Hlog2).
    split; [congruence |].
    exists (l1 ++ l2). rewrite Hl2, Hl1, app_assoc. split; [done |].
    by apply Forall_app.
  - intros lvl fmt st. split; [done |]. simpl. exists [Log lvl fmt].
    split; [done |]. by repeat constructor.
Qed.

#[global] Instance fs_frame_frame paths : Frame (fs_frame paths).
Proof.
  split.
  - by intros st p _.
  - intros a b c H1 H2 p Hp. by rewrite H2, H1.
  - by intros lvl fmt st p _.
Qed.

(** ** The query builders *)

Lemma Pkg_parse_length_quiet o : keeps quiet (Pkg.parse_length o).
Proof. unfold Pkg.parse_length. frame. Qed.

Lemma Plugin_parse_length_quiet o : keeps quiet (Plugin.parse_length o).
Proof. unfold Plugin.parse_length. frame. Qed.

Lemma Pkg_parse_length_fst o st :
  fst (Pkg.parse_length o st) = Ret (length_duration o).
Proof.
  unfold Pkg.parse_length, length_duration, duration_of.
  destruct o as [ls|]; run; [|done].
  destruct (str_truthy ls); [|done].
  destruct (str_split ":" ls) as [|p0 [|p1 [|? ?]]]; run; try done.
  destruct (py_int p0); run; [|done].
  destruct (py_int p1); run; done.
Qed.

Lemma Plugin_parse_length_fst o st :
  fst (Plugin.parse_length o st) = Ret (length_duration o).
Proof.
  unfold Plugin.parse_length, length_duration, duration_of.
  destruct o as [ls|]; run; [|done].
  destruct (str_truthy ls); [|done].
  destruct (str_split ":" ls) as [|p0 [|p1 [|? ?]]]; run; try done.
  destruct (py_int p0); run; [|done].
  destruct (py_int p1); run; done.
Qed.

Lemma Pkg_build_quiet snapshot : keeps quiet (Pkg._build_query_from_snapshot snapshot).
Proof.
  unfold Pkg._build_query_from_snapshot. cbv zeta.
  apply keeps_bind; [typeclasses eauto | apply Pkg_parse_length_quiet |].
  intros dur. frame.
Qed.

Lemma Pkg_build_fst snapshot st :
  fst (Pkg._build_query_from_snapshot snapshot st) = Ret (query_of snapshot).
Proof.
  unfold Pkg._build_query_from_snapshot, query_of. cbv zeta.
  unfold mbind at 1, M_bind at 1.
  pose proof (Pkg_parse_length_fst (snapshot !! "~length") st) as H.
  destruct (Pkg.parse_length (snapshot !! "~length") st) as [r st'].
  simpl in H. subst r. run.
  by destruct (negb _).
Qed.

Lemma Plugin_build_quiet file : keeps quiet (Plugin._build_query_from_file file).
Proof.
  unfold Plugin._build_query_from_file.
  apply keeps_bind; [typeclasses eauto | frame |].
  intros md. cbv zeta.
  apply keeps_bind; [typeclasses eauto | apply Plugin_parse_length_quiet |].
  intros dur. frame.
Qed.

Lemma Plugin_build_fst file st :
  fst (Plugin._build_query_from_file file st)
  = match file_metadata file with
    | Ret md => Ret (query_of md)
    | Raise e => Raise e
    end.
Proof.
  unfold Plugin._build_query_from_file, query_of.
  unfold mbind at 1, M_bind at 1, lift at 1.
  destruct (file_metadata file) as [md|e]; [|done]. cbv zeta.
  unfold mbind at 1, M_bind at 1.
  pose proof (Plugin_parse_length_fst (md !! "~length") st) as H.
  destruct (Plugin.parse_length (md !! "~length") st) as [r st'].
  simpl in H. subst r. run.
  by destruct (negb _).
Qed.

Lemma length_duration_parsed (snapshot : gmap string string) (d : Z) :
  length_duration (snapshot !! "~length") = Some d ↔ parsed_duration snapshot d.
Proof.
  unfold length_duration, parsed_duration. split.
  - destruct (snapshot !! "~length") as [ls|]; [|done].
    destruct (str_truthy ls); [|done].
    intros (m & sec & Hshape & ->)%duration_of_shape. by exists ls, m, sec.
  - intros (ls & m & sec & -> & Hshape & ->).
    rewrite (two_integers_truthy _ _ _ Hshape).
    apply duration_of_shape. by exists m, sec.
Qed.

Lemma str_truthy_ne (s : string) : str_truthy s = true ↔ s ≠ "".
Proof. by destruct s. Qed.

Lemma query_of_complete (snapshot : gmap string string) (q : Query) :
  query_of snapshot = Some q ↔ complete snapshot q.
Proof.
  unfold query_of, complete. cbv zeta. split.
  - destruct (snapshot !! "title") as [t|] eqn:Et; simpl; [|done].
    destruct (str_truthy t) eqn:Ht; simpl; [|done].
    destruct (snapshot !! "artist") as [a|] eqn:Ea; simpl; [|done].
    destruct (str_truthy a) eqn:Ha; simpl; [|done].
    destruct (length_duration (snapshot !! "~length")) as [d|] eqn:Ed; simpl; [|done].
    destruct (int_truthy d) eqn:Hd; simpl; [|done].
    intros [= <-]. simpl.
    apply str_truthy_ne in Ht, Ha. apply length_duration_parsed in Ed.
    unfold int_truthy in Hd. apply negb_true_iff, Z.eqb_neq in Hd.
    repeat split; try done.
    destruct (snapshot !! "album") as [al|]; simpl; [|done]. by destruct al.
  - destruct q as [t a al d]. simpl.
    intros (-> & Ht & -> & Ha & -> & Hd & Hnz).
    apply length_duration_parsed in Hd. rewrite Hd. simpl.
    apply str_truthy_ne in Ht, Ha. rewrite Ht, Ha. simpl.
    unfold int_truthy. apply Z.eqb_neq in Hnz. rewrite Hnz. simpl.
    do 2 f_equal.
    destruct (snapshot !! "album") as [al|]; simpl; [|done]. by destruct al.
Qed.

(** ** Duration parsing *)

Lemma digits_no_colon (g : string) : digits g = true → no_colon g = true.
Proof.
  unfold digits, no_colon. intros [_ H]%andb_prop.
  induction g as [|c g IH]; simpl in *; [done |].
  apply andb_prop in H as [Hc Hg]. rewrite (IH Hg), andb_true_r.
  apply negb_true_iff, Ascii.eqb_neq. intros ->. done.
Qed.

Lemma digits_syntax (g : string) : digits g = true → int_syntax g (decimal_value 0 g).
Proof.
  intros Hg.
  pose proof (IntSyntax "" "" g [] NoSign eq_refl eq_refl Hg (List.Forall_nil _)) as H.
  simpl in H. rewrite !str_app_nil_r in H.
  by destruct (decimal_value 0 g).
Qed.

Lemma digits_literal (g : string) :
  digits g = true → str_len g <= int_max_str_digits →
  int_literal g (decimal_value 0 g).
Proof.
  intros Hg Hl. split; [by apply digits_syntax |].
  unfold digits in Hg. apply andb_prop in Hg as [_ Hg].
  by rewrite count_digits_digits.
Qed.

Lemma digits_two_integers (a b : string) :
  digits a = true → digits b = true →
  str_len a <= int_max_str_digits → str_len b <= int_max_str_digits →
  two_integers (a +:+ String ":" b) (decimal_value 0 a) (decimal_value 0 b).
Proof.
  intros Ha Hb La Lb. exists a, b.
  split; [done |]. split; [by apply digits_no_colon |].
  split; [by apply digits_no_colon |]. split; by apply digits_literal.
Qed.

Lemma parses_to_duration (o : option string) (st : State) (r : option Z) :
  parses_to o st r ↔ length_duration o = r.
Proof.
  unfold parses_to. rewrite Pkg_parse_length_fst, Plugin_parse_length_fst.
  split; [by intros [[= ->] _] | by intros ->].
Qed.

Lemma parses_to_two_integers (ls : string) (st : State) (d : Z) :
  parses_to (Some ls) st (Some d)
  ↔ ∃ m sec, two_integers ls m sec ∧ d = m * 60 + sec.
Proof.
  rewrite parses_to_duration, <- duration_of_shape. unfold length_duration.
  destruct (str_truthy ls) eqn:Et; [done |].
  destruct ls; [|done]. by split.
Qed.

Lemma parses_to_total (o : option string) (st : State) :
  ∃ r, parses_to o st r.
Proof. exists (length_duration o). by apply parses_to_duration. Qed.

Lemma parses_to_none (ls : string) (st : State) :
  (¬ ∃ m sec, two_integers ls m sec) → parses_to (Some ls) st None.
Proof.
  intros Hno. destruct (parses_to_total (Some ls) st) as [[d|] H]; [|done].
  apply parses_to_two_integers in H as (m & sec & H & _).
  destruct Hno. eauto.
Qed.

Lemma count_char_app c (a b : string) :
  count_char c (a +:+ b) = (count_char c a + count_char c b)%nat.
Proof. induction a as [|x a IH]; simpl; [done | rewrite IH; lia]. Qed.

Lemma no_colon_count (a : string) : no_colon a = true → count_char ":" a = 0%nat.
Proof.
  unfold no_colon. induction a as [|x a IH]; simpl; [done |].
  intros [Hx Ha]%andb_prop. apply negb_true_iff in Hx. by rewrite Hx, IH.
Qed.

Lemma two_integers_one_colon (ls : string) m sec :
  two_integers ls m sec → count_char ":" ls = 1%nat.
Proof.
  intros (a & b & -> & Ha & Hb & _). rewrite count_char_app. simpl.
  by rewrite (no_colon_count a), (no_colon_count b).
Qed.

Lemma colon_split_unique (a b a' b' : string) :
  a +:+ String ":" b = a' +:+ String ":" b' →
  no_colon a' = true → no_colon b' = true → a = a' ∧ b = b'.
Proof.
  revert a'. induction a as [|x a IH]; intros [|x' a']; simpl.
  - by intros [= ->].
  - intros [= <- _]. unfold no_colon. simpl. done.
  - intros [= -> <-] _. unfold no_colon. rewrite str_forall_app. simpl.
    by rewrite andb_false_r.
  - intros [= <- H]. unfold no_colon. simpl.
    intros [_ Ha']%andb_prop Hb'.
    by destruct (IH a' H Ha' Hb') as [-> ->].
Qed.

Lemma two_integers_parts (a b : string) m sec :
  two_integers (a +:+ String ":" b) m sec → int_literal a m ∧ int_literal b sec.
Proof.
  intros (a' & b' & E & Ha & Hb & Hm & Hs).
  by destruct (colon_split_unique _ _ _ _ E Ha Hb) as [-> ->].
Qed.

Lemma count_digits_app (a b : string) :
  count_digits (a +:+ b) = count_digits a + count_digits b.
Proof.
  induction a as [|x a IH]; simpl; [done |].
  destruct (digit_value x); rewrite IH; lia.
Qed.

Lemma count_digits_nonneg (a : string) : 0 <= count_digits a.
Proof.
  induction a as [|x a IH]; simpl; [done |]. destruct (digit_value x); lia.
Qed.

Lemma int_syntax_has_digit (s : string) (z : Z) :
  int_syntax s z → 0 < count_digits s.
Proof.
  intros [w1 w2 g gs sg _ _ Hg _]. rewrite !count_digits_app.
  unfold digits in Hg. destruct g as [|c g]; [done |].
  apply andb_prop in Hg as [_ [Hc _]%andb_prop]. unfold is_digit in Hc.
  pose proof (count_digits_nonneg w1). pose proof (count_digits_nonneg (sign_text sg)).
  pose proof (count_digits_nonneg g). pose proof (count_digits_nonneg (more_groups gs)).
  pose proof (count_digits_nonneg w2).
  simpl. destruct (digit_value c); [lia | done].
Qed.

Lemma str_forall_weaken (P Q : ascii → bool) (s : string) :
  (∀ c, P c = true → Q c = true) →
  str_forall P s = true → str_forall Q s = true.
Proof.
  intros HPQ. induction s as [|c s IH]; [done |]. simpl.
  intros [Hc Hs]%andb_prop. by rewrite (HPQ c Hc), IH.
Qed.

Lemma more_groups_chars (gs : list string) :
  Forall (λ g', digits g' = true) gs →
  str_forall int_char (more_groups gs) = true.
Proof.
  induction 1 as [|g gs Hg _ IH]; [done |].
  simpl. rewrite str_forall_app, IH, andb_true_r.
  unfold digits in Hg. apply andb_prop in Hg as [_ Hg].
  apply (str_forall_weaken is_digit); [|done].
  intros c Hc. unfold int_char. rewrite Hc. by rewrite orb_true_r.
Qed.

Lemma int_syntax_chars (s : string) (z : Z) :
  int_syntax s z → str_forall int_char s = true.
Proof.
  intros [w1 w2 g gs sg Hw1 Hw2 Hg Hgs]. rewrite !str_forall_app.
  rewrite (str_forall_weaken int_space int_char w1),
    (str_forall_weaken int_space int_char w2), more_groups_chars; try done;
    try (intros c Hc; unfold int_char; by rewrite Hc).
  unfold digits in Hg. apply andb_prop in Hg as [_ Hg].
  rewrite (str_forall_weaken is_digit int_char g); try done.
  - by destruct sg.
  - intros c Hc. unfold int_char. rewrite Hc. by rewrite orb_true_r.
Qed.

(** C2, as the code has it.  Two runs of decimal digits around one colon
    parse to minutes * 60 + seconds in both copies, unless a run has more
    digits than [int] takes, which leaves the duration unknown.  The
    parser reads exactly the texts made of two integers in text around one
    colon, which is more than the shape "mm:ss".  A text with no colon or
    with several, with a part that has no digit, or with a character that
    is not white space, a digit, an underscore or a sign, and no text at
    all, leave the duration unknown; and no query builder ever raises
    because of the length. *)
Theorem parse_length_mmss (ls : string) (st : State) :
  (∀ a b, ls = a +:+ String ":" b → digits a = true → digits b = true →
     (str_len a <= int_max_str_digits → str_len b <= int_max_str_digits →
        plain_mmss ls (decimal_value 0 a) (decimal_value 0 b)
        ∧ parses_to (Some ls) st
            (Some (decimal_value 0 a * 60 + decimal_value 0 b)))
     ∧ (int_max_str_digits < str_len a ∨ int_max_str_digits < str_len b →
        parses_to (Some ls) st None))
  ∧ (∀ d, parses_to (Some ls) st (Some d)
          ↔ ∃ m sec, two_integers ls m sec ∧ d = m * 60 + sec)
  ∧ ((¬ ∃ m sec, two_integers ls m sec) → parses_to (Some ls) st None)
  ∧ (count_char ":" ls ≠ 1%nat → parses_to (Some ls) st None)
  ∧ (∀ a b, ls = a +:+ String ":" b →
       count_digits a = 0 ∨ count_digits b = 0
       ∨ str_forall int_char a = false ∨ str_forall int_char b = false →
       parses_to (Some ls) st None)
  ∧ parses_to None st None
  ∧ (∃ r, parses_to (Some ls) st r)
  ∧ (∀ snapshot : gmap string string,
       snapshot !! "~length" = Some ls →
       returns (fst (Pkg._build_query_from_snapshot snapshot st)) = true)
  ∧ (∀ file (snapshot : gmap string string),
       file_metadata file = Ret snapshot →
       snapshot !! "~length" = Some ls →
       returns (fst (Plugin._build_query_from_file file st)) = true).
Proof.
  split; [|split; [|split; [|split; [|split; [|split; [|split; [|split]]]]]]].
  - intros a b -> Ha Hb. split.
    + intros La Lb. split; [by exists a, b |].
      apply parses_to_two_integers. eexists _, _. split; [|done].
      by apply digits_two_integers.
    + intros Hlong. apply parses_to_none. intros (m & sec & H).
      apply two_integers_parts in H as [[_ La] [_ Lb]].
      unfold digits in Ha, Hb.
      apply andb_prop in Ha as [_ Ha]. apply andb_prop in Hb as [_ Hb].
      rewrite count_digits_digits in La, Lb by done. lia.
  - intros d. apply parses_to_two_integers.
  - apply parses_to_none.
  - intros Hc. apply parses_to_none. intros (m & sec & H).
    by apply two_integers_one_colon in H.
  - intros a b -> Hbad. apply parses_to_none. intros (m & sec & H).
    apply two_integers_parts in H as [[Sa _] [Sb _]].
    pose proof (int_syntax_has_digit _ _ Sa).
    pose proof (int_syntax_has_digit _ _ Sb).
    pose proof (int_syntax_chars _ _ Sa).
    pose proof (int_syntax_chars _ _ Sb).
    destruct Hbad as [?|[?|[?|?]]]; (lia || congruence).
  - by apply parses_to_duration.
  - apply parses_to_total.
  - intros snapshot _. by rewrite Pkg_build_fst.
  - intros file snapshot Hmd _. by rewrite Plugin_build_fst, Hmd.
Qed.

Lemma parse_length_mmss_witness :
  parses_to (Some "3:45") st0 (Some 225)
  ∧ parses_to (Some "abc") st0 None
  ∧ parses_to (Some "1:2:3") st0 None
  ∧ parses_to (Some "") st0 None
  ∧ parses_to (Some "3:") st0 None
  ∧ parses_to (Some "3:4s") st0 None
  ∧ returns (fst (Plugin._build_query_from_file (song_file "a:b") st0)) = true.
Proof.
  destruct (parse_length_mmss "3:45" st0) as (H & _).
  destruct (H "3" "45" eq_refl eq_refl eq_refl) as [H1 _].
  destruct H1 as [_ H1]; [by vm_compute | by vm_compute |].
  destruct (parse_length_mmss "abc" st0) as (_ & _ & _ & H2 & _).
  destruct (parse_length_mmss "1:2:3" st0) as (_ & _ & _ & H3 & _).
  destruct (parse_length_mmss "" st0) as (_ & _ & _ & H4 & _).
  destruct (parse_length_mmss "3:" st0) as (_ & _ & _ & _ & H5 & _).
  destruct (parse_length_mmss "3:4s" st0) as (_ & _ & _ & _ & H6 & _).
  destruct (parse_length_mmss "a:b" st0) as (_ & _ & _ & _ & _ & _ & _ & _ & H7).
  split; [exact H1 |].
  split; [apply H2; by vm_compute |].
  split; [apply H3; by vm_compute |].
  split; [apply H4; by vm_compute |].
  split; [apply (H5 "3" ""); [reflexivity | right; left; reflexivity] |].
  split; [apply (H6 "3" "4s"); [reflexivity | right; right; right; reflexivity] |].
  by apply (H7 (song_file "a:b") (snapshot_of "X" "Y" "Z" "a:b")).
Defined.

(** C2 as stated fails in both halves.  A text outside the shape "mm:ss"
    is read whenever [int] reads its two parts: a sign, white space around
    a part, an underscore between digits.  And a text of the shape is not
    read when a run of digits is longer than [int] takes. *)
Lemma texts_outside_the_shape_are_read :
  (¬ ∃ m sec, plain_mmss "3:-45" m sec)
  ∧ parses_to (Some "3:-45") st0 (Some 135)
  ∧ (¬ ∃ m sec, plain_mmss " +3 : 4_5 " m sec)
  ∧ parses_to (Some " +3 : 4_5 ") st0 (Some 225)
  ∧ (∃ m sec, plain_mmss (str_repeat 4301 "1" +:+ ":00") m sec)
  ∧ parses_to (Some (str_repeat 4301 "1" +:+ ":00")) st0 None.
Proof.
  assert (∀ a' b', no_colon a' = true → no_colon b' = true →
            digits b' = false →
            ¬ ∃ m sec, plain_mmss (a' +:+ String ":" b') m sec) as Hno.
  { intros a' b' Ha' Hb' Hd (m & sec & a & b & E & _ & Hb & _).
    destruct (colon_split_unique _ _ _ _ (eq_sym E) Ha' Hb') as [_ ->].
    congruence. }
  split; [apply (Hno "3" "-45"); reflexivity |].
  split; [by vm_compute |].
  split; [apply (Hno " +3 " " 4_5 "); reflexivity |].
  split; [by vm_compute |].
  split.
  - exists (decimal_value 0 (str_repeat 4301 "1")), (decimal_value 0 "00").
    exists (str_repeat 4301 "1"), "00".
    split; [reflexivity |]. split; [by vm_compute |]. by split.
  - split; by vm_compute.
Qed.

(** ** The query and the early stop *)

Lemma Pkg_worker_skip env audio_path snapshot st :
  query_of snapshot = None →
  quiet st (snd (Pkg._worker_for_file env audio_path snapshot st)).
Proof.
  intros Hq. unfold Pkg._worker_for_file, try_except.
  unfold mbind at 1, M_bind at 1.
  destruct (log Info "LRCLIB SIMPLE: Worker started for %s" st) as [r1 st1] eqn:E1.
  assert (quiet st st1 ∧ r1 = Ret tt) as [Q1 ->].
  { pose proof (frame_log (R := quiet) Info "LRCLIB SIMPLE: Worker started for %s" st) as H.
    rewrite E1 in H. split; [done |]. unfold log in E1. by inversion E1. }
  unfold mbind at 1, M_bind at 1.
  pose proof (Pkg_build_fst snapshot st1) as Hf.
  pose proof (Pkg_build_quiet snapshot st1) as Hk.
  destruct (Pkg._build_query_from_snapshot snapshot st1) as [r2 st2].
  simpl in Hf, Hk. subst r2. rewrite Hq. simpl.
  by eapply frame_trans.
Qed.

Lemma Plugin_hook_skip env file snapshot st :
  file_metadata file = Ret snapshot →
  query_of snapshot = None →
  quiet st (snd (Plugin.lrclib_simple_file_post_save env file st)).
Proof.
  intros Hmd Hq. unfold Plugin.lrclib_simple_file_post_save, try_except.
  unfold mbind at 1, M_bind at 1, lift at 1.
  destruct (file_filename file) as [shown|e].
  2:{ apply (frame_log (R := quiet)). }
  unfold mbind at 1, M_bind at 1.
  destruct (log Info "LRCLIB SIMPLE: Post-save → %s" st) as [r1 st1] eqn:E1.
  assert (quiet st st1 ∧ r1 = Ret tt) as [Q1 ->].
  { pose proof (frame_log (R := quiet) Info "LRCLIB SIMPLE: Post-save → %s" st) as H.
    rewrite E1 in H. split; [done |]. unfold log in E1. by inversion E1. }
  unfold mbind at 1, M_bind at 1.
  pose proof (Plugin_build_fst file st1) as Hf.
  pose proof (Plugin_build_quiet file st1) as Hk.
  destruct (Plugin._build_query_from_file file st1) as [r2 st2].
  simpl in Hf, Hk. subst r2. rewrite Hmd, Hq. simpl.
  by eapply frame_trans.
Qed.

Lemma query_of_none (snapshot : gmap string string) :
  (¬ ∃ q, complete snapshot q) → query_of snapshot = None.
Proof.
  intros Hno. destruct (query_of snapshot) as [q|] eqn:E; [|done].
  destruct Hno. exists q. by apply query_of_complete.
Qed.

Lemma parsed_duration_unique (snapshot : gmap string string) (d d' : Z) :
  parsed_duration snapshot d → parsed_duration snapshot d' → d = d'.
Proof. intros H H'. apply length_duration_parsed in H, H'. congruence. Qed.

(** C1, as the code has it.  Both builders return the query
    {track_name: title, artist_name: artist, album_name: album or "",
    duration: parsed duration} exactly when title and artist are non-empty
    and the length parses to a duration other than zero; otherwise they
    return None, and then the pipeline stops with nothing but log entries:
    no request, no file, no thread.  In particular a length that parses to
    zero seconds gives None. *)
Theorem build_query_when_complete (snapshot : gmap string string)
    (file : File) (st : State) :
  file_metadata file = Ret snapshot →
  (∀ q, complete snapshot q →
     fst (Pkg._build_query_from_snapshot snapshot st) = Ret (Some q)
     ∧ fst (Plugin._build_query_from_file file st) = Ret (Some q))
  ∧ ((¬ ∃ q, complete snapshot q) →
     fst (Pkg._build_query_from_snapshot snapshot st) = Ret None
     ∧ fst (Plugin._build_query_from_file file st) = Ret None
     ∧ ∀ env audio_path,
         quiet st (snd (Pkg._worker_for_file env audio_path snapshot st))
         ∧ quiet st (snd (Plugin.lrclib_simple_file_post_save env file st)))
  ∧ (parsed_duration snapshot 0 → ¬ ∃ q, complete snapshot q).
Proof.
  intros Hmd. rewrite Pkg_build_fst, Plugin_build_fst, Hmd.
  split; [|split].
  - intros q Hq%query_of_complete. by rewrite Hq.
  - intros Hq%query_of_none. rewrite Hq.
    split; [done |]. split; [done |]. intros env audio_path. split.
    + by apply Pkg_worker_skip.
    + by eapply Plugin_hook_skip.
  - intros H0 (q & _ & _ & _ & _ & _ & Hd & Hnz).
    apply Hnz. by eapply parsed_duration_unique.
Qed.

Lemma shape_3_45 : two_integers "3:45" 3 45.
Proof.
  exists "3", "45". split; [done |]. split; [done |]. split; [done |]. split.
  - split; [exact (IntSyntax "" "" "3" [] NoSign eq_refl eq_refl eq_refl (List.Forall_nil _)) | by vm_compute].
  - split; [exact (IntSyntax "" "" "45" [] NoSign eq_refl eq_refl eq_refl (List.Forall_nil _)) | by vm_compute].
Qed.

Lemma build_query_when_complete_witness :
  fst (Pkg._build_query_from_snapshot (snapshot_of "X" "Y" "Z" "3:45") st0)
    = Ret (Some query_X)
  ∧ fst (Plugin._build_query_from_file (song_file "3:45") st0)
    = Ret (Some query_X)
  ∧ fst (Pkg._build_query_from_snapshot (snapshot_of "" "Y" "Z" "3:45") st0)
    = Ret None
  ∧ quiet st0 (snd (Pkg._worker_for_file world_ok "/music/a/Song.flac"
                      (snapshot_of "" "Y" "Z" "3:45") st0)).
Proof.
  destruct (build_query_when_complete (snapshot_of "X" "Y" "Z" "3:45")
              (song_file "3:45") st0 eq_refl) as (Hyes & _).
  destruct (build_query_when_complete (snapshot_of "" "Y" "Z" "3:45")
              {| file_filename := Ret "/music/a/Song.flac";
                 file_metadata := Ret (snapshot_of "" "Y" "Z" "3:45") |}
              st0 eq_refl) as (_ & Hno & _).
  assert (¬ ∃ q, complete (snapshot_of "" "Y" "Z" "3:45") q) as Hincomplete.
  { intros (q & Ht & Hne & _). apply Hne.
    assert (snapshot_of "" "Y" "Z" "3:45" !! "title" = Some "") as Hl
      by reflexivity.
    rewrite Hl in Ht. by injection Ht as <-. }
  destruct (Hno Hincomplete) as (Hnone & _ & Hquiet).
  destruct (Hquiet world_ok "/music/a/Song.flac") as [Hworker _].
  split; [|split; [|split; [exact Hnone | exact Hworker]]];
    apply (Hyes query_X);
    (split; [reflexivity |]; split; [done |]; split; [reflexivity |];
     split; [done |]; split; [reflexivity |]; split; [|done];
     exists "3:45", 3, 45; split; [reflexivity |];
     split; [apply shape_3_45 | reflexivity]).
Defined.

(** C1 as stated fails: a length that parses to a negative number of
    seconds is not rejected; the query goes out with that duration. *)
Lemma negative_duration_is_queried :
  parsed_duration (snapshot_of "X" "Y" "Z" "-1:00") (-60)
  ∧ fst (Pkg._build_query_from_snapshot (snapshot_of "X" "Y" "Z" "-1:00") st0)
    = Ret (Some {| track_name := "X"; artist_name := "Y";
                   album_name := "Z"; duration := -60 |})
  ∧ fst (Plugin._build_query_from_file (song_file "-1:00") st0)
    = Ret (Some {| track_name := "X"; artist_name := "Y";
                   album_name := "Z"; duration := -60 |})
  ∧ HttpGet "https://lrclib.net/api/get?track_name=X&artist_name=Y&album_name=Z&duration=-60"
      USER_AGENT 15
    ∈ st_trace (snd (Pkg._worker_for_file
                       (world (Ret tt) 0 (Ret (response (VInt 1) (VStr "la") VNone)) true)
                       "/music/a/Song.flac"
                       (snapshot_of "X" "Y" "Z" "-1:00") st0)).
Proof.
  split; [|split; [reflexivity | split; [reflexivity |]]].
  - exists "-1:00", (-1), 0. split; [reflexivity |]. split; [|reflexivity].
    exists "-1", "00". split; [done |]. split; [done |]. split; [done |]. split.
    + split; [exact (IntSyntax "" "" "1" [] Minus eq_refl eq_refl eq_refl (List.Forall_nil _)) | by vm_compute].
    + split; [exact (IntSyntax "" "" "00" [] NoSign eq_refl eq_refl eq_refl (List.Forall_nil _)) | by vm_compute].
  - vm_compute. apply list_elem_of_In. simpl. tauto.
Qed.

(** ** The lyrics client *)

Lemma keeps_emit_fs paths ev : keeps (fs_frame paths) (emit ev).
Proof. by intros st p _. Qed.

Lemma Pkg_pick_fst obj st : fst (Pkg.pick_lyrics obj st) = lyrics_of obj.
Proof.
  unfold Pkg.pick_lyrics, lyrics_of, lyrics_of_dict.
  destruct obj as [| | | | |[|x rest]|d]; try done.
  - destruct x; try done.
    destruct (negb _); [done |].
    destruct (truthy (dict_get d "syncedLyrics")).
    { run. by destruct (py_len _). }
    destruct (truthy (dict_get d "plainLyrics")); [|done].
    run. by destruct (py_len _).
  - destruct (negb _); [done |].
    destruct (truthy (dict_get d "syncedLyrics")).
    { run. by destruct (py_len _). }
    destruct (truthy (dict_get d "plainLyrics")); [|done].
    run. by destruct (py_len _).
Qed.

Lemma pick_lyrics_same : Pkg.pick_lyrics = Plugin.pick_lyrics.
Proof. reflexivity. Qed.

Lemma Pkg_fetch_fst env q st :
  fst (Pkg._fetch_lyrics_from_lrclib env q st) = fetch_value env q 15.
Proof.
  unfold Pkg._fetch_lyrics_from_lrclib, fetch_value, service_answer.
  unfold mbind at 1, M_bind at 1, lift at 1.
  destruct (urlencode env q) as [qs|e]; [|done].
  unfold mbind at 1, M_bind at 1, log at 1.
  unfold mbind at 1, M_bind at 1, lift at 1.
  destruct (create_unverified_context env) as [u|e]; [|done].
  change (Pkg.LRCLIB_URL +:+ qs) with (request_url qs).
  unfold mbind at 1, M_bind at 1, try_except at 1.
  unfold mbind at 1, M_bind at 1, emit at 1.
  unfold mbind at 1, M_bind at 1, lift at 1.
  destruct (urlopen env (request_url qs) USER_AGENT 15) as [resp|e]; [|done].
  unfold mbind at 1, M_bind at 1, log at 1.
  unfold mbind at 1, M_bind at 1, lift at 1.
  destruct (resp_read resp) as [data|e]; [|done].
  unfold mret at 1, M_ret at 1.
  unfold mbind at 1, M_bind at 1, try_except at 1.
  unfold mbind at 1, M_bind at 1, lift at 1.
  destruct (json_loads env (decode_utf8_replace env data)) as [obj|e]; [|done].
  unfold mret at 1, M_ret at 1.
  apply Pkg_pick_fst.
Qed.

Lemma Plugin_fetch_fst env q st :
  fst (Plugin._fetch_lyrics_from_lrclib env q st) = fetch_value env q 10.
Proof.
  unfold Plugin._fetch_lyrics_from_lrclib, fetch_value, service_answer.
  unfold mbind at 1, M_bind at 1, lift at 1.
  destruct (urlencode env q) as [qs|e]; [|done].
  unfold mbind at 1, M_bind at 1, log at 1.
  unfold mbind at 1, M_bind at 1, lift at 1.
  destruct (create_unverified_context env) as [u|e]; [|done].
  change (Plugin.LRCLIB_URL +:+ "?" +:+ qs) with (request_url qs).
  unfold mbind at 1, M_bind at 1, try_except at 1.
  unfold mbind at 1, M_bind at 1, emit at 1.
  unfold mbind at 1, M_bind at 1, lift at 1.
  destruct (urlopen env (request_url qs) USER_AGENT 10) as [resp|e]; [|done].
  unfold mbind at 1, M_bind at 1, log at 1.
  unfold mbind at 1, M_bind at 1, lift at 1.
  destruct (resp_read resp) as [data|e]; [|done].
  unfold mret at 1, M_ret at 1.
  unfold mbind at 1, M_bind at 1, try_except at 1.
  unfold mbind at 1, M_bind at 1, lift at 1.
  destruct (json_loads env (decode_utf8_replace env data)) as [obj|e]; [|done].
  unfold mret at 1, M_ret at 1.
  rewrite <- pick_lyrics_same. apply Pkg_pick_fst.
Qed.

Lemma fetch_value_answered env q timeout a :
  answered env q timeout a → fetch_value env q timeout = fetch_result a.
Proof.
  intros (qs & Hq & Hc & Ha). unfold fetch_value. by rewrite Hq, Hc, Ha.
Qed.

Lemma no_text_falsy d k : no_text d k → truthy (dict_get d k) = false.
Proof. unfold dict_get. by intros [-> | (v & -> & Hv)]. Qed.

Lemma lyrics_of_dict_chosen d r :
  truthy (dict_get d "id") = true → chosen d r → lyrics_of_dict d = Ret r.
Proof.
  intros Hid Hr. unfold lyrics_of_dict. rewrite Hid. simpl.
  destruct Hr as [s Hs Hne | p Hno Hp Hne | Hno1 Hno2].
  - unfold dict_get. rewrite Hs. simpl. by destruct s.
  - rewrite (no_text_falsy _ _ Hno). unfold dict_get. rewrite Hp. simpl.
    by destruct p.
  - by rewrite (no_text_falsy _ _ Hno1), (no_text_falsy _ _ Hno2).
Qed.

Lemma lyrics_of_the_object obj :
  lyrics_of obj = match the_object obj with
                  | Some d => lyrics_of_dict d
                  | None => Ret NotFound
                  end.
Proof. destruct obj as [| | | | |[|[] ?]|]; done. Qed.

Lemma lyrics_of_rejected obj : rejected obj → lyrics_of obj = Ret NotFound.
Proof.
  intros [|v H1 H2|v rest H1|d Hid|d rest Hid]; simpl; try done.
  - destruct v; simpl in *; tauto.
  - destruct v; simpl in *; tauto.
  - unfold lyrics_of_dict. by rewrite Hid.
  - unfold lyrics_of_dict. by rewrite Hid.
Qed.

Lemma py_len_sized v n : py_len v = Ret n → sized v.
Proof. by destruct v. Qed.

Lemma lyrics_of_dict_paired d l f :
  lyrics_of_dict d = Ret (l, f) →
  (l, f) = NotFound ∨ (truthy l = true ∧ sized l ∧ ∃ b, f = VBool b).
Proof.
  unfold lyrics_of_dict. destruct (negb _); [intros [= <- <-]; by left |].
  destruct (truthy (dict_get d "syncedLyrics")) eqn:Hs.
  { destruct (py_len _) eqn:Hl; [|done]. intros [= <- <-]. right.
    split; [done |]. split; [by eapply py_len_sized | by eexists]. }
  destruct (truthy (dict_get d "plainLyrics")) eqn:Hp.
  { destruct (py_len _) eqn:Hl; [|done]. intros [= <- <-]. right.
    split; [done |]. split; [by eapply py_len_sized | by eexists]. }
  intros [= <- <-]. by left.
Qed.

Lemma lyrics_of_paired obj l f :
  lyrics_of obj = Ret (l, f) →
  (l, f) = NotFound ∨ (truthy l = true ∧ sized l ∧ ∃ b, f = VBool b).
Proof.
  rewrite lyrics_of_the_object. destruct (the_object obj).
  - apply lyrics_of_dict_paired.
  - intros [= <- <-]. by left.
Qed.

Lemma text_or_null_get d k v :
  text_or_null d k → dict_get d k = v → truthy v = true →
  ∃ s, v = VStr s ∧ s ≠ "".
Proof.
  unfold dict_get. intros [-> | [-> | [s ->]]] <-; simpl; try done.
  intros Hs. exists s. split; [done |]. by destruct s.
Qed.

Lemma lyrics_of_dict_text d l f :
  text_or_null d "syncedLyrics" → text_or_null d "plainLyrics" →
  lyrics_of_dict d = Ret (l, f) →
  (l, f) = NotFound ∨ ∃ s b, s ≠ "" ∧ (l, f) = Found s b.
Proof.
  intros Hs Hp. unfold lyrics_of_dict.
  destruct (negb _); [intros [= <- <-]; by left |].
  destruct (truthy (dict_get d "syncedLyrics")) eqn:Ht.
  { destruct (text_or_null_get _ _ _ Hs eq_refl Ht) as (s & -> & Hne).
    simpl. intros [= <- <-]. right. by exists s, true. }
  destruct (truthy (dict_get d "plainLyrics")) eqn:Ht'.
  { destruct (text_or_null_get _ _ _ Hp eq_refl Ht') as (s & -> & Hne).
    simpl. intros [= <- <-]. right. by exists s, false. }
  intros [= <- <-]. by left.
Qed.

Lemma choice_lyrics d r :
  truthy (dict_get d "id") = true → choice d r → lyrics_of_dict d = r.
Proof.
  intros Hid Hr. unfold lyrics_of_dict. rewrite Hid. simpl.
  destruct Hr as [v Hv Ht Hs | v Hv Ht Hs | v Hno Hv Ht Hs | v Hno Hv Ht Hs
                 | Hno1 Hno2].
  - unfold dict_get. rewrite Hv. simpl. rewrite Ht. by destruct v.
  - unfold dict_get. rewrite Hv. simpl. rewrite Ht. by destruct v.
  - rewrite (no_text_falsy _ _ Hno). unfold dict_get. rewrite Hv. simpl.
    rewrite Ht. by destruct v.
  - rewrite (no_text_falsy _ _ Hno). unfold dict_get. rewrite Hv. simpl.
    rewrite Ht. by destruct v.
  - by rewrite (no_text_falsy _ _ Hno1), (no_text_falsy _ _ Hno2).
Qed.




Lemma client_gives_result env q st a r :
  fetch_result a = r → client_gives env q st a r.
Proof.
  intros <-. split; intros Ha.
  - by rewrite Pkg_fetch_fst, (fetch_value_answered _ _ _ _ Ha).
  - by rewrite Plugin_fetch_fst, (fetch_value_answered _ _ _ _ Ha).
Qed.

Lemma client_gives_choice env q st obj d r :
  the_object obj = Some d → truthy (dict_get d "id") = true → choice d r →
  client_gives env q st (Answer obj) r.
Proof.
  intros Hobj Hid Hr. apply client_gives_result. simpl.
  rewrite lyrics_of_the_object, Hobj. by apply choice_lyrics.
Qed.

Lemma world_answered ctx_delay obj disk q timeout :
  ctx_delay ≤ timeout →
  answered (world (Ret tt) ctx_delay (Ret obj) disk) q timeout (Answer obj).
Proof.
  intros H. exists (py_urlencode q).
  split; [done |]. split; [done |].
  unfold service_answer, world, host. simpl.
  apply Z.leb_le in H. by rewrite H.
Qed.




Lemma accepted_or_rejected (obj : pyval) :
  (∃ d, the_object obj = Some d ∧ truthy (dict_get d "id") = true)
  ∨ rejected obj.
Proof.
  destruct obj as [| | | | |[|x rest]|d].
  1-5: right; apply rejected_not_object; simpl; tauto.
  - right. apply rejected_empty_array.
  - destruct x as [| | | | | |d];
      try (right; apply rejected_first_not_object; simpl; tauto).
    destruct (truthy (dict_get d "id")) eqn:Hid.
    + left. by exists d.
    + right. by apply rejected_first_no_id.
  - destruct (truthy (dict_get d "id")) eqn:Hid.
    + left. by exists d.
    + right. by apply rejected_no_id.
Qed.

(** C4.  The client of either copy takes a single object, and takes an
    array for its first element, whatever follows: for a dictionary with a
    truthy id it gives what the two lyrics fields decide, the same for the
    dictionary alone and for any array that begins with it.  An empty
    array, a value that is not an object (alone or first in an array) and
    an object without a truthy id all give (None, None); and every decoded
    value is of one kind or the other. *)
Theorem response_shapes (env : Env) (q : Query) (st : State) :
  (∀ d rest r,
     truthy (dict_get d "id") = true → choice d r →
     client_gives env q st (Answer (VDict d)) r
     ∧ client_gives env q st (Answer (VList (VDict d :: rest))) r)
  ∧ (∀ d rest s,
       truthy (dict_get d "id") = true →
       d !! "syncedLyrics" = Some (VStr s) → s ≠ "" →
       client_gives env q st (Answer (VDict d)) (Ret (Found s true))
       ∧ client_gives env q st (Answer (VList (VDict d :: rest)))
           (Ret (Found s true)))
  ∧ (∀ obj, rejected obj → client_gives env q st (Answer obj) (Ret NotFound))
  ∧ (∀ obj,
       (∃ d, (obj = VDict d ∨ ∃ rest, obj = VList (VDict d :: rest))
             ∧ truthy (dict_get d "id") = true)
       ∨ rejected obj).
Proof.
  split; [|split; [|split]].
  - intros d rest r Hid Hr. split; by eapply client_gives_choice.
  - intros d rest s Hid Hs Hne.
    assert (choice d (Ret (Found s true))) as Hr
      by (apply choice_synced; [done | by destruct s | done]).
    split; by eapply client_gives_choice.
  - intros obj Hrej%lyrics_of_rejected. by apply client_gives_result.
  - intros obj. destruct (accepted_or_rejected obj) as [(d & Hd & Hid) | H];
      [left | by right].
    exists d. split; [|done].
    destruct obj as [| | | | |[|[] ?]|]; simpl in Hd; try done;
      injection Hd as ->; eauto.
Qed.

Lemma response_shapes_witness :
  fst (Pkg._fetch_lyrics_from_lrclib
         (world (Ret tt) 0 (Ret (VList [])) true) query_X st0) = Ret NotFound
  ∧ fst (Plugin._fetch_lyrics_from_lrclib
           (world (Ret tt) 0 (Ret (VDict (<["syncedLyrics" := VStr "la"]> ∅))) true)
           query_X st0) = Ret NotFound
  ∧ fst (Pkg._fetch_lyrics_from_lrclib
           (world (Ret tt) 0
              (Ret (VList [response (VInt 7) VNone (VStr "la"); VInt 3])) true)
           query_X st0)
    = Ret (Found "la" false)
  ∧ fst (Plugin._fetch_lyrics_from_lrclib
           (world (Ret tt) 0 (Ret (response (VInt 7) (VStr "la") VNone)) true)
           query_X st0)
    = Ret (Found "la" true).
Proof.
  assert (0 ≤ 15) as H15 by lia. assert (0 ≤ 10) as H10 by lia.
  split; [|split; [|split]].
  - destruct (response_shapes (world (Ret tt) 0 (Ret (VList [])) true)
                query_X st0) as (_ & _ & H & _).
    destruct (H (VList []) rejected_empty_array) as [H1 _].
    apply H1. by apply world_answered.
  - destruct (response_shapes
                (world (Ret tt) 0 (Ret (VDict (<["syncedLyrics" := VStr "la"]> ∅))) true)
                query_X st0) as (_ & _ & H & _).
    destruct (H (VDict (<["syncedLyrics" := VStr "la"]> ∅))) as [_ H2];
      [apply rejected_no_id; reflexivity |].
    apply H2. by apply world_answered.
  - destruct (response_shapes
                (world (Ret tt) 0
                   (Ret (VList [response (VInt 7) VNone (VStr "la"); VInt 3])) true)
                query_X st0) as (H & _).
    destruct (H (<["id" := VInt 7]> (<["syncedLyrics" := VNone]>
                   (<["plainLyrics" := VStr "la"]> ∅)))
                [VInt 3] (Ret (Found "la" false))) as [_ [H1 _]];
      [reflexivity | |].
    { apply choice_plain; [right; by exists VNone | reflexivity | done | done]. }
    apply H1. by apply world_answered.
  - destruct (response_shapes
                (world (Ret tt) 0 (Ret (response (VInt 7) (VStr "la") VNone)) true)
                query_X st0) as (_ & H & _).
    destruct (H (<["id" := VInt 7]> (<["syncedLyrics" := VStr "la"]>
                   (<["plainLyrics" := VNone]> ∅)))
                [] "la") as [[_ H2] _]; [reflexivity | reflexivity | done |].
    apply H2. by apply world_answered.
Defined.

(** ** Nothing escapes a catch-all *)

Lemma never_raises_ret {A} (a : A) : never_raises (mret a).
Proof. by intros st. Qed.

Lemma never_raises_log lvl fmt : never_raises (log lvl fmt).
Proof. by intros st. Qed.

Lemma never_raises_bind {A B} (m : M A) (f : A → M B) :
  never_raises m → (∀ a, never_raises (f a)) → never_raises (m ≫= f).
Proof.
  intros Hm Hf st. unfold mbind, M_bind. specialize (Hm st).
  destruct (m st) as [[a|e] st']; [apply Hf | done].
Qed.

Lemma never_raises_try {A} (body : M A) (handler : exn → M A) :
  (∀ e, never_raises (handler e)) → never_raises (try_except body handler).
Proof.
  intros Hh st. unfold try_except.
  destruct (body st) as [[a|e] st']; [done | apply Hh].
Qed.

Lemma returns_unit (r : res unit) : returns r = true → r = Ret tt.
Proof. by destruct r as [[]|]. Qed.

Lemma Pkg_worker_never_raises env audio_path snapshot :
  never_raises (Pkg._worker_for_file env audio_path snapshot).
Proof. apply never_raises_try. intros e. apply never_raises_log. Qed.

Lemma Pkg_writer_never_raises env audio_path lyrics is_synced :
  never_raises (Pkg._write_sidecar_for_path env audio_path lyrics is_synced).
Proof.
  apply never_raises_bind; [apply never_raises_log |]. intros _.
  apply never_raises_try. intros e. apply never_raises_log.
Qed.

Lemma Pkg_hook_never_raises env file :
  never_raises (Pkg.lrclib_simple_file_post_save env file).
Proof.
  apply never_raises_bind.
  { apply never_raises_try. intros e.
    apply never_raises_bind; [apply never_raises_log | intros; apply never_raises_ret]. }
  intros [audio_path|]; [|apply never_raises_ret].
  apply never_raises_bind.
  { apply never_raises_try. intros e.
    apply never_raises_bind; [apply never_raises_log | intros; apply never_raises_ret]. }
  intros [snapshot|]; [|apply never_raises_ret].
  apply never_raises_try. intros e. apply never_raises_log.
Qed.

Lemma Plugin_hook_never_raises env file :
  never_raises (Plugin.lrclib_simple_file_post_save env file).
Proof. apply never_raises_try. intros e. apply never_raises_log. Qed.

(** ** The client and the file system *)

Lemma fs_frame_nil st st' : fs_frame [] st st' → st_fs st' = st_fs st.
Proof. intros H. apply map_eq. intros p. apply H. by apply not_elem_of_nil. Qed.

Lemma Pkg_fetch_files env q : keeps (fs_frame []) (Pkg._fetch_lyrics_from_lrclib env q).
Proof.
  unfold Pkg._fetch_lyrics_from_lrclib, Pkg.pick_lyrics.
  repeat first [frame_step | apply keeps_emit_fs | typeclasses eauto].
Qed.

Lemma Plugin_fetch_files env q :
  keeps (fs_frame []) (Plugin._fetch_lyrics_from_lrclib env q).
Proof.
  unfold Plugin._fetch_lyrics_from_lrclib, Plugin.pick_lyrics.
  repeat first [frame_step | apply keeps_emit_fs | typeclasses eauto].
Qed.

(** ** The pair the client returns *)

Lemma fetch_value_paired env q timeout l f :
  fetch_value env q timeout = Ret (l, f) →
  (l, f) = NotFound ∨ (truthy l = true ∧ sized l ∧ ∃ b, f = VBool b).
Proof.
  unfold fetch_value.
  destruct (urlencode env q); [|done].
  destruct (create_unverified_context env); [|done].
  destruct (service_answer _ _ _); simpl.
  - intros [= <- <-]. by left.
  - apply lyrics_of_paired.
Qed.

Lemma path_join_suffix (a b : string) : ∃ base, path_join a b = base +:+ b.
Proof.
  unfold path_join. destruct (str_startswith sep b); [by exists "" |].
  destruct (negb (str_truthy a) || str_endswith sep a); [by exists a |].
  exists (a +:+ String sep ""). by rewrite str_app_assoc.
Qed.

Lemma sidecar_path_suffix (audio_path : string) (is_synced : pyval) :
  ∃ base, Pkg.sidecar_path audio_path is_synced
          = base +:+ (if truthy is_synced then ".lrc" else ".txt").
Proof.
  unfold Pkg.sidecar_path.
  destruct (path_split audio_path) as [directory fname].
  destruct (path_splitext fname) as [stem ext].
  destruct (path_join_suffix directory
              (stem +:+ (if truthy is_synced then ".lrc" else ".txt")))
    as [base ->].
  exists (base +:+ stem). by rewrite str_app_assoc.
Qed.

Lemma sidecar_path_same : Pkg.sidecar_path = Plugin.sidecar_path.
Proof. reflexivity. Qed.

(** C10, as the code has it.  What the client returns is (None, None) or a
    pair of a truthy value that has a length (a non-empty string, array or
    dictionary) and True or False; it is a non-empty string whenever the
    two lyrics fields of the answer are strings or null; and whatever the
    flag, the sidecar path ends in .lrc or .txt. *)
Theorem fetch_result_is_paired (env : Env) (q : Query) (st : State)
    (l f : pyval) :
  fst (Pkg._fetch_lyrics_from_lrclib env q st) = Ret (l, f) →
  ((l, f) = NotFound
   ∨ (truthy l = true ∧ sized l ∧ (f = VBool true ∨ f = VBool false)))
  ∧ (∀ obj d,
       answered env q 15 (Answer obj) →
       the_object obj = Some d →
       text_or_null d "syncedLyrics" → text_or_null d "plainLyrics" →
       (l, f) = NotFound ∨ ∃ s b, s ≠ "" ∧ (l, f) = Found s b)
  ∧ (∀ audio_path, ∃ base,
       Pkg.sidecar_path audio_path f = base +:+ ".lrc"
       ∨ Pkg.sidecar_path audio_path f = base +:+ ".txt").
Proof.
  rewrite Pkg_fetch_fst. intros Hv. split; [|split].
  - destruct (fetch_value_paired _ _ _ _ _ Hv) as [?|(? & ? & [[] ->])]; eauto 6.
  - intros obj d Ha Hobj Hs Hp.
    rewrite (fetch_value_answered _ _ _ _ Ha) in Hv. simpl in Hv.
    rewrite lyrics_of_the_object, Hobj in Hv.
    by eapply lyrics_of_dict_text.
  - intros audio_path.
    destruct (sidecar_path_suffix audio_path f) as [base ->].
    exists base. destruct (truthy f); eauto.
Qed.

Lemma fetch_result_is_paired_witness :
  (Found "la" false = NotFound
   ∨ (truthy (VStr "la") = true ∧ sized (VStr "la")
      ∧ (VBool false = VBool true ∨ VBool false = VBool false)))
  ∧ ∃ base, Pkg.sidecar_path "/music/a/Song.flac" (VBool false) = base +:+ ".lrc"
            ∨ Pkg.sidecar_path "/music/a/Song.flac" (VBool false) = base +:+ ".txt".
Proof.
  destruct (fetch_result_is_paired
              (world (Ret tt) 0 (Ret (response (VInt 1) VNone (VStr "la"))) true)
              query_X st0 (VStr "la") (VBool false) eq_refl) as (H1 & _ & H3).
  split; [exact H1 | exact (H3 "/music/a/Song.flac")].
Defined.

(** C10 as stated fails: when the synced field holds a non-empty array the
    client returns that array, not a string, and the worker hands it to the
    sidecar writer, which leaves an empty file behind. *)
Lemma fetch_returns_a_list :
  fst (Pkg._fetch_lyrics_from_lrclib
         (world (Ret tt) 0 (Ret (response (VInt 1) (VList [VStr "la"]) VNone)) true)
         query_X st0)
    = Ret (VList [VStr "la"], VBool true)
  ∧ ¬ ((VList [VStr "la"], VBool true) = NotFound
       ∨ ∃ s b, s ≠ "" ∧ (VList [VStr "la"], VBool true) = Found s b)
  ∧ st_fs (snd (Pkg._worker_for_file
                  (world (Ret tt) 0 (Ret (response (VInt 1) (VList [VStr "la"]) VNone)) true)
                  "/music/a/Song.flac" (snapshot_of "X" "Y" "Z" "3:45") st0))
    !! "/music/a/Song.lrc" = Some "".
Proof.
  split; [reflexivity |]. split; [|reflexivity].
  intros [H | (s & b & _ & H)]; discriminate H.
Qed.

(** ** [os.path] on a path of the usual shape *)

Lemma str_rfind_none c (s : string) :
  str_forall (λ a, negb (Ascii.eqb a c)) s = true → str_rfind c s = -1.
Proof.
  induction s as [|a s IH]; simpl; [done |].
  intros [Ha Hs]%andb_prop. rewrite (IH Hs). simpl.
  apply negb_true_iff in Ha. by rewrite Ha.
Qed.

Lemma str_rfind_last c (s t : string) :
  str_forall (λ a, negb (Ascii.eqb a c)) t = true →
  str_rfind c (s +:+ String c t) = Z.of_nat (String.length s).
Proof.
  intros Ht. induction s as [|a s IH].
  - simpl. rewrite (str_rfind_none _ _ Ht). simpl. by rewrite Ascii.eqb_refl.
  - change (String a s +:+ String c t) with (String a (s +:+ String c t)).
    cbn [str_rfind]. rewrite IH.
    destruct (0 <=? Z.of_nat (String.length s)) eqn:E.
    + cbn [String.length]. lia.
    + apply Z.leb_gt in E. lia.
Qed.

Lemma str_take_app (s t : string) : str_take (String.length s) (s +:+ t) = s.
Proof. induction s as [|a s IH]; simpl; [by destruct t | by rewrite IH]. Qed.

Lemma str_drop_app (s t : string) : str_drop (String.length s) (s +:+ t) = t.
Proof. induction s as [|a s IH]; simpl; [by destruct t | done]. Qed.

Lemma str_all_app c (a b : string) :
  str_all c (a +:+ b) = str_all c a && str_all c b.
Proof.
  induction a as [|x a IH]; simpl; [done |]. rewrite IH. by rewrite andb_assoc.
Qed.

Lemma str_all_endswith c (s : string) :
  str_truthy s = true → str_endswith c s = false → str_all c s = false.
Proof.
  induction s as [|a s IH]; [done |]. intros _.
  destruct s as [|b s].
  - simpl. intros ->. done.
  - intros H.
    change (Ascii.eqb a c && str_all c (String b s) = false).
    rewrite IH; [by rewrite andb_false_r | done | done].
Qed.

Lemma str_rstrip_app_sep c (s : string) :
  str_rstrip c (s +:+ String c "") = str_rstrip c s.
Proof.
  induction s as [|a s IH]; simpl; [by rewrite Ascii.eqb_refl | by rewrite IH].
Qed.

Lemma str_rstrip_id c (s : string) :
  str_endswith c s = false → str_rstrip c s = s.
Proof.
  induction s as [|a s IH]; [done |].
  destruct s as [|b s].
  - simpl. by intros ->.
  - intros H.
    change (match str_rstrip c (String b s) with
            | EmptyString => if Ascii.eqb a c then EmptyString else String a EmptyString
            | String b' r' => String a (String b' r')
            end = String a (String b s)).
    by rewrite IH.
Qed.

Lemma leading_dots_end_app (s t : string) :
  leading_dots_end (String.length s) (s +:+ t) = negb (str_all extsep s).
Proof.
  induction s as [|a s IH]; simpl; [by destruct t |].
  destruct (Ascii.eqb a extsep); [apply IH | done].
Qed.

Lemma str_length_app (s t : string) :
  String.length (s +:+ t) = (String.length s + String.length t)%nat.
Proof. induction s as [|a s IH]; simpl; [done | by rewrite IH]. Qed.

Lemma path_split_dir (dir fname : string) :
  str_truthy dir = true → str_endswith sep dir = false → no_sep fname = true →
  path_split (dir +:+ String sep fname) = (dir, fname).
Proof.
  intros Hd He Hf. unfold path_split.
  rewrite (str_rfind_last sep dir fname Hf).
  replace (Z.to_nat (Z.of_nat (String.length dir) + 1))
    with (String.length (dir +:+ String sep "")).
  2:{ rewrite str_length_app. simpl. lia. }
  replace (dir +:+ String sep fname) with ((dir +:+ String sep "") +:+ fname)
    by (by rewrite str_app_assoc).
  rewrite str_take_app, str_drop_app.
  rewrite str_all_app, (str_all_endswith _ _ Hd He). simpl.
  assert (str_truthy (dir +:+ String sep "") = true) as -> by (by destruct dir).
  simpl. by rewrite str_rstrip_app_sep, str_rstrip_id.
Qed.

Lemma no_sep_app (a b : string) : no_sep (a +:+ b) = no_sep a && no_sep b.
Proof. apply str_forall_app. Qed.

Lemma path_splitext_ext (stem old : string) :
  no_sep stem = true → str_all extsep stem = false →
  no_sep old = true → no_dot old = true →
  path_splitext (stem +:+ String extsep old) = (stem, String extsep old).
Proof.
  intros Hs Hnd Ho Hod. unfold path_splitext.
  rewrite (str_rfind_none sep).
  2:{ change (no_sep (stem +:+ String extsep old) = true).
      rewrite no_sep_app, Hs. simpl. exact Ho. }
  rewrite (str_rfind_last extsep stem old Hod).
  replace (Z.of_nat (String.length stem) - (-1 + 1)) with (Z.of_nat (String.length stem)) by lia.
  rewrite !Nat2Z.id. change (Z.to_nat (-1 + 1)) with 0%nat.
  assert (str_drop 0 (stem +:+ String extsep old) = stem +:+ String extsep old) as ->
    by (by destruct (stem +:+ String extsep old)).
  rewrite leading_dots_end_app, Hnd, str_take_app, str_drop_app.
  assert ((-1 <? Z.of_nat (String.length stem)) = true) as ->
    by (apply Z.ltb_lt; lia).
  done.
Qed.

Lemma path_join_dir (dir name : string) :
  str_truthy dir = true → str_endswith sep dir = false →
  str_startswith sep name = false →
  path_join dir name = dir +:+ String sep name.
Proof. intros Hd He Hn. unfold path_join. by rewrite Hn, Hd, He. Qed.

Lemma sidecar_path_of (dir stem old audio_path : string) (is_synced : pyval) :
  path_of dir stem old audio_path →
  Pkg.sidecar_path audio_path is_synced
  = dir +:+ String sep (stem +:+ (if truthy is_synced then ".lrc" else ".txt")).
Proof.
  intros (-> & Hd & He & Hs & Hnd & Ho & Hod). unfold Pkg.sidecar_path.
  rewrite path_split_dir; try done.
  2:{ rewrite no_sep_app, Hs. simpl. exact Ho. }
  rewrite path_splitext_ext by done.
  apply path_join_dir; try done.
  destruct stem as [|c stem]; [done |].
  simpl. unfold no_sep in Hs. simpl in Hs.
  apply andb_prop in Hs as [Hc _]. by apply negb_true_iff in Hc.
Qed.

(** ** The sidecar writer *)

Lemma Pkg_writer_ok env audio_path text is_synced st :
  open_for_writing env (Pkg.sidecar_path audio_path is_synced) = Ret tt →
  write_text env (Pkg.sidecar_path audio_path is_synced) (utf8_encode text) = Ret tt →
  fst (Pkg._write_sidecar_for_path env audio_path (VStr text) is_synced st) = Ret tt
  ∧ st_fs (snd (Pkg._write_sidecar_for_path env audio_path (VStr text) is_synced st))
    = <[file_of env (Pkg.sidecar_path audio_path is_synced) := utf8_encode text]> (st_fs st).
Proof.
  intros Ho Hw. unfold Pkg._write_sidecar_for_path, open_and_write. run.
  rewrite Ho. simpl. rewrite Hw. simpl. by rewrite insert_insert_eq.
Qed.

Lemma Plugin_writer_ok env file audio_path text is_synced st :
  file_filename file = Ret audio_path →
  open_for_writing env (Pkg.sidecar_path audio_path is_synced) = Ret tt →
  write_text env (Pkg.sidecar_path audio_path is_synced) (utf8_encode text) = Ret tt →
  fst (Plugin._write_sidecar_for_file env file (VStr text) is_synced st) = Ret tt
  ∧ st_fs (snd (Plugin._write_sidecar_for_file env file (VStr text) is_synced st))
    = <[file_of env (Pkg.sidecar_path audio_path is_synced) := utf8_encode text]> (st_fs st).
Proof.
  intros Hf Ho Hw. rewrite sidecar_path_same in *.
  unfold Plugin._write_sidecar_for_file, open_and_write. run.
  rewrite Hf. simpl.
  rewrite Ho. simpl. rewrite Hw. simpl. by rewrite insert_insert_eq.
Qed.

(** C5.  For a found text and a flag, when the disk takes the write, the
    writer of either copy returns normally and leaves the file system with
    exactly one change: the file under the path made of the audio file's
    directory, its stem and .lrc (synced) or .txt (plain) now holds the
    UTF-8 encoding of the text, whatever it held before.  For a path
    dir/stem.old that path is dir/stem.lrc or dir/stem.txt. *)
Theorem sidecar_is_written (env : Env) (file : File) (audio_path text : string)
    (synced : bool) (st : State) :
  file_filename file = Ret audio_path →
  open_for_writing env (Pkg.sidecar_path audio_path (VBool synced)) = Ret tt →
  write_text env (Pkg.sidecar_path audio_path (VBool synced)) (utf8_encode text)
    = Ret tt →
  let out := path_join (fst (path_split audio_path))
               (fst (path_splitext (snd (path_split audio_path)))
                +:+ (if synced then ".lrc" else ".txt")) in
  fst (Pkg._write_sidecar_for_path env audio_path (VStr text) (VBool synced) st)
    = Ret tt
  ∧ st_fs (snd (Pkg._write_sidecar_for_path env audio_path (VStr text)
                  (VBool synced) st))
    = <[file_of env out := utf8_encode text]> (st_fs st)
  ∧ fst (Plugin._write_sidecar_for_file env file (VStr text) (VBool synced) st)
    = Ret tt
  ∧ st_fs (snd (Plugin._write_sidecar_for_file env file (VStr text)
                  (VBool synced) st))
    = <[file_of env out := utf8_encode text]> (st_fs st)
  ∧ (∀ dir stem old, path_of dir stem old audio_path →
       out = dir +:+ String sep (stem +:+ (if synced then ".lrc" else ".txt"))).
Proof.
  intros Hf Ho Hw out.
  assert (Pkg.sidecar_path audio_path (VBool synced) = out) as Hout.
  { unfold Pkg.sidecar_path, out.
    destruct (path_split audio_path) as [directory fname]. simpl.
    by destruct (path_splitext fname) as [stem ext]. }
  destruct (Pkg_writer_ok env audio_path text (VBool synced) st Ho Hw) as [H1 H2].
  destruct (Plugin_writer_ok env file audio_path text (VBool synced) st Hf Ho Hw)
    as [H3 H4].
  rewrite Hout in H2, H4.
  split; [done |]. split; [done |]. split; [done |]. split; [done |].
  intros dir stem old Hp. rewrite <- Hout.
  by rewrite (sidecar_path_of _ _ _ _ (VBool synced) Hp).
Qed.

Lemma sidecar_is_written_witness :
  st_fs (snd (Pkg._write_sidecar_for_path
                (world (Ret tt) 0 (Ret VNone) true)
                "/music/a/Song.flac" (VStr "[00:01.00] la") (VBool true)
                {| st_fs := {["/music/a/Song.lrc" := "old"]};
                   st_trace := []; st_threads := [] |}))
    = <["/music/a/Song.lrc" := "[00:01.00] la"]> {["/music/a/Song.lrc" := "old"]}
  ∧ st_fs (snd (Plugin._write_sidecar_for_file
                  (world (Ret tt) 0 (Ret VNone) true)
                  (song_file "3:45") (VStr "la") (VBool false) st0))
    = <["/music/a/Song.txt" := "la"]> ∅
  ∧ Pkg.sidecar_path "/music/a/Song.flac" (VBool false)
    = "/music/a" +:+ String sep ("Song" +:+ ".txt").
Proof.
  split; [|split].
  - destruct (sidecar_is_written (world (Ret tt) 0 (Ret VNone) true)
                (song_file "3:45") "/music/a/Song.flac" "[00:01.00] la" true
                {| st_fs := {["/music/a/Song.lrc" := "old"]};
                   st_trace := []; st_threads := [] |}
                eq_refl eq_refl eq_refl) as (_ & H & _).
    exact H.
  - destruct (sidecar_is_written (world (Ret tt) 0 (Ret VNone) true)
                (song_file "3:45") "/music/a/Song.flac" "la" false st0
                eq_refl eq_refl eq_refl) as (_ & _ & _ & H & _).
    exact H.
  - destruct (sidecar_is_written (world (Ret tt) 0 (Ret VNone) true)
                (song_file "3:45") "/music/a/Song.flac" "la" false st0
                eq_refl eq_refl eq_refl) as (_ & _ & _ & _ & H).
    apply (H "/music/a" "Song" "flac"). by repeat split.
Defined.

(** ** What a run does to the files *)

#[global] Instance same_fs_frame : Frame same_fs.
Proof.
  split.
  - by intros st.
  - intros a b c H1 H2. unfold same_fs in *. congruence.
  - by intros lvl fmt st.
Qed.

Lemma str_prefix_nil (whole : string) : str_prefix "" whole.
Proof. exists 0%nat. by destruct whole. Qed.

Lemma str_prefix_refl (whole : string) : str_prefix whole whole.
Proof.
  exists (String.length whole).
  transitivity (str_take (String.length whole) (whole +:+ ""));
    [by rewrite str_take_app | by rewrite str_app_nil_r].
Qed.

Lemma sidecar_outcome_pre env p a b c :
  same_fs a b → sidecar_outcome env p b c → sidecar_outcome env p a c.
Proof. unfold same_fs, sidecar_outcome. by intros ->. Qed.

Lemma sidecar_outcome_post env p a b c :
  sidecar_outcome env p a b → same_fs b c → sidecar_outcome env p a c.
Proof. unfold same_fs, sidecar_outcome. by intros H ->. Qed.

Lemma same_fs_outcome env p a b : same_fs a b → sidecar_outcome env p a b.
Proof. intros H. by left. Qed.

Lemma outcome_bind {A B} env p (m : M A) (f : A → M B) :
  keeps same_fs m → (∀ a, keeps (sidecar_outcome env p) (f a)) →
  keeps (sidecar_outcome env p) (m ≫= f).
Proof.
  intros Hm Hf st. unfold mbind, M_bind. specialize (Hm st).
  destruct (m st) as [[a|e] st']; simpl in *.
  - eapply sidecar_outcome_pre; [done | apply Hf].
  - by apply same_fs_outcome.
Qed.

Lemma outcome_try {A} env p (body : M A) (handler : exn → M A) :
  keeps (sidecar_outcome env p) body → (∀ e, keeps same_fs (handler e)) →
  keeps (sidecar_outcome env p) (try_except body handler).
Proof.
  intros Hb Hh st. unfold try_except. specialize (Hb st).
  destruct (body st) as [[a|e] st']; simpl in *; [done |].
  eapply sidecar_outcome_post; [done | apply Hh].
Qed.

Lemma Pkg_build_same_fs snapshot :
  keeps same_fs (Pkg._build_query_from_snapshot snapshot).
Proof.
  unfold Pkg._build_query_from_snapshot, Pkg.parse_length. frame.
Qed.

Lemma Plugin_build_same_fs file :
  keeps same_fs (Plugin._build_query_from_file file).
Proof.
  unfold Plugin._build_query_from_file, Plugin.parse_length. frame.
Qed.

Lemma Pkg_fetch_same_fs env q : keeps same_fs (Pkg._fetch_lyrics_from_lrclib env q).
Proof. intros st. apply fs_frame_nil, Pkg_fetch_files. Qed.

Lemma Plugin_fetch_same_fs env q :
  keeps same_fs (Plugin._fetch_lyrics_from_lrclib env q).
Proof. intros st. apply fs_frame_nil, Plugin_fetch_files. Qed.

Lemma Pkg_writer_outcome env audio_path lyrics is_synced :
  keeps (sidecar_outcome env audio_path)
        (Pkg._write_sidecar_for_path env audio_path lyrics is_synced).
Proof.
  intros st. unfold Pkg._write_sidecar_for_path, open_and_write. run.
  destruct (open_for_writing env _) as [u|e]; simpl; [|by left].
  destruct lyrics; simpl;
    try (right; exists is_synced, "", ""; split; [apply str_prefix_nil | done]).
  destruct (write_text env _ _) as [u'|e]; simpl.
  - right. exists is_synced, s, (utf8_encode s).
    split; [apply str_prefix_refl | by rewrite insert_insert_eq].
  - right. eexists is_synced, s, _.
    split; [by eexists | by rewrite insert_insert_eq].
Qed.

Lemma Pkg_worker_outcome env audio_path snapshot :
  keeps (sidecar_outcome env audio_path) (Pkg._worker_for_file env audio_path snapshot).
Proof.
  unfold Pkg._worker_for_file.
  apply outcome_try; [|intros e; apply keeps_log; typeclasses eauto].
  apply outcome_bind; [apply keeps_log; typeclasses eauto |]. intros _.
  apply outcome_bind; [apply Pkg_build_same_fs |]. intros [q|].
  2:{ intros st. by left. }
  apply outcome_bind; [apply Pkg_fetch_same_fs |]. intros [lyrics is_synced].
  destruct (negb (truthy lyrics)).
  - intros st. by left.
  - apply Pkg_writer_outcome.
Qed.

Lemma Plugin_writer_outcome env file audio_path lyrics is_synced :
  file_filename file = Ret audio_path →
  keeps (sidecar_outcome env audio_path)
        (Plugin._write_sidecar_for_file env file lyrics is_synced).
Proof.
  intros Hf st. unfold Plugin._write_sidecar_for_file, open_and_write. run.
  rewrite Hf. simpl. rewrite <- sidecar_path_same.
  destruct (open_for_writing env _) as [u|e]; simpl; [|by left].
  destruct lyrics; simpl;
    try (right; exists is_synced, "", ""; split; [apply str_prefix_nil | done]).
  destruct (write_text env _ _) as [u'|e]; simpl.
  - right. exists is_synced, s, (utf8_encode s).
    split; [apply str_prefix_refl | by rewrite insert_insert_eq].
  - right. eexists is_synced, s, _.
    split; [by eexists | by rewrite insert_insert_eq].
Qed.

Lemma Plugin_hook_outcome env file audio_path :
  file_filename file = Ret audio_path →
  keeps (sidecar_outcome env audio_path) (Plugin.lrclib_simple_file_post_save env file).
Proof.
  intros Hf. unfold Plugin.lrclib_simple_file_post_save.
  apply outcome_try; [|intros e; apply keeps_log; typeclasses eauto].
  apply outcome_bind; [apply keeps_lift; typeclasses eauto |]. intros _.
  apply outcome_bind; [apply keeps_log; typeclasses eauto |]. intros _.
  apply outcome_bind; [apply Plugin_build_same_fs |]. intros [q|].
  2:{ intros st. by left. }
  apply outcome_bind; [apply Plugin_fetch_same_fs |]. intros [lyrics is_synced].
  destruct (negb (truthy lyrics)).
  - intros st. by left.
  - by apply Plugin_writer_outcome.
Qed.

Lemma keeps_add_thread_offline t : keeps offline (add_thread t).
Proof.
  intros st. split; [done |]. exists []. by rewrite app_nil_r.
Qed.

Lemma Pkg_hook_offline env file :
  keeps offline (Pkg.lrclib_simple_file_post_save env file).
Proof.
  unfold Pkg.lrclib_simple_file_post_save.
  repeat first [frame_step | apply keeps_add_thread_offline | typeclasses eauto].
Qed.

(** ** What a run adds to the log *)

#[global] Instance trace_grows_frame : Frame trace_grows.
Proof.
  split.
  - intros st. exists []. by rewrite app_nil_r.
  - intros a b c [m1 H1] [m2 H2]. exists (m1 ++ m2).
    by rewrite H2, H1, app_assoc.
  - intros lvl fmt st. by exists [Log lvl fmt].
Qed.

Lemma keeps_emit_trace ev : keeps trace_grows (emit ev).
Proof. intros st. by exists [ev]. Qed.

Lemma Pkg_build_trace snapshot :
  keeps trace_grows (Pkg._build_query_from_snapshot snapshot).
Proof. unfold Pkg._build_query_from_snapshot, Pkg.parse_length. frame. Qed.

Lemma Plugin_build_trace file :
  keeps trace_grows (Plugin._build_query_from_file file).
Proof. unfold Plugin._build_query_from_file, Plugin.parse_length. frame. Qed.

Lemma Pkg_fetch_trace env q :
  keeps trace_grows (Pkg._fetch_lyrics_from_lrclib env q).
Proof.
  unfold Pkg._fetch_lyrics_from_lrclib, Pkg.pick_lyrics.
  repeat first [frame_step | apply keeps_emit_trace | typeclasses eauto].
Qed.

Lemma Plugin_fetch_trace env q :
  keeps trace_grows (Plugin._fetch_lyrics_from_lrclib env q).
Proof.
  unfold Plugin._fetch_lyrics_from_lrclib, Plugin.pick_lyrics.
  repeat first [frame_step | apply keeps_emit_trace | typeclasses eauto].
Qed.

Lemma Pkg_hook_logs_stage env file st :
  (∀ e, file_filename file = Raise e →
     logged Error "LRCLIB SIMPLE: Cannot read file filename: %r" st
       (snd (Pkg.lrclib_simple_file_post_save env file st)))
  ∧ (∀ audio_path e, file_filename file = Ret audio_path →
       file_metadata file = Raise e →
       logged Error "LRCLIB SIMPLE: Cannot snapshot metadata: %r" st
         (snd (Pkg.lrclib_simple_file_post_save env file st)))
  ∧ (∀ audio_path md e, file_filename file = Ret audio_path →
       file_metadata file = Ret md →
       thread_start env (task_for audio_path md) = Raise e →
       logged Error "LRCLIB SIMPLE: Failed to start worker thread: %r" st
         (snd (Pkg.lrclib_simple_file_post_save env file st))
       ∧ st_threads (snd (Pkg.lrclib_simple_file_post_save env file st))
         = st_threads st).
Proof.
  unfold Pkg.lrclib_simple_file_post_save, task_for. split; [|split].
  - intros e He. run. rewrite He. simpl. by exists [].
  - intros p e Hp He. run. rewrite Hp. simpl. rewrite He. simpl. by exists [].
  - intros p md e Hp Hmd He. run. rewrite Hp. simpl. rewrite Hmd. simpl.
    rewrite He. simpl. split; [|done].
    exists [Log Info "LRCLIB SIMPLE: Post-save → %s (title=%r, artist=%r)"].
    by rewrite <- app_assoc.
Qed.

Lemma Plugin_hook_logs_stage env file st :
  (∀ e, file_filename file = Raise e →
     logged Error "LRCLIB SIMPLE: Unexpected error: %r" st
       (snd (Plugin.lrclib_simple_file_post_save env file st)))
  ∧ (∀ audio_path e, file_filename file = Ret audio_path →
       file_metadata file = Raise e →
       logged Error "LRCLIB SIMPLE: Unexpected error: %r" st
         (snd (Plugin.lrclib_simple_file_post_save env file st))).
Proof.
  unfold Plugin.lrclib_simple_file_post_save, Plugin._build_query_from_file.
  split.
  - intros e He. run. rewrite He. simpl. by exists [].
  - intros p e Hp He. run. rewrite Hp. simpl. rewrite He. simpl.
    exists [Log Info "LRCLIB SIMPLE: Post-save → %s"]. by rewrite <- app_assoc.
Qed.

Lemma parse_length_logs_failure (ls p0 p1 : string) (st : State) :
  str_split ":" ls = [p0; p1] →
  py_int p0 = Raise ValueError ∨ py_int p1 = Raise ValueError →
  logged Warning "LRCLIB SIMPLE: failed to parse '~length' %r: %r" st
    (snd (Pkg.parse_length (Some ls) st))
  ∧ logged Info "LRCLIB SIMPLE: Failed to parse ~length %r: %r" st
      (snd (Plugin.parse_length (Some ls) st)).
Proof.
  intros Hs Hp. unfold Pkg.parse_length, Plugin.parse_length.
  assert (str_truthy ls = true) as -> by (by destruct ls).
  run. rewrite Hs. run.
  destruct Hp as [-> | Hp1]; simpl.
  - split; by exists [].
  - destruct (py_int p0); simpl; rewrite ?Hp1; simpl; split; by exists [].
Qed.

(** ** The threads of the hook *)

Lemma Pkg_hook_threads env file st :
  st_threads (snd (Pkg.lrclib_simple_file_post_save env file st)) = st_threads st
  ∨ ∃ audio_path md,
      file_filename file = Ret audio_path ∧ file_metadata file = Ret md
      ∧ st_threads (snd (Pkg.lrclib_simple_file_post_save env file st))
        = st_threads st ++ [task_for audio_path md].
Proof.
  unfold Pkg.lrclib_simple_file_post_save, task_for. run.
  destruct (file_filename file) as [p|e]; simpl; [|by left].
  destruct (file_metadata file) as [md|e]; simpl; [|by left].
  destruct (thread_start env _) as [u|e]; simpl; [|by left].
  right. by exists p, md.
Qed.

(** C9: the package copy does what the claim says, the plugins copy does
    not.  The hook of the package copy sends no request and touches no
    file on the caller's side; all it may do besides logging is start one
    daemon thread whose body is the worker.  The hook of the plugins copy,
    called for a file with complete metadata, sends the request and writes
    the sidecar before it returns, and starts no thread. *)
Theorem plugins_hook_works_on_the_caller (env : Env) (file : File) (st : State) :
  offline st (snd (Pkg.lrclib_simple_file_post_save env file st))
  ∧ (st_threads (snd (Pkg.lrclib_simple_file_post_save env file st)) = st_threads st
     ∨ ∃ audio_path md,
         file_filename file = Ret audio_path ∧ file_metadata file = Ret md
         ∧ st_threads (snd (Pkg.lrclib_simple_file_post_save env file st))
           = st_threads st ++ [task_for audio_path md]
         ∧ task_daemon (task_for audio_path md) = true)
  ∧ HttpGet "https://lrclib.net/api/get?track_name=X&artist_name=Y&album_name=Z&duration=225"
      USER_AGENT 10
    ∈ st_trace (snd (Plugin.lrclib_simple_file_post_save world_ok
                       (song_file "3:45") st0))
  ∧ st_fs (snd (Plugin.lrclib_simple_file_post_save world_ok (song_file "3:45") st0))
    !! "/music/a/Song.lrc" = Some "la"
  ∧ st_threads (snd (Plugin.lrclib_simple_file_post_save world_ok
                       (song_file "3:45") st0)) = [].
Proof.
  split; [apply Pkg_hook_offline |]. split.
  { destruct (Pkg_hook_threads env file st) as [H | (p & md & Hp & Hmd & H)];
      [by left | right].
    by exists p, md. }
  split; [|split; reflexivity].
  vm_compute. apply list_elem_of_In. simpl. tauto.
Qed.

(** ** The two copies side by side *)

Lemma fetch_value_same_answer env q :
  (∀ url, urlopen env url USER_AGENT 15 = urlopen env url USER_AGENT 10) →
  fetch_value env q 15 = fetch_value env q 10.
Proof.
  intros H. unfold fetch_value, service_answer.
  destruct (urlencode env q) as [qs|e]; [|done]. by rewrite H.
Qed.

(** C8, as the code has it.  For every snapshot the two query builders
    return the same query or both None; the lines that read the decoded
    response are the same in both copies; and whenever the server's answer
    does not depend on the timeout, the two clients return the same result.
    The clients do not wait equally long: 15 seconds in the package copy,
    10 in the plugins copy. *)
Theorem copies_agree (env : Env) (q : Query) (snapshot : gmap string string)
    (file : File) (st : State) :
  (file_metadata file = Ret snapshot →
     fst (Pkg._build_query_from_snapshot snapshot st)
     = fst (Plugin._build_query_from_file file st))
  ∧ Pkg.pick_lyrics = Plugin.pick_lyrics
  ∧ ((∀ url, urlopen env url USER_AGENT 15 = urlopen env url USER_AGENT 10) →
     fst (Pkg._fetch_lyrics_from_lrclib env q st)
     = fst (Plugin._fetch_lyrics_from_lrclib env q st))
  ∧ (HttpGet (request_url (py_urlencode query_X)) USER_AGENT 15
       ∈ st_trace (snd (Pkg._fetch_lyrics_from_lrclib world_ok query_X st0))
     ∧ HttpGet (request_url (py_urlencode query_X)) USER_AGENT 10
       ∈ st_trace (snd (Plugin._fetch_lyrics_from_lrclib world_ok query_X st0))).
Proof.
  split; [|split; [|split]].
  - intros Hmd. by rewrite Pkg_build_fst, Plugin_build_fst, Hmd.
  - reflexivity.
  - intros H. by rewrite Pkg_fetch_fst, Plugin_fetch_fst, fetch_value_same_answer.
  - split; vm_compute; apply list_elem_of_In; simpl; tauto.
Qed.

Lemma copies_agree_witness :
  fst (Pkg._build_query_from_snapshot (snapshot_of "X" "Y" "Z" "3:45") st0)
    = fst (Plugin._build_query_from_file (song_file "3:45") st0)
  ∧ fst (Pkg._fetch_lyrics_from_lrclib world_ok query_X st0)
    = fst (Plugin._fetch_lyrics_from_lrclib world_ok query_X st0).
Proof.
  destruct (copies_agree world_ok query_X (snapshot_of "X" "Y" "Z" "3:45")
              (song_file "3:45") st0) as (H1 & _ & H2 & _).
  split; [by apply H1 |].
  apply H2. intros url. reflexivity.
Defined.

(** C8 as stated fails: the copies differ in behaviour.  A server that
    answers after twelve seconds is heard by the package copy and given up
    on by the plugins copy. *)
Lemma copies_differ_on_a_slow_server :
  fst (Pkg._fetch_lyrics_from_lrclib world_slow query_X st0) = Ret (Found "la" true)
  ∧ fst (Plugin._fetch_lyrics_from_lrclib world_slow query_X st0) = Ret NotFound
  ∧ fst (Pkg._fetch_lyrics_from_lrclib world_slow query_X st0)
    ≠ fst (Plugin._fetch_lyrics_from_lrclib world_slow query_X st0).
Proof. split; [reflexivity |]. split; [reflexivity |]. discriminate. Qed.

(** * Whole runs *)

(** ** Requests *)

Lemma requests_app (a b : list event) : requests (a ++ b) = requests a ++ requests b.
Proof.
  induction a as [|[lvl fmt|url ua t] a IH]; simpl; [done | done | by rewrite IH].
Qed.

#[global] Instance sends_nothing_frame : Frame (sends []).
Proof.
  split.
  - intros st. unfold sends. by rewrite app_nil_r.
  - intros a b c H1 H2. unfold sends in *. rewrite app_nil_r in *. congruence.
  - intros lvl fmt st. unfold sends. simpl. by rewrite requests_app, !app_nil_r.
Qed.

Lemma keeps_set_file_sends path content : keeps (sends []) (set_file path content).
Proof. intros st. unfold sends. simpl. by rewrite app_nil_r. Qed.

Lemma sends_pre rs a b c : sends [] a b → sends rs b c → sends rs a c.
Proof. unfold sends. rewrite app_nil_r. by intros ->. Qed.

Lemma sends_post rs a b c : sends rs a b → sends [] b c → sends rs a c.
Proof. unfold sends. rewrite app_nil_r. by intros H ->. Qed.

Lemma sends_bind_first {A B} rs (m : M A) (f : A → M B) :
  keeps (sends rs) m → (∀ a, keeps (sends []) (f a)) → keeps (sends rs) (m ≫= f).
Proof.
  intros Hm Hf st. unfold mbind, M_bind. specialize (Hm st).
  destruct (m st) as [[a|e] st']; simpl in *; [|done].
  eapply sends_post; [done | apply Hf].
Qed.

Lemma sends_try {A} rs (body : M A) (handler : exn → M A) :
  keeps (sends rs) body → (∀ e, keeps (sends []) (handler e)) →
  keeps (sends rs) (try_except body handler).
Proof.
  intros Hb Hh st. unfold try_except. specialize (Hb st).
  destruct (body st) as [[a|e] st']; simpl in *; [done |].
  eapply sends_post; [done | apply Hh].
Qed.

Lemma keeps_emit_sends url ua timeout :
  keeps (sends [(url, ua, timeout)]) (emit (HttpGet url ua timeout)).
Proof. intros st. unfold sends. simpl. by rewrite requests_app. Qed.

Lemma Pkg_build_sends snapshot :
  keeps (sends []) (Pkg._build_query_from_snapshot snapshot).
Proof. unfold Pkg._build_query_from_snapshot, Pkg.parse_length. frame. Qed.

Lemma Plugin_build_sends file :
  keeps (sends []) (Plugin._build_query_from_file file).
Proof. unfold Plugin._build_query_from_file, Plugin.parse_length. frame. Qed.

Lemma pick_lyrics_sends obj : keeps (sends []) (Pkg.pick_lyrics obj).
Proof. unfold Pkg.pick_lyrics. frame. Qed.

Lemma open_and_write_sends env out lyrics :
  keeps (sends []) (open_and_write env out lyrics).
Proof.
  unfold open_and_write.
  repeat first [apply keeps_set_file_sends | frame_step | typeclasses eauto].
Qed.

Lemma Pkg_writer_sends env audio_path lyrics is_synced :
  keeps (sends []) (Pkg._write_sidecar_for_path env audio_path lyrics is_synced).
Proof.
  unfold Pkg._write_sidecar_for_path.
  repeat first [apply open_and_write_sends | frame_step | typeclasses eauto].
Qed.

Lemma Plugin_writer_sends env file lyrics is_synced :
  keeps (sends []) (Plugin._write_sidecar_for_file env file lyrics is_synced).
Proof.
  unfold Plugin._write_sidecar_for_file.
  repeat first [apply open_and_write_sends | frame_step | typeclasses eauto].
Qed.

Lemma Pkg_fetch_sends env q :
  keeps (sends (fetch_requests env q 15)) (Pkg._fetch_lyrics_from_lrclib env q).
Proof.
  intros st. unfold Pkg._fetch_lyrics_from_lrclib, fetch_requests.
  unfold mbind at 1, M_bind at 1, lift at 1.
  destruct (urlencode env q) as [qs|e]; [|apply (frame_refl (R := sends []))].
  unfold mbind at 1, M_bind at 1.
  destruct (log Info "LRCLIB SIMPLE: Requesting %s" st) as [r1 st1] eqn:E1.
  assert (sends [] st st1 ∧ r1 = Ret tt) as [S1 ->].
  { pose proof (frame_log (R := sends []) Info "LRCLIB SIMPLE: Requesting %s" st) as H.
    rewrite E1 in H. split; [done |]. unfold log in E1. by inversion E1. }
  unfold mbind at 1, M_bind at 1, lift at 1.
  destruct (create_unverified_context env) as [u|e]; [|done].
  change (Pkg.LRCLIB_URL +:+ qs) with (request_url qs).
  eapply sends_pre; [exact S1 |].
  revert st1 E1 S1. intros st1 _ _. revert st1.
  change (keeps (sends [(request_url qs, USER_AGENT, 15)])
    (try_except
       (emit (HttpGet (request_url qs) USER_AGENT 15);;
        resp ← lift (urlopen env (request_url qs) USER_AGENT 15);
        log Info "LRCLIB SIMPLE: HTTP status=%r";;
        data ← lift (resp_read resp);
        mret (Some data))
       (λ exc, log Error "LRCLIB SIMPLE: HTTP request failed: %r";; mret None)
     ≫= λ fetched,
       match fetched with
       | None => mret (VNone, VNone)
       | Some data =>
           decoded ←
             try_except
               (let text := decode_utf8_replace env data in
                obj ← lift (json_loads env text);
                mret (Some obj))
               (λ exc, log Error "LRCLIB SIMPLE: JSON decode failed: %r";; mret None);
           match decoded with
           | None => mret (VNone, VNone)
           | Some obj => Pkg.pick_lyrics obj
           end
       end)).
  apply sends_bind_first.
  - apply sends_try; [|intros e; frame].
    apply sends_bind_first; [apply keeps_emit_sends |]. intros _. frame.
  - intros [data|]; [|frame].
    apply keeps_bind; [typeclasses eauto | frame |].
    intros [obj|]; [apply pick_lyrics_sends | frame].
Qed.

Lemma Plugin_fetch_sends env q :
  keeps (sends (fetch_requests env q 10)) (Plugin._fetch_lyrics_from_lrclib env q).
Proof.
  intros st. unfold Plugin._fetch_lyrics_from_lrclib, fetch_requests.
  unfold mbind at 1, M_bind at 1, lift at 1.
  destruct (urlencode env q) as [qs|e]; [|apply (frame_refl (R := sends []))].
  unfold mbind at 1, M_bind at 1.
  destruct (log Info "LRCLIB SIMPLE: Requesting %s" st) as [r1 st1] eqn:E1.
  assert (sends [] st st1 ∧ r1 = Ret tt) as [S1 ->].
  { pose proof (frame_log (R := sends []) Info "LRCLIB SIMPLE: Requesting %s" st) as H.
    rewrite E1 in H. split; [done |]. unfold log in E1. by inversion E1. }
  unfold mbind at 1, M_bind at 1, lift at 1.
  destruct (create_unverified_context env) as [u|e]; [|done].
  change (Plugin.LRCLIB_URL +:+ "?" +:+ qs) with (request_url qs).
  eapply sends_pre; [exact S1 |].
  revert st1 E1 S1. intros st1 _ _. revert st1.
  change (keeps (sends [(request_url qs, USER_AGENT, 10)])
    (try_except
       (emit (HttpGet (request_url qs) USER_AGENT 10);;
        resp ← lift (urlopen env (request_url qs) USER_AGENT 10);
        log Info "LRCLIB SIMPLE: HTTP status=%r";;
        data ← lift (resp_read resp);
        mret (Some data))
       (λ exc, log Warning "LRCLIB SIMPLE: HTTP request failed: %r";; mret None)
     ≫= λ fetched,
       match fetched with
       | None => mret (VNone, VNone)
       | Some data =>
           decoded ←
             try_except
               (let text := decode_utf8_replace env data in
                obj ← lift (json_loads env text);
                mret (Some obj))
               (λ exc, log Warning "LRCLIB SIMPLE: JSON decode failed: %r";; mret None);
           match decoded with
           | None => mret (VNone, VNone)
           | Some obj => Plugin.pick_lyrics obj
           end
       end)).
  apply sends_bind_first.
  - apply sends_try; [|intros e; frame].
    apply sends_bind_first; [apply keeps_emit_sends |]. intros _. frame.
  - intros [data|]; [|frame].
    apply keeps_bind; [typeclasses eauto | frame |].
    intros [obj|]; [apply pick_lyrics_sends | frame].
Qed.

(** ** One run, end to end *)

Lemma Pkg_writer_fs env audio_path lyrics is_synced st :
  st_fs (snd (Pkg._write_sidecar_for_path env audio_path lyrics is_synced st))
  = write_effect env (Pkg.sidecar_path audio_path is_synced) lyrics (st_fs st).
Proof.
  unfold Pkg._write_sidecar_for_path, open_and_write, write_effect. run.
  destruct (open_for_writing env _) as [u|e]; simpl; [|done].
  destruct lyrics; simpl; try done.
  destruct (write_text env _ _) as [u'|e]; simpl; by rewrite insert_insert_eq.
Qed.

Lemma Plugin_writer_fs env file audio_path lyrics is_synced st :
  file_filename file = Ret audio_path →
  st_fs (snd (Plugin._write_sidecar_for_file env file lyrics is_synced st))
  = write_effect env (Pkg.sidecar_path audio_path is_synced) lyrics (st_fs st).
Proof.
  intros Hf. rewrite sidecar_path_same.
  unfold Plugin._write_sidecar_for_file, open_and_write, write_effect. run.
  rewrite Hf. simpl.
  destruct (open_for_writing env _) as [u|e]; simpl; [|done].
  destruct lyrics; simpl; try done.
  destruct (write_text env _ _) as [u'|e]; simpl; by rewrite insert_insert_eq.
Qed.

Lemma log_run lvl fmt st :
  ∃ st1, log lvl fmt st = (Ret tt, st1) ∧ same_fs st st1 ∧ sends [] st st1
         ∧ trace_grows st st1.
Proof.
  eexists. split; [reflexivity |]. split; [|split].
  - apply (frame_log (R := same_fs)).
  - apply (frame_log (R := sends [])).
  - apply (frame_log (R := trace_grows)).
Qed.

Lemma Pkg_build_run snapshot st :
  ∃ st1, Pkg._build_query_from_snapshot snapshot st = (Ret (query_of snapshot), st1)
         ∧ same_fs st st1 ∧ sends [] st st1 ∧ trace_grows st st1.
Proof.
  pose proof (Pkg_build_fst snapshot st) as H1.
  pose proof (Pkg_build_same_fs snapshot st) as H2.
  pose proof (Pkg_build_sends snapshot st) as H3.
  pose proof (Pkg_build_trace snapshot st) as H4.
  destruct (Pkg._build_query_from_snapshot snapshot st) as [r st1].
  simpl in *. subst r. by exists st1.
Qed.

Lemma Plugin_build_run file md st :
  file_metadata file = Ret md →
  ∃ st1, Plugin._build_query_from_file file st = (Ret (query_of md), st1)
         ∧ same_fs st st1 ∧ sends [] st st1 ∧ trace_grows st st1.
Proof.
  intros Hmd.
  pose proof (Plugin_build_fst file st) as H1.
  pose proof (Plugin_build_same_fs file st) as H2.
  pose proof (Plugin_build_sends file st) as H3.
  pose proof (Plugin_build_trace file st) as H4.
  destruct (Plugin._build_query_from_file file st) as [r st1].
  simpl in *. subst r. rewrite Hmd. by exists st1.
Qed.

Lemma Pkg_fetch_run env q st :
  ∃ st1, Pkg._fetch_lyrics_from_lrclib env q st = (fetch_value env q 15, st1)
         ∧ same_fs st st1 ∧ sends (fetch_requests env q 15) st st1
         ∧ trace_grows st st1.
Proof.
  pose proof (Pkg_fetch_fst env q st) as H1.
  pose proof (Pkg_fetch_same_fs env q st) as H2.
  pose proof (Pkg_fetch_sends env q st) as H3.
  pose proof (Pkg_fetch_trace env q st) as H4.
  destruct (Pkg._fetch_lyrics_from_lrclib env q st) as [r st1].
  simpl in *. subst r. by exists st1.
Qed.

Lemma Plugin_fetch_run env q st :
  ∃ st1, Plugin._fetch_lyrics_from_lrclib env q st = (fetch_value env q 10, st1)
         ∧ same_fs st st1 ∧ sends (fetch_requests env q 10) st st1
         ∧ trace_grows st st1.
Proof.
  pose proof (Plugin_fetch_fst env q st) as H1.
  pose proof (Plugin_fetch_same_fs env q st) as H2.
  pose proof (Plugin_fetch_sends env q st) as H3.
  pose proof (Plugin_fetch_trace env q st) as H4.
  destruct (Plugin._fetch_lyrics_from_lrclib env q st) as [r st1].
  simpl in *. subst r. by exists st1.
Qed.

Lemma Pkg_worker_run env audio_path snapshot st :
  ∃ st', Pkg._worker_for_file env audio_path snapshot st = (Ret tt, st')
         ∧ st_fs st' = pipeline_effect env 15 audio_path snapshot (st_fs st)
         ∧ sends (pipeline_requests env 15 snapshot) st st'.
Proof.
  unfold Pkg._worker_for_file, try_except, pipeline_effect, pipeline_requests.
  unfold mbind at 1, M_bind at 1.
  destruct (log_run Info "LRCLIB SIMPLE: Worker started for %s" st)
    as (st1 & -> & F1 & S1 & _).
  unfold mbind at 1, M_bind at 1.
  destruct (Pkg_build_run snapshot st1) as (st2 & -> & F2 & S2 & _).
  assert (same_fs st st2) as F12 by (by eapply frame_trans).
  assert (sends [] st st2) as S12 by (by eapply frame_trans).
  destruct (query_of snapshot) as [q|]; [|by exists st2].
  unfold mbind at 1, M_bind at 1.
  destruct (Pkg_fetch_run env q st2) as (st3 & -> & F3 & S3 & _).
  assert (same_fs st st3) as F13 by (by eapply frame_trans).
  assert (sends (fetch_requests env q 15) st st3) as S13 by (by eapply sends_pre).
  destruct (fetch_value env q 15) as [[lyrics is_synced]|e].
  2:{ eexists. split; [reflexivity |]. split; [exact F13 |].
      eapply sends_post; [exact S13 | apply (frame_log (R := sends []))]. }
  destruct (truthy lyrics); simpl.
  - pose proof (Pkg_writer_fs env audio_path lyrics is_synced st3) as Hw.
    pose proof (Pkg_writer_never_raises env audio_path lyrics is_synced st3) as Hr.
    pose proof (Pkg_writer_sends env audio_path lyrics is_synced st3) as Hs.
    destruct (Pkg._write_sidecar_for_path env audio_path lyrics is_synced st3)
      as [[[]|e] st4]; [|done].
    simpl in *. exists st4. split; [done |].
    split; [by rewrite Hw, F13 | by eapply sends_post].
  - eexists. split; [reflexivity |]. split; [exact F13 |].
    eapply sends_post; [exact S13 | apply (frame_log (R := sends []))].
Qed.

Lemma Plugin_hook_run env file audio_path md st :
  file_filename file = Ret audio_path →
  file_metadata file = Ret md →
  ∃ st', Plugin.lrclib_simple_file_post_save env file st = (Ret tt, st')
         ∧ st_fs st' = pipeline_effect env 10 audio_path md (st_fs st)
         ∧ sends (pipeline_requests env 10 md) st st'.
Proof.
  intros Hn Hmd.
  unfold Plugin.lrclib_simple_file_post_save, try_except, pipeline_effect,
    pipeline_requests.
  unfold mbind at 1, M_bind at 1, lift at 1. rewrite Hn.
  unfold mbind at 1, M_bind at 1.
  destruct (log_run Info "LRCLIB SIMPLE: Post-save → %s" st)
    as (st1 & -> & F1 & S1 & _).
  unfold mbind at 1, M_bind at 1.
  destruct (Plugin_build_run file md st1 Hmd) as (st2 & -> & F2 & S2 & _).
  assert (same_fs st st2) as F12 by (by eapply frame_trans).
  assert (sends [] st st2) as S12 by (by eapply frame_trans).
  destruct (query_of md) as [q|]; [|by exists st2].
  unfold mbind at 1, M_bind at 1.
  destruct (Plugin_fetch_run env q st2) as (st3 & -> & F3 & S3 & _).
  assert (same_fs st st3) as F13 by (by eapply frame_trans).
  assert (sends (fetch_requests env q 10) st st3) as S13 by (by eapply sends_pre).
  destruct (fetch_value env q 10) as [[lyrics is_synced]|e].
  2:{ eexists. split; [reflexivity |]. split; [exact F13 |].
      eapply sends_post; [exact S13 | apply (frame_log (R := sends []))]. }
  destruct (truthy lyrics); simpl.
  - pose proof (Plugin_writer_fs env file audio_path lyrics is_synced st3 Hn) as Hw.
    pose proof (Plugin_writer_sends env file lyrics is_synced st3) as Hs.
    pose proof (Plugin_writer_outcome env file audio_path lyrics is_synced Hn st3)
      as _.
    assert (returns (fst (Plugin._write_sidecar_for_file env file lyrics
                            is_synced st3)) = true) as Hr.
    { unfold Plugin._write_sidecar_for_file.
      unfold mbind at 1, M_bind at 1, lift at 1. rewrite Hn.
      apply never_raises_bind; [apply never_raises_log |]. intros _.
      apply never_raises_try. intros e. apply never_raises_log. }
    destruct (Plugin._write_sidecar_for_file env file lyrics is_synced st3)
      as [[[]|e] st4]; [|done].
    simpl in *. exists st4. split; [done |].
    split; [by rewrite Hw, F13 | by eapply sends_post].
  - eexists. split; [reflexivity |]. split; [exact F13 |].
    eapply sends_post; [exact S13 | apply (frame_log (R := sends []))].
Qed.

Lemma chosen_found_truthy d text synced :
  chosen d (Found text synced) → truthy (VStr text) = true.
Proof.
  intros H. inversion H as [s Hs Hne | p Hno Hp Hne | ]; subst;
    simpl; by apply str_truthy_ne.
Qed.

Lemma fetch_value_found env q timeout obj d text synced :
  answered env q timeout (Answer obj) →
  the_object obj = Some d → truthy (dict_get d "id") = true →
  chosen d (Found text synced) →
  fetch_value env q timeout = Ret (Found text synced).
Proof.
  intros Ha Hobj Hid Hch.
  rewrite (fetch_value_answered _ _ _ _ Ha). simpl.
  rewrite lyrics_of_the_object, Hobj. by apply lyrics_of_dict_chosen.
Qed.

Lemma pipeline_effect_found env timeout audio_path snapshot q text synced fs :
  complete snapshot q →
  fetch_value env q timeout = Ret (Found text synced) →
  truthy (VStr text) = true →
  open_for_writing env (Pkg.sidecar_path audio_path (VBool synced)) = Ret tt →
  write_text env (Pkg.sidecar_path audio_path (VBool synced)) (utf8_encode text)
    = Ret tt →
  pipeline_effect env timeout audio_path snapshot fs
  = <[file_of env (Pkg.sidecar_path audio_path (VBool synced)) := utf8_encode text]> fs.
Proof.
  intros Hq%query_of_complete Hv Ht Ho Hw.
  unfold pipeline_effect, write_effect. rewrite Hq, Hv. unfold Found.
  rewrite Ht, Ho, Hw. done.
Qed.

(** X1.  End to end: for a file whose metadata is complete, when the
    request brings back an accepted object with lyrics and the disk takes
    the write, a run of the worker (of the plugins hook) leaves the file
    system with exactly one change: the sidecar of the audio file, .lrc for
    synced lyrics and .txt for plain ones, holds the encoded lyrics. *)
Theorem lyrics_end_up_in_the_sidecar (env : Env) (file : File)
    (audio_path text : string) (snapshot : gmap string string) (q : Query)
    (obj : pyval) (d : gmap string pyval) (synced : bool) (st : State) :
  file_filename file = Ret audio_path →
  file_metadata file = Ret snapshot →
  complete snapshot q →
  the_object obj = Some d →
  truthy (dict_get d "id") = true →
  chosen d (Found text synced) →
  open_for_writing env (Pkg.sidecar_path audio_path (VBool synced)) = Ret tt →
  write_text env (Pkg.sidecar_path audio_path (VBool synced)) (utf8_encode text)
    = Ret tt →
  (answered env q 15 (Answer obj) →
     st_fs (snd (Pkg._worker_for_file env audio_path snapshot st))
     = <[file_of env (Pkg.sidecar_path audio_path (VBool synced)) := utf8_encode text]> (st_fs st))
  ∧ (answered env q 10 (Answer obj) →
     st_fs (snd (Plugin.lrclib_simple_file_post_save env file st))
     = <[file_of env (Pkg.sidecar_path audio_path (VBool synced)) := utf8_encode text]> (st_fs st)).
Proof.
  intros Hn Hmd Hq Hobj Hid Hch Ho Hw.
  pose proof (chosen_found_truthy _ _ _ Hch) as Ht.
  split; intros Ha.
  - destruct (Pkg_worker_run env audio_path snapshot st) as (st' & E & Hfs & _).
    rewrite E. simpl. rewrite Hfs. eapply pipeline_effect_found; try done.
    by eapply fetch_value_found.
  - destruct (Plugin_hook_run env file audio_path snapshot st Hn Hmd)
      as (st' & E & Hfs & _).
    rewrite E. simpl. rewrite Hfs. eapply pipeline_effect_found; try done.
    by eapply fetch_value_found.
Qed.

Lemma complete_X : complete (snapshot_of "X" "Y" "Z" "3:45") query_X.
Proof.
  split; [reflexivity |]. split; [done |]. split; [reflexivity |].
  split; [done |]. split; [reflexivity |]. split; [|done].
  exists "3:45", 3, 45. split; [reflexivity |].
  split; [apply shape_3_45 | reflexivity].
Qed.

Lemma lyrics_end_up_in_the_sidecar_witness :
  st_fs (snd (Pkg._worker_for_file world_ok "/music/a/Song.flac"
                (snapshot_of "X" "Y" "Z" "3:45") st_old))
    = <["/music/a/Song.lrc" := "la"]> (st_fs st_old)
  ∧ st_fs (snd (Plugin.lrclib_simple_file_post_save
                  (world (Ret tt) 0 (Ret (VList [response (VInt 7) VNone (VStr "la")])) true)
                  (song_file "3:45") st0))
    = <["/music/a/Song.txt" := "la"]> (st_fs st0).
Proof.
  pose proof (lyrics_end_up_in_the_sidecar world_ok (song_file "3:45")
                "/music/a/Song.flac" "la" (snapshot_of "X" "Y" "Z" "3:45") query_X
                (response (VInt 1) (VStr "la") VNone)
                (<["id" := VInt 1]> (<["syncedLyrics" := VStr "la"]>
                   (<["plainLyrics" := VNone]> ∅)))
                true st_old eq_refl eq_refl complete_X eq_refl) as H1.
  pose proof (lyrics_end_up_in_the_sidecar
                (world (Ret tt) 0 (Ret (VList [response (VInt 7) VNone (VStr "la")])) true)
                (song_file "3:45")
                "/music/a/Song.flac" "la" (snapshot_of "X" "Y" "Z" "3:45") query_X
                (VList [response (VInt 7) VNone (VStr "la")])
                (<["id" := VInt 7]> (<["syncedLyrics" := VNone]>
                   (<["plainLyrics" := VStr "la"]> ∅)))
                false st0 eq_refl eq_refl complete_X eq_refl) as H2.
  split.
  - destruct H1 as [H _]; [reflexivity | | reflexivity | reflexivity |].
    + apply chosen_synced; [reflexivity | done].
    + apply H. apply world_answered. lia.
  - destruct H2 as [_ H]; [reflexivity | | reflexivity | reflexivity |].
    + apply chosen_plain; [right; by exists VNone | reflexivity | done].
    + apply H. apply world_answered. lia.
Defined.

(** X2.  The files change only when lyrics came back: if a run of the
    worker (of the plugins hook) leaves the file system different from
    what it was, then the metadata was complete, the client returned a
    truthy lyrics value, and the sidecar could be opened. *)
Theorem files_change_only_with_lyrics (env : Env) (file : File)
    (audio_path : string) (snapshot : gmap string string) (st : State) :
  file_filename file = Ret audio_path →
  file_metadata file = Ret snapshot →
  (st_fs (snd (Pkg._worker_for_file env audio_path snapshot st)) ≠ st_fs st →
     ∃ q lyrics is_synced,
       complete snapshot q
       ∧ fst (Pkg._fetch_lyrics_from_lrclib env q st) = Ret (lyrics, is_synced)
       ∧ truthy lyrics = true
       ∧ open_for_writing env (Pkg.sidecar_path audio_path is_synced) = Ret tt)
  ∧ (st_fs (snd (Plugin.lrclib_simple_file_post_save env file st)) ≠ st_fs st →
     ∃ q lyrics is_synced,
       complete snapshot q
       ∧ fst (Plugin._fetch_lyrics_from_lrclib env q st) = Ret (lyrics, is_synced)
       ∧ truthy lyrics = true
       ∧ open_for_writing env (Pkg.sidecar_path audio_path is_synced) = Ret tt).
Proof.
  intros Hn Hmd.
  assert (∀ timeout fs,
    pipeline_effect env timeout audio_path snapshot fs ≠ fs →
    ∃ q lyrics is_synced,
      complete snapshot q
      ∧ fetch_value env q timeout = Ret (lyrics, is_synced)
      ∧ truthy lyrics = true
      ∧ open_for_writing env (Pkg.sidecar_path audio_path is_synced) = Ret tt)
    as Hgen.
  { intros timeout fs. unfold pipeline_effect, write_effect.
    destruct (query_of snapshot) as [q|] eqn:Hq; [|done].
    destruct (fetch_value env q timeout) as [[lyrics is_synced]|e] eqn:Hv; [|done].
    destruct (truthy lyrics) eqn:Ht; [|done].
    destruct (open_for_writing env _) as [[]|e] eqn:Ho; [|done].
    intros _. exists q, lyrics, is_synced. by rewrite <- query_of_complete. }
  split; intros Hne.
  - destruct (Pkg_worker_run env audio_path snapshot st) as (st' & E & Hfs & _).
    rewrite E in Hne. simpl in Hne. rewrite Hfs in Hne.
    destruct (Hgen _ _ Hne) as (q & l & f & ? & ? & ? & ?).
    exists q, l, f. by rewrite Pkg_fetch_fst.
  - destruct (Plugin_hook_run env file audio_path snapshot st Hn Hmd)
      as (st' & E & Hfs & _).
    rewrite E in Hne. simpl in Hne. rewrite Hfs in Hne.
    destruct (Hgen _ _ Hne) as (q & l & f & ? & ? & ? & ?).
    exists q, l, f. by rewrite Plugin_fetch_fst.
Qed.

Lemma files_change_only_with_lyrics_witness :
  ∃ q lyrics is_synced,
    complete (snapshot_of "X" "Y" "Z" "3:45") q
    ∧ fst (Pkg._fetch_lyrics_from_lrclib world_ok q st0) = Ret (lyrics, is_synced)
    ∧ truthy lyrics = true
    ∧ open_for_writing world_ok (Pkg.sidecar_path "/music/a/Song.flac" is_synced)
      = Ret tt.
Proof.
  destruct (files_change_only_with_lyrics world_ok (song_file "3:45")
              "/music/a/Song.flac" (snapshot_of "X" "Y" "Z" "3:45") st0
              eq_refl eq_refl) as [H _].
  apply H. intros Heq.
  assert (st_fs (snd (Pkg._worker_for_file world_ok "/music/a/Song.flac"
                        (snapshot_of "X" "Y" "Z" "3:45") st0))
          !! "/music/a/Song.lrc" = Some "la") as Hl by reflexivity.
  rewrite Heq in Hl. discriminate Hl.
Defined.

(** X3.  One run sends at most one request and never retries.  For
    complete metadata, once the query is encoded and the SSL context is
    there, it is exactly one GET to https://lrclib.net/api/get? followed by
    the encoded query, with the plugin's User-Agent, and a timeout of 15
    seconds in the package copy, 10 in the plugins copy; this whether or
    not the request succeeds. *)
Theorem one_request_per_run (env : Env) (file : File) (audio_path : string)
    (snapshot : gmap string string) (st : State) :
  file_filename file = Ret audio_path →
  file_metadata file = Ret snapshot →
  (∀ q qs, complete snapshot q → urlencode env q = Ret qs →
     create_unverified_context env = Ret tt →
     sends [(request_url qs, USER_AGENT, 15)] st
       (snd (Pkg._worker_for_file env audio_path snapshot st))
     ∧ sends [(request_url qs, USER_AGENT, 10)] st
         (snd (Plugin.lrclib_simple_file_post_save env file st)))
  ∧ (∃ rs, sends rs st (snd (Pkg._worker_for_file env audio_path snapshot st))
           ∧ (length rs ≤ 1)%nat)
  ∧ (∃ rs, sends rs st (snd (Plugin.lrclib_simple_file_post_save env file st))
           ∧ (length rs ≤ 1)%nat).
Proof.
  intros Hn Hmd.
  destruct (Pkg_worker_run env audio_path snapshot st) as (st1 & E1 & _ & S1).
  destruct (Plugin_hook_run env file audio_path snapshot st Hn Hmd)
    as (st2 & E2 & _ & S2).
  rewrite E1, E2. simpl.
  assert (∀ timeout, (length (pipeline_requests env timeout snapshot) ≤ 1)%nat)
    as Hlen.
  { intros timeout. unfold pipeline_requests, fetch_requests.
    destruct (query_of snapshot); [|simpl; lia].
    destruct (urlencode env _); [|simpl; lia].
    destruct (create_unverified_context env); simpl; lia. }
  split; [|split; eauto].
  intros q qs Hq%query_of_complete Hu Hc.
  unfold pipeline_requests, fetch_requests in S1, S2.
  by rewrite Hq, Hu, Hc in S1, S2.
Qed.

Lemma one_request_per_run_witness :
  sends [("https://lrclib.net/api/get?track_name=X&artist_name=Y&album_name=Z&duration=225",
          "Picard-LRCLIB-External-Save", 15)] st0
    (snd (Pkg._worker_for_file world_slow "/music/a/Song.flac"
            (snapshot_of "X" "Y" "Z" "3:45") st0))
  ∧ sends [("https://lrclib.net/api/get?track_name=X&artist_name=Y&album_name=Z&duration=225",
            "Picard-LRCLIB-External-Save", 10)] st0
      (snd (Plugin.lrclib_simple_file_post_save world_slow (song_file "3:45") st0)).
Proof.
  destruct (one_request_per_run world_slow (song_file "3:45") "/music/a/Song.flac"
              (snapshot_of "X" "Y" "Z" "3:45") st0 eq_refl eq_refl) as [H _].
  exact (H query_X (py_urlencode query_X) complete_X eq_refl eq_refl).
Defined.

(** ** From the hook to the thread *)

Lemma task_snapshot_lookup audio_path (md : gmap string string) k :
  task_snapshot (task_for audio_path md) !! k
  = if bool_decide (k ∈ query_keys) then md !! k else None.
Proof.
  unfold task_for, dict_set, query_keys. simpl.
  destruct (decide (k = "title")) as [->|H1].
  { rewrite bool_decide_eq_true_2 by set_solver.
    destruct (md !! "title"), (md !! "artist"), (md !! "album"),
      (md !! "~length"); by simplify_map_eq. }
  destruct (decide (k = "artist")) as [->|H2].
  { rewrite bool_decide_eq_true_2 by set_solver.
    destruct (md !! "title"), (md !! "artist"), (md !! "album"),
      (md !! "~length"); by simplify_map_eq. }
  destruct (decide (k = "album")) as [->|H3].
  { rewrite bool_decide_eq_true_2 by set_solver.
    destruct (md !! "title"), (md !! "artist"), (md !! "album"),
      (md !! "~length"); by simplify_map_eq. }
  destruct (decide (k = "~length")) as [->|H4].
  { rewrite bool_decide_eq_true_2 by set_solver.
    destruct (md !! "title"), (md !! "artist"), (md !! "album"),
      (md !! "~length"); by simplify_map_eq. }
  rewrite bool_decide_eq_false_2
    by (rewrite !elem_of_cons, elem_of_nil; tauto).
  destruct (md !! "title"), (md !! "artist"), (md !! "album"),
    (md !! "~length"); by simplify_map_eq.
Qed.

Lemma query_of_task_snapshot audio_path (md : gmap string string) :
  query_of (task_snapshot (task_for audio_path md)) = query_of md.
Proof.
  unfold query_of. cbv zeta.
  rewrite !task_snapshot_lookup. unfold query_keys.
  rewrite !bool_decide_eq_true_2 by set_solver. done.
Qed.

(** X4.  The snapshot the hook hands to the thread holds the title, the
    artist, the album and the length of the file's metadata and nothing
    else; the worker builds from it the very query the plugins copy builds
    from the file. *)
Theorem snapshot_carries_the_four_fields (env : Env) (file : File)
    (st st' : State) (t : Task) :
  st_threads (snd (Pkg.lrclib_simple_file_post_save env file st))
    = st_threads st ++ [t] →
  ∃ audio_path md,
    file_filename file = Ret audio_path ∧ file_metadata file = Ret md
    ∧ task_audio_path t = audio_path
    ∧ (∀ k, task_snapshot t !! k
            = if bool_decide (k ∈ query_keys) then md !! k else None)
    ∧ fst (Pkg._build_query_from_snapshot (task_snapshot t) st')
      = fst (Plugin._build_query_from_file file st').
Proof.
  intros Ht.
  destruct (Pkg_hook_threads env file st) as [H | (p & md & Hp & Hmd & H)].
  { rewrite H in Ht. apply (f_equal length) in Ht.
    rewrite length_app in Ht. simpl in Ht. lia. }
  rewrite H in Ht. apply app_inv_head in Ht. injection Ht as <-.
  exists p, md. split; [done |]. split; [done |]. split; [done |].
  split; [apply task_snapshot_lookup |].
  by rewrite Pkg_build_fst, Plugin_build_fst, Hmd, query_of_task_snapshot.
Qed.

Lemma snapshot_carries_the_four_fields_witness :
  ∃ audio_path md,
    file_filename (song_file "3:45") = Ret audio_path
    ∧ file_metadata (song_file "3:45") = Ret md
    ∧ task_audio_path (task_for "/music/a/Song.flac" (snapshot_of "X" "Y" "Z" "3:45"))
      = audio_path
    ∧ (∀ k, task_snapshot (task_for "/music/a/Song.flac"
                             (snapshot_of "X" "Y" "Z" "3:45")) !! k
            = if bool_decide (k ∈ query_keys) then md !! k else None)
    ∧ fst (Pkg._build_query_from_snapshot
             (task_snapshot (task_for "/music/a/Song.flac"
                               (snapshot_of "X" "Y" "Z" "3:45"))) st0)
      = fst (Plugin._build_query_from_file (song_file "3:45") st0).
Proof.
  apply (snapshot_carries_the_four_fields world_ok (song_file "3:45") st0 st0).
  reflexivity.
Defined.

(** X5.  With a server whose answer does not depend on the timeout, the
    two copies do the same to the files: the hook of the package copy
    touches nothing and starts one thread, and that thread, once run,
    leaves the file system as the hook of the plugins copy leaves it. *)
Theorem thread_does_what_the_plugins_hook_does (env : Env) (file : File)
    (audio_path : string) (md : gmap string string) (st : State) :
  file_filename file = Ret audio_path →
  file_metadata file = Ret md →
  thread_start env (task_for audio_path md) = Ret tt →
  (∀ url, urlopen env url USER_AGENT 15 = urlopen env url USER_AGENT 10) →
  st_fs (snd (Pkg.lrclib_simple_file_post_save env file st)) = st_fs st
  ∧ st_threads (snd (Pkg.lrclib_simple_file_post_save env file st))
    = st_threads st ++ [task_for audio_path md]
  ∧ st_fs (snd (run_task env (task_for audio_path md)
                  (snd (Pkg.lrclib_simple_file_post_save env file st))))
    = st_fs (snd (Plugin.lrclib_simple_file_post_save env file st)).
Proof.
  intros Hn Hmd Hstart Hsame.
  destruct (Pkg_hook_offline env file st) as [Hfs _].
  split; [exact Hfs |]. split.
  { unfold Pkg.lrclib_simple_file_post_save. run. rewrite Hn. simpl.
    rewrite Hmd. simpl. unfold task_for in Hstart. rewrite Hstart. done. }
  unfold run_task.
  destruct (Pkg_worker_run env (task_audio_path (task_for audio_path md))
              (task_snapshot (task_for audio_path md))
              (snd (Pkg.lrclib_simple_file_post_save env file st)))
    as (st1 & E1 & F1 & _).
  destruct (Plugin_hook_run env file audio_path md st Hn Hmd) as (st2 & E2 & F2 & _).
  rewrite E1, E2. simpl. rewrite F1, F2, Hfs.
  unfold pipeline_effect. rewrite query_of_task_snapshot.
  destruct (query_of md) as [q|]; [|done].
  by rewrite (fetch_value_same_answer env q Hsame).
Qed.

Lemma thread_does_what_the_plugins_hook_does_witness :
  st_fs (snd (run_task world_ok (task_for "/music/a/Song.flac"
                                   (snapshot_of "X" "Y" "Z" "3:45"))
                (snd (Pkg.lrclib_simple_file_post_save world_ok
                        (song_file "3:45") st_old))))
  = st_fs (snd (Plugin.lrclib_simple_file_post_save world_ok (song_file "3:45") st_old)).
Proof.
  destruct (thread_does_what_the_plugins_hook_does world_ok (song_file "3:45")
              "/music/a/Song.flac" (snapshot_of "X" "Y" "Z" "3:45") st_old
              eq_refl eq_refl eq_refl) as (_ & _ & H).
  - intros url. reflexivity.
  - exact H.
Defined.

(** ** Where the sidecar lies *)

Lemma str_rfind_ge c (s : string) : -1 ≤ str_rfind c s.
Proof.
  induction s as [|a s IH]; simpl; [lia |].
  destruct (0 <=? str_rfind c s) eqn:E; [apply Z.leb_le in E; lia |].
  destruct (Ascii.eqb a c); lia.
Qed.

Lemma str_rfind_neg c (s : string) :
  str_rfind c s < 0 → str_forall (λ a, negb (Ascii.eqb a c)) s = true.
Proof.
  induction s as [|a s IH]; simpl; [done |].
  destruct (0 <=? str_rfind c s) eqn:E.
  { apply Z.leb_le in E. lia. }
  apply Z.leb_gt in E. rewrite (IH E), andb_true_r.
  destruct (Ascii.eqb a c); [lia | done].
Qed.

Lemma str_drop_0 (s : string) : str_drop 0 s = s.
Proof. by destruct s. Qed.

Lemma str_take_0 (s : string) : str_take 0 s = "".
Proof. by destruct s. Qed.

Lemma tail_no_sep (p : string) :
  no_sep (str_drop (Z.to_nat (str_rfind sep p + 1)) p) = true.
Proof.
  induction p as [|a r IH]; [done |].
  cbn [str_rfind].
  pose proof (str_rfind_ge sep r) as Hge.
  destruct (0 <=? str_rfind sep r) eqn:E.
  - apply Z.leb_le in E.
    replace (Z.to_nat (str_rfind sep r + 1 + 1))
      with (S (Z.to_nat (str_rfind sep r + 1))) by lia.
    exact IH.
  - apply Z.leb_gt in E. pose proof (str_rfind_neg sep r E) as Hr.
    destruct (Ascii.eqb a sep) eqn:Ea.
    + change (Z.to_nat (0 + 1)) with 1%nat. simpl. exact Hr.
    + change (Z.to_nat (-1 + 1)) with 0%nat. rewrite str_drop_0.
      unfold no_sep. simpl. by rewrite Ea.
Qed.

Lemma str_rstrip_not_endswith c (s : string) :
  str_endswith c (str_rstrip c s) = false.
Proof.
  induction s as [|a s IH]; [done |].
  cbn [str_rstrip].
  destruct (str_rstrip c s) as [|b r'] eqn:E.
  - destruct (Ascii.eqb a c) eqn:Ea; [done | simpl; by rewrite Ea].
  - exact IH.
Qed.

Lemma str_rstrip_truthy c (s : string) :
  str_all c s = false → str_truthy (str_rstrip c s) = true.
Proof.
  induction s as [|a s IH]; [done |].
  cbn [str_rstrip str_all].
  destruct (str_rstrip c s) as [|b r'] eqn:E; [|done].
  destruct (Ascii.eqb a c) eqn:Ea; [|done].
  simpl. intros H. by apply IH in H.
Qed.

(** The directory [posixpath.split] returns is empty, made of separators
    only, or does not end in a separator. *)
Lemma path_split_head (p : string) :
  fst (path_split p) = ""
  ∨ (str_truthy (fst (path_split p)) = true
     ∧ str_all sep (fst (path_split p)) = true)
  ∨ (str_truthy (fst (path_split p)) = true
     ∧ str_endswith sep (fst (path_split p)) = false).
Proof.
  unfold path_split. simpl.
  set (h := str_take (Z.to_nat (str_rfind sep p + 1)) p).
  destruct (str_truthy h) eqn:Ht; simpl.
  2:{ left. by destruct h. }
  destruct (str_all sep h) eqn:Ha; simpl.
  { right. left. by rewrite Ht, Ha. }
  right. right. by rewrite str_rstrip_truthy, str_rstrip_not_endswith.
Qed.

Lemma path_split_tail (p : string) : no_sep (snd (path_split p)) = true.
Proof. unfold path_split. simpl. apply tail_no_sep. Qed.

Lemma str_forall_take P n (s : string) :
  str_forall P s = true → str_forall P (str_take n s) = true.
Proof.
  revert s. induction n as [|n IH]; intros [|a s]; simpl; try done.
  intros [Ha Hs]%andb_prop. by rewrite Ha, IH.
Qed.

Lemma path_splitext_stem (fname : string) :
  no_sep fname = true → no_sep (fst (path_splitext fname)) = true.
Proof.
  intros H. unfold path_splitext.
  destruct (_ && _); simpl; [by apply str_forall_take | done].
Qed.

Lemma no_sep_startswith (s : string) :
  no_sep s = true → str_startswith sep s = false.
Proof.
  destruct s as [|c s]; [done |]. unfold no_sep. simpl.
  intros [Hc _]%andb_prop. by apply negb_true_iff in Hc.
Qed.

Lemma str_all_endswith_true c (s : string) :
  str_truthy s = true → str_all c s = true → str_endswith c s = true.
Proof.
  induction s as [|a s IH]; [done |]. intros _.
  cbn [str_all]. intros [Ha Hs]%andb_prop.
  destruct s as [|b s]; [done |].
  change (str_endswith c (String b s) = true). by apply IH.
Qed.

Lemma str_endswith_snoc c (s : string) :
  str_endswith c s = true → ∃ s', s = s' +:+ String c "".
Proof.
  induction s as [|a s IH]; [done |].
  destruct s as [|b s].
  - simpl. intros ->%Ascii.eqb_eq. by exists "".
  - intros H. destruct IH as [s' Hs']; [exact H |].
    exists (String a s'). simpl. by rewrite <- Hs'.
Qed.

Lemma path_split_join (dir name : string) :
  (dir = ""
   ∨ (str_truthy dir = true ∧ str_all sep dir = true)
   ∨ (str_truthy dir = true ∧ str_endswith sep dir = false)) →
  no_sep name = true →
  path_split (path_join dir name) = (dir, name).
Proof.
  intros Hd Hn. unfold path_join. rewrite (no_sep_startswith _ Hn).
  destruct Hd as [-> | [[Ht Ha] | [Ht He]]].
  - simpl. unfold path_split.
    rewrite (str_rfind_none sep name Hn). change (Z.to_nat (-1 + 1)) with 0%nat.
    by rewrite str_take_0, str_drop_0.
  - rewrite Ht, (str_all_endswith_true _ _ Ht Ha). simpl.
    destruct (str_endswith_snoc _ _ (str_all_endswith_true _ _ Ht Ha)) as [d' Hd'].
    unfold path_split.
    assert (str_rfind sep (dir +:+ name) = Z.of_nat (String.length d')) as ->.
    { rewrite Hd', str_app_assoc. simpl. by apply str_rfind_last. }
    replace (Z.to_nat (Z.of_nat (String.length d') + 1)) with (String.length dir).
    2:{ rewrite Hd', str_length_app. simpl. lia. }
    by rewrite str_take_app, str_drop_app, Ht, Ha.
  - rewrite Ht, He. simpl. by apply path_split_dir.
Qed.

Lemma sidecar_path_unfold (audio_path : string) (is_synced : pyval) :
  Pkg.sidecar_path audio_path is_synced
  = path_join (fst (path_split audio_path))
      (fst (path_splitext (snd (path_split audio_path))) +:+ sidecar_ext is_synced).
Proof.
  unfold Pkg.sidecar_path, sidecar_ext.
  destruct (path_split audio_path) as [directory fname]. simpl.
  by destruct (path_splitext fname) as [stem ext].
Qed.

Lemma sidecar_name_no_sep (audio_path : string) (is_synced : pyval) :
  no_sep (fst (path_splitext (snd (path_split audio_path)))
          +:+ sidecar_ext is_synced) = true.
Proof.
  rewrite no_sep_app, path_splitext_stem by apply path_split_tail.
  unfold sidecar_ext. by destruct (truthy is_synced).
Qed.

(** X6.  For every path, well formed or not, the sidecar lies in the
    directory of the audio file: splitting the sidecar path gives back the
    directory of the audio path, and as file name the stem of the audio
    file followed by .lrc or .txt. *)
Theorem sidecar_lies_beside_the_audio_file (audio_path : string)
    (is_synced : pyval) :
  path_split (Pkg.sidecar_path audio_path is_synced)
  = (fst (path_split audio_path),
     fst (path_splitext (snd (path_split audio_path)))
     +:+ (if truthy is_synced then ".lrc" else ".txt"))
  ∧ Plugin.sidecar_path audio_path is_synced
    = Pkg.sidecar_path audio_path is_synced.
Proof.
  split; [|reflexivity].
  rewrite sidecar_path_unfold.
  apply path_split_join; [apply path_split_head | apply sidecar_name_no_sep].
Qed.

Lemma sidecar_path_inj (p1 p2 : string) (f1 f2 : pyval) :
  Pkg.sidecar_path p1 f1 = Pkg.sidecar_path p2 f2 →
  fst (path_split p1) = fst (path_split p2)
  ∧ fst (path_splitext (snd (path_split p1))) +:+ sidecar_ext f1
    = fst (path_splitext (snd (path_split p2))) +:+ sidecar_ext f2.
Proof.
  intros H. apply (f_equal path_split) in H.
  rewrite !sidecar_path_unfold in H.
  rewrite !path_split_join in H
    by (apply path_split_head || apply sidecar_name_no_sep).
  by inversion H.
Qed.

(** X7.  The name of the sidecar depends on the flag through its truth
    value only, and the two sidecars of one audio file never coincide:
    [.lrc] for a true flag and [.txt] for a false one are different
    paths, whatever the audio path. *)
Theorem lrc_and_txt_never_collide (audio_path : string) (f1 f2 : pyval) :
  Pkg.sidecar_path audio_path f1 = Pkg.sidecar_path audio_path f2
  ↔ truthy f1 = truthy f2.
Proof.
  split.
  - intros [_ H]%sidecar_path_inj.
    apply (inj (String.app _)) in H. unfold sidecar_ext in H.
    by destruct (truthy f1), (truthy f2).
  - intros H. unfold Pkg.sidecar_path. by rewrite H.
Qed.

Lemma str_endswith_str_app (pre suffix : string) :
  str_endswith_str suffix (pre +:+ suffix) = true.
Proof.
  unfold str_endswith_str. rewrite str_length_app.
  replace (String.length pre + String.length suffix - String.length suffix)%nat
    with (String.length pre) by lia.
  rewrite str_drop_app, String.eqb_refl, andb_true_r.
  apply Nat.leb_le. lia.
Qed.

Lemma sidecar_path_ends (audio_path : string) (is_synced : pyval) :
  str_endswith_str (sidecar_ext is_synced)
    (Pkg.sidecar_path audio_path is_synced) = true.
Proof.
  rewrite sidecar_path_unfold. unfold path_join.
  repeat case_match.
  - apply str_endswith_str_app.
  - rewrite <- str_app_assoc. apply str_endswith_str_app.
  - change (String sep (?a +:+ ?b)) with (String sep a +:+ b).
    rewrite <- str_app_assoc. apply str_endswith_str_app.
Qed.

Lemma outcome_lookup env (audio_path other : string) (st st' : State) :
  sidecar_outcome env audio_path st st' →
  (∀ f, other ≠ file_of env (Pkg.sidecar_path audio_path f)) →
  st_fs st' !! other = st_fs st !! other.
Proof.
  intros [-> | (f & s & data & _ & ->)] Hne; [done |].
  by rewrite lookup_insert_ne.
Qed.

Lemma audio_is_no_sidecar (audio_path : string) (f : pyval) :
  str_endswith_str ".lrc" audio_path = false →
  str_endswith_str ".txt" audio_path = false →
  Pkg.sidecar_path audio_path f ≠ audio_path.
Proof.
  intros Hl Ht E. pose proof (sidecar_path_ends audio_path f) as H.
  rewrite E in H. unfold sidecar_ext in H.
  destruct (truthy f); congruence.
Qed.

(** X8.  A run writes no file but the one its sidecar path names.  Every
    file that is not the file under the .lrc sidecar path nor the file
    under the .txt sidecar path is as it was after the worker and after
    the plugins hook, whatever the service answered; this holds for the
    audio file as for any other, as long as no sidecar path names it.  As
    a text the sidecar path is never the audio path, unless that ends in
    .lrc or .txt. *)
Theorem only_the_sidecar_file_is_written (env : Env) (file : File)
    (audio_path : string) (snapshot : gmap string string) (st : State)
    (other : string) :
  file_filename file = Ret audio_path →
  other ≠ file_of env (Pkg.sidecar_path audio_path (VBool true)) →
  other ≠ file_of env (Pkg.sidecar_path audio_path (VBool false)) →
  st_fs (snd (Pkg._worker_for_file env audio_path snapshot st)) !! other
  = st_fs st !! other
  ∧ st_fs (snd (Plugin.lrclib_simple_file_post_save env file st)) !! other
    = st_fs st !! other
  ∧ (str_endswith_str ".lrc" audio_path = false →
     str_endswith_str ".txt" audio_path = false →
     ∀ f, Pkg.sidecar_path audio_path f ≠ audio_path).
Proof.
  intros Hf H1 H2.
  pose proof (Pkg_worker_outcome env audio_path snapshot st) as Hw.
  pose proof (Plugin_hook_outcome env file audio_path Hf st) as Hp.
  assert (∀ f, other ≠ file_of env (Pkg.sidecar_path audio_path f)) as Hne.
  { intros f E.
    change (Pkg.sidecar_path audio_path f)
      with (Pkg.sidecar_path audio_path (VBool (truthy f))) in E.
    destruct (truthy f); congruence. }
  split; [by eapply outcome_lookup |]. split; [by eapply outcome_lookup |].
  intros Hl Ht f. by apply audio_is_no_sidecar.
Qed.

Lemma only_the_sidecar_file_is_written_witness :
  st_fs (snd (Pkg._worker_for_file world_ok "/music/a/Song.flac"
                (snapshot_of "X" "Y" "Z" "3:45") st_old)) !! "/music/a/Song.flac"
  = st_fs st_old !! "/music/a/Song.flac".
Proof.
  destruct (only_the_sidecar_file_is_written world_ok (song_file "3:45")
              "/music/a/Song.flac" (snapshot_of "X" "Y" "Z" "3:45") st_old
              "/music/a/Song.flac" eq_refl) as [H _];
    [discriminate | discriminate |].
  exact H.
Defined.

(** Two spellings of one path name one file: on a host that reads
    repeated separators as one, the worker of /music//a//Song.mp3 writes
    the file /music/a/Song.lrc, the sidecar of /music/a/Song.flac as
    well. *)
Lemma two_spellings_share_one_sidecar :
  Pkg.sidecar_path "/music//a//Song.mp3" (VBool true) = "/music//a/Song.lrc"
  ∧ Pkg.sidecar_path "/music/a/Song.flac" (VBool true) = "/music/a/Song.lrc"
  ∧ st_fs (snd (Pkg._worker_for_file
                  (host squeeze_sep 0 (Ret tt) 0
                     (Ret (response (VInt 1) (VStr "la") VNone)) true)
                  "/music//a//Song.mp3" (snapshot_of "X" "Y" "Z" "3:45") st_old))
    !! "/music/a/Song.lrc" = Some "la".
Proof. split; [reflexivity |]. split; reflexivity. Qed.

(** ** File names without an extension *)

Lemma str_all_no_sep (dots : string) :
  str_all extsep dots = true → no_sep dots = true.
Proof.
  induction dots as [|a s IH]; [done |]. cbn [str_all].
  intros [Ha Hs]%andb_prop. apply Ascii.eqb_eq in Ha. subst a.
  unfold no_sep. simpl. by apply IH.
Qed.

Lemma path_splitext_bare (fname : string) :
  bare_name fname → path_splitext fname = (fname, "").
Proof.
  intros (dots & rest & -> & Hd & Hnd & Hns). unfold path_splitext.
  rewrite (str_rfind_none sep).
  2:{ change (no_sep (dots +:+ rest) = true).
      by rewrite no_sep_app, str_all_no_sep, Hns. }
  destruct (str_truthy dots) eqn:Ht.
  - destruct (str_endswith_snoc _ _ (str_all_endswith_true _ _ Ht Hd)) as [d' ->].
    rewrite str_app_assoc. simpl.
    rewrite (str_rfind_last extsep d' rest Hnd).
    replace (Z.of_nat (String.length d') - (-1 + 1))
      with (Z.of_nat (String.length d')) by lia.
    rewrite Nat2Z.id. change (Z.to_nat (-1 + 1)) with 0%nat.
    rewrite leading_dots_end_app.
    rewrite str_all_app in Hd. apply andb_prop in Hd as [-> _].
    by rewrite andb_false_r.
  - destruct dots; [|done]. simpl.
    by rewrite (str_rfind_none extsep rest Hnd).
Qed.

(** X9.  A file name without an extension keeps its whole name: when the
    dots of the name, if any, all come in front (README, .hidden, ..x),
    the sidecar is the whole name followed by .lrc or .txt, in the same
    directory; [splitext] takes nothing off. *)
Theorem names_without_extension_keep_the_whole_name (dir fname : string)
    (is_synced : pyval) :
  str_truthy dir = true → str_endswith sep dir = false → bare_name fname →
  Pkg.sidecar_path (dir +:+ String sep fname) is_synced
  = dir +:+ String sep (fname +:+ (if truthy is_synced then ".lrc" else ".txt"))
  ∧ Plugin.sidecar_path (dir +:+ String sep fname) is_synced
    = dir +:+ String sep (fname +:+ (if truthy is_synced then ".lrc" else ".txt")).
Proof.
  intros Hd He Hb.
  assert (no_sep fname = true) as Hns.
  { destruct Hb as (dots & rest & -> & Hdots & _ & Hrest).
    by rewrite no_sep_app, str_all_no_sep, Hrest. }
  assert (Pkg.sidecar_path (dir +:+ String sep fname) is_synced
          = dir +:+ String sep
              (fname +:+ (if truthy is_synced then ".lrc" else ".txt"))) as E.
  { rewrite sidecar_path_unfold, path_split_dir by done. simpl.
    rewrite path_splitext_bare by done. simpl.
    apply path_join_dir; [done | done |].
    apply no_sep_startswith. rewrite no_sep_app, Hns. unfold sidecar_ext.
    by destruct (truthy is_synced). }
  split; [exact E | exact E].
Qed.

Lemma names_without_extension_keep_the_whole_name_witness :
  Pkg.sidecar_path "/music/a/.hidden" (VBool true) = "/music/a/.hidden.lrc".
Proof.
  assert (bare_name ".hidden") as Hb.
  { exists ".", "hidden". split; [reflexivity |]. split; [reflexivity |].
    split; reflexivity. }
  destruct (names_without_extension_keep_the_whole_name "/music/a" ".hidden"
              (VBool true) eq_refl eq_refl Hb) as [H _].
  exact H.
Defined.

(** ** Runs one after the other *)

Lemma write_effect_shape env out lyrics :
  (∀ fs, write_effect env out lyrics fs = fs)
  ∨ ∃ c, ∀ fs, write_effect env out lyrics fs = <[file_of env out := c]> fs.
Proof.
  unfold write_effect.
  destruct (open_for_writing env out); [|by left].
  destruct lyrics; try (right; by exists "").
  destruct (write_text env out _); right; eauto.
Qed.

Lemma pipeline_effect_shape env timeout audio_path snapshot :
  (∀ fs, pipeline_effect env timeout audio_path snapshot fs = fs)
  ∨ ∃ f c, ∀ fs, pipeline_effect env timeout audio_path snapshot fs
                 = <[file_of env (Pkg.sidecar_path audio_path f) := c]> fs.
Proof.
  unfold pipeline_effect.
  destruct (query_of snapshot) as [q|]; [|by left].
  destruct (fetch_value env q timeout) as [[lyrics is_synced]|]; [|by left].
  destruct (truthy lyrics); [|by left].
  destruct (write_effect_shape env (Pkg.sidecar_path audio_path is_synced) lyrics)
    as [H | [c H]]; [by left | right; eauto].
Qed.

Lemma pipeline_effect_idem env timeout audio_path snapshot fs :
  pipeline_effect env timeout audio_path snapshot
    (pipeline_effect env timeout audio_path snapshot fs)
  = pipeline_effect env timeout audio_path snapshot fs.
Proof.
  destruct (pipeline_effect_shape env timeout audio_path snapshot)
    as [H | (f & c & H)]; rewrite !H; [done | apply insert_insert_eq].
Qed.

Lemma pipeline_effect_comm env t1 t2 p1 p2 s1 s2 fs :
  (∀ f1 f2, file_of env (Pkg.sidecar_path p1 f1)
            ≠ file_of env (Pkg.sidecar_path p2 f2)) →
  pipeline_effect env t1 p1 s1 (pipeline_effect env t2 p2 s2 fs)
  = pipeline_effect env t2 p2 s2 (pipeline_effect env t1 p1 s1 fs).
Proof.
  intros Hne.
  destruct (pipeline_effect_shape env t1 p1 s1) as [H1 | (f1 & c1 & H1)];
    destruct (pipeline_effect_shape env t2 p2 s2) as [H2 | (f2 & c2 & H2)];
    rewrite ?H1, ?H2, ?H1; try done.
  by apply insert_insert_ne.
Qed.

Lemma sends_twice rs a b c : sends rs a b → sends rs b c → sends (rs ++ rs) a c.
Proof. unfold sends. intros H1 H2. by rewrite H2, H1, <- app_assoc. Qed.

(** X10.  Saving the same file a second time in the same world changes no
    file any further: the second run of the worker, or of the plugins
    hook, leaves the files as the first left them.  Nothing is cached: the
    second run sends again the request the first one sent. *)
Theorem saving_twice_changes_nothing_more (env : Env) (file : File)
    (audio_path : string) (snapshot : gmap string string) (st : State) :
  file_filename file = Ret audio_path →
  file_metadata file = Ret snapshot →
  let w := Pkg._worker_for_file env audio_path snapshot in
  let h := Plugin.lrclib_simple_file_post_save env file in
  st_fs (snd (w (snd (w st)))) = st_fs (snd (w st))
  ∧ st_fs (snd (h (snd (h st)))) = st_fs (snd (h st))
  ∧ sends (pipeline_requests env 15 snapshot ++ pipeline_requests env 15 snapshot)
      st (snd (w (snd (w st))))
  ∧ sends (pipeline_requests env 10 snapshot ++ pipeline_requests env 10 snapshot)
      st (snd (h (snd (h st)))).
Proof.
  intros Hf Hm w h. subst w h.
  destruct (Pkg_worker_run env audio_path snapshot st) as (st1 & E1 & F1 & S1).
  destruct (Pkg_worker_run env audio_path snapshot st1) as (st2 & E2 & F2 & S2).
  destruct (Plugin_hook_run env file audio_path snapshot st Hf Hm)
    as (st3 & E3 & F3 & S3).
  destruct (Plugin_hook_run env file audio_path snapshot st3 Hf Hm)
    as (st4 & E4 & F4 & S4).
  rewrite E1. simpl. rewrite E2. simpl. rewrite E3. simpl. rewrite E4. simpl.
  split; [by rewrite F2, F1, pipeline_effect_idem |].
  split; [by rewrite F4, F3, pipeline_effect_idem |].
  split; by eapply sends_twice.
Qed.

Lemma saving_twice_changes_nothing_more_witness :
  st_fs (snd (Pkg._worker_for_file world_ok "/music/a/Song.flac"
                (snapshot_of "X" "Y" "Z" "3:45")
                (snd (Pkg._worker_for_file world_ok "/music/a/Song.flac"
                        (snapshot_of "X" "Y" "Z" "3:45") st_old))))
  = st_fs (snd (Pkg._worker_for_file world_ok "/music/a/Song.flac"
                  (snapshot_of "X" "Y" "Z" "3:45") st_old)).
Proof.
  destruct (saving_twice_changes_nothing_more world_ok (song_file "3:45")
              "/music/a/Song.flac" (snapshot_of "X" "Y" "Z" "3:45") st_old
              eq_refl eq_refl) as [H _].
  exact H.
Defined.

(** X11.  Workers that write different files do not interfere: when no
    sidecar path of the one audio file names the file a sidecar path of
    the other names, the files are the same whichever of the two runs
    comes first.  Paths that differ only as texts are not enough: two
    spellings of one path share their sidecars, and there the later run
    wins. *)
Theorem workers_of_different_files_commute (env : Env)
    (p1 p2 : string) (s1 s2 : gmap string string) (st : State) :
  (∀ f1 f2, file_of env (Pkg.sidecar_path p1 f1)
            ≠ file_of env (Pkg.sidecar_path p2 f2)) →
  st_fs (snd (Pkg._worker_for_file env p2 s2
                (snd (Pkg._worker_for_file env p1 s1 st))))
  = st_fs (snd (Pkg._worker_for_file env p1 s1
                  (snd (Pkg._worker_for_file env p2 s2 st)))).
Proof.
  intros Hne.
  destruct (Pkg_worker_run env p1 s1 st) as (a & Ea & Fa & _).
  destruct (Pkg_worker_run env p2 s2 a) as (b & Eb & Fb & _).
  destruct (Pkg_worker_run env p2 s2 st) as (c & Ec & Fc & _).
  destruct (Pkg_worker_run env p1 s1 c) as (d & Ed & Fd & _).
  rewrite Ea. simpl. rewrite Eb. simpl. rewrite Ec. simpl. rewrite Ed. simpl.
  rewrite Fb, Fa, Fd, Fc. symmetry. by apply pipeline_effect_comm.
Qed.

Lemma workers_of_different_files_commute_witness :
  st_fs (snd (Pkg._worker_for_file world_ok "/music/b/Song.flac"
                (snapshot_of "X" "Y" "Z" "3:45")
                (snd (Pkg._worker_for_file world_ok "/music/a/Song.flac"
                        (snapshot_of "X" "Y" "Z" "3:45") st_old))))
  = st_fs (snd (Pkg._worker_for_file world_ok "/music/a/Song.flac"
                  (snapshot_of "X" "Y" "Z" "3:45")
                  (snd (Pkg._worker_for_file world_ok "/music/b/Song.flac"
                          (snapshot_of "X" "Y" "Z" "3:45") st_old)))).
Proof.
  apply (workers_of_different_files_commute world_ok
           "/music/a/Song.flac" "/music/b/Song.flac").
  intros f1 f2.
  change (Pkg.sidecar_path "/music/a/Song.flac" f1)
    with (Pkg.sidecar_path "/music/a/Song.flac" (VBool (truthy f1))).
  change (Pkg.sidecar_path "/music/b/Song.flac" f2)
    with (Pkg.sidecar_path "/music/b/Song.flac" (VBool (truthy f2))).
  destruct (truthy f1), (truthy f2); discriminate.
Defined.

(** ** Where returned lyrics come from *)

Lemma lyrics_of_dict_sound d lyrics is_synced :
  lyrics_of_dict d = Ret (lyrics, is_synced) → truthy lyrics = true →
  truthy (dict_get d "id") = true
  ∧ sized lyrics
  ∧ ((is_synced = VBool true ∧ d !! "syncedLyrics" = Some lyrics)
     ∨ (is_synced = VBool false ∧ no_text d "syncedLyrics"
        ∧ d !! "plainLyrics" = Some lyrics)).
Proof.
  unfold lyrics_of_dict, dict_get, NotFound.
  destruct (truthy (default VNone (d !! "id"))); simpl;
    [|intros [= <- <-]; done].
  intros H Ht. split; [done |].
  destruct (d !! "syncedLyrics") as [sy|] eqn:Es; simpl in H.
  - destruct (truthy sy) eqn:Hsy.
    + destruct sy; simpl in H; try done; injection H as <- <-;
        (split; [done | by left]).
    + destruct (d !! "plainLyrics") as [pl|] eqn:Ep; simpl in H;
        [|injection H as <- <-; done].
      destruct (truthy pl) eqn:Hpl; [|injection H as <- <-; done].
      destruct pl; simpl in H; try done; injection H as <- <-;
        (split; [done | right; split; [done | split; [|done]]]);
        right; eauto.
  - destruct (d !! "plainLyrics") as [pl|] eqn:Ep; simpl in H;
      [|injection H as <- <-; done].
    destruct (truthy pl) eqn:Hpl; [|injection H as <- <-; done].
    destruct pl; simpl in H; try done; injection H as <- <-;
      (split; [done | right; split; [done | split; [by left | done]]]).
Qed.

Lemma lyrics_of_sound obj lyrics is_synced :
  lyrics_of obj = Ret (lyrics, is_synced) → truthy lyrics = true →
  ∃ d, the_object obj = Some d ∧ lyrics_of_dict d = Ret (lyrics, is_synced).
Proof.
  intros H Ht.
  destruct obj as [| | | | |l|d]; simpl in H;
    try (injection H as <- <-; done); [|by exists d].
  destruct l as [|[| | | | | |d] rest];
    try (injection H as <- <-; done).
  by exists d.
Qed.

Lemma fetch_value_sound env q timeout lyrics is_synced :
  fetch_value env q timeout = Ret (lyrics, is_synced) → truthy lyrics = true →
  ∃ obj d, answered env q timeout (Answer obj) ∧ the_object obj = Some d
    ∧ truthy (dict_get d "id") = true
    ∧ sized lyrics
    ∧ ((is_synced = VBool true ∧ d !! "syncedLyrics" = Some lyrics)
       ∨ (is_synced = VBool false ∧ no_text d "syncedLyrics"
          ∧ d !! "plainLyrics" = Some lyrics)).
Proof.
  unfold fetch_value. intros H Ht.
  destruct (urlencode env q) as [qs|] eqn:Eq; [|done].
  destruct (create_unverified_context env) as [[]|] eqn:Ec; [|done].
  destruct (service_answer env (request_url qs) timeout) as [|obj] eqn:Ea;
    simpl in H; [injection H as <- <-; done |].
  destruct (lyrics_of_sound _ _ _ H Ht) as (d & Hd & Hl).
  exists obj, d. split; [by exists qs |]. split; [done |].
  by apply lyrics_of_dict_sound.
Qed.

(** X12.  Lyrics the client returns are lyrics the service sent.  When
    either client returns a text that counts as true, a request went out
    and was answered by a value that is an object with a true id, or an
    array that begins with one; the text is that object's syncedLyrics
    when the flag is True, and its plainLyrics, the syncedLyrics being
    missing or empty, when the flag is False; and the flag is one of the
    two. *)
Theorem returned_lyrics_come_from_the_answer (env : Env) (q : Query)
    (st : State) (lyrics is_synced : pyval) :
  (fst (Pkg._fetch_lyrics_from_lrclib env q st) = Ret (lyrics, is_synced)
   ∨ fst (Plugin._fetch_lyrics_from_lrclib env q st) = Ret (lyrics, is_synced)) →
  truthy lyrics = true →
  ∃ timeout obj d,
    answered env q timeout (Answer obj) ∧ the_object obj = Some d
    ∧ truthy (dict_get d "id") = true
    ∧ sized lyrics
    ∧ ((is_synced = VBool true ∧ d !! "syncedLyrics" = Some lyrics)
       ∨ (is_synced = VBool false ∧ no_text d "syncedLyrics"
          ∧ d !! "plainLyrics" = Some lyrics)).
Proof.
  rewrite Pkg_fetch_fst, Plugin_fetch_fst. intros [H | H] Ht.
  - exists 15. by apply fetch_value_sound.
  - exists 10. by apply fetch_value_sound.
Qed.

Lemma returned_lyrics_come_from_the_answer_witness :
  ∃ timeout obj d,
    answered world_ok query_X timeout (Answer obj) ∧ the_object obj = Some d
    ∧ truthy (dict_get d "id") = true
    ∧ sized (VStr "la")
    ∧ ((VBool true = VBool true ∧ d !! "syncedLyrics" = Some (VStr "la"))
       ∨ (VBool true = VBool false ∧ no_text d "syncedLyrics"
          ∧ d !! "plainLyrics" = Some (VStr "la"))).
Proof.
  apply (returned_lyrics_come_from_the_answer world_ok query_X st0);
    [left; reflexivity | reflexivity].
Defined.

(** ** The text in the sidecar *)

Lemma utf8_two (c : ascii) :
  (code c <? 128) = false →
  (code (chr (Z.lor 192 (Z.shiftr (code c) 6))) <? 128) = false
  ∧ ((code (chr (Z.lor 192 (Z.shiftr (code c) 6))) =? 194)
     || (code (chr (Z.lor 192 (Z.shiftr (code c) 6))) =? 195))
    && (128 <=? code (chr (Z.lor 128 (Z.land (code c) 63))))
    && (code (chr (Z.lor 128 (Z.land (code c) 63))) <? 192) = true
  ∧ chr (Z.lor (Z.shiftl (Z.land (code (chr (Z.lor 192 (Z.shiftr (code c) 6)))) 3) 6)
               (Z.land (code (chr (Z.lor 128 (Z.land (code c) 63)))) 63)) = c.
Proof.
  destruct c as [[] [] [] [] [] [] [] []]; vm_compute; intros H;
    first [discriminate H | (split; [reflexivity | split; reflexivity])].
Qed.

Lemma utf8_decode_encode (s : string) : utf8_decode (utf8_encode s) = Some s.
Proof.
  induction s as [|c s IH]; [done |].
  cbn [utf8_encode]. destruct (code c <? 128) eqn:E.
  - cbn [utf8_decode]. by rewrite E, IH.
  - destruct (utf8_two c E) as (H1 & H2 & H3).
    cbn [utf8_decode]. by rewrite H1, H2, H3, IH.
Qed.

(** X13.  The sidecar reads back as the lyrics.  After a write that
    succeeds the sidecar holds octets that decode, as UTF-8, to exactly
    the text the writer was given, for either copy; so two different
    texts never leave the same file. *)
Theorem sidecar_reads_back_as_the_lyrics (env : Env) (file : File)
    (audio_path text : string) (is_synced : pyval) (st : State) :
  file_filename file = Ret audio_path →
  open_for_writing env (Pkg.sidecar_path audio_path is_synced) = Ret tt →
  write_text env (Pkg.sidecar_path audio_path is_synced) (utf8_encode text)
    = Ret tt →
  (∃ data,
     st_fs (snd (Pkg._write_sidecar_for_path env audio_path (VStr text)
                   is_synced st))
       !! file_of env (Pkg.sidecar_path audio_path is_synced) = Some data
     ∧ utf8_decode data = Some text)
  ∧ (∃ data,
       st_fs (snd (Plugin._write_sidecar_for_file env file (VStr text)
                     is_synced st))
         !! file_of env (Pkg.sidecar_path audio_path is_synced) = Some data
       ∧ utf8_decode data = Some text)
  ∧ ∀ text', utf8_encode text' = utf8_encode text → text' = text.
Proof.
  intros Hf Ho Hw.
  destruct (Pkg_writer_ok env audio_path text is_synced st Ho Hw) as [_ E1].
  destruct (Plugin_writer_ok env file audio_path text is_synced st Hf Ho Hw)
    as [_ E2].
  split; [|split].
  - exists (utf8_encode text). rewrite E1, lookup_insert_eq.
    split; [done | apply utf8_decode_encode].
  - exists (utf8_encode text). rewrite E2, lookup_insert_eq.
    split; [done | apply utf8_decode_encode].
  - intros text' H. apply (f_equal utf8_decode) in H.
    rewrite !utf8_decode_encode in H. by injection H.
Qed.

Lemma sidecar_reads_back_as_the_lyrics_witness :
  ∃ data,
    st_fs (snd (Pkg._write_sidecar_for_path world_ok "/music/a/Song.flac"
                  (VStr (String (chr 233) "t" +:+ String (chr 233) ""))
                  (VBool false) st0))
      !! "/music/a/Song.txt" = Some data
    ∧ utf8_decode data = Some (String (chr 233) "t" +:+ String (chr 233) "").
Proof.
  destruct (sidecar_reads_back_as_the_lyrics world_ok (song_file "3:45")
              "/music/a/Song.flac"
              (String (chr 233) "t" +:+ String (chr 233) "")
              (VBool false) st0 eq_refl eq_refl eq_refl) as [H _].
  exact H.
Defined.

(** ** Lengths written with digits only *)

Lemma is_digit_code (c : ascii) : is_digit c = true → 0 ≤ code c - 48 ≤ 9.
Proof.
  unfold is_digit, digit_value.
  destruct ((48 <=? code c) && (code c <=? 57)) eqn:E; [|done].
  apply andb_prop in E as [H1%Z.leb_le H2%Z.leb_le]. lia.
Qed.

Lemma decimal_value_nonneg (g : string) (acc : Z) :
  str_forall is_digit g = true → 0 ≤ acc → 0 ≤ decimal_value acc g.
Proof.
  revert acc. induction g as [|c g IH]; intros acc; [done |].
  simpl. intros [Hc Hg]%andb_prop Hacc.
  apply IH; [done |]. pose proof (is_digit_code c Hc). lia.
Qed.

Lemma digits_nonneg (g : string) : digits g = true → 0 ≤ decimal_value 0 g.
Proof.
  unfold digits. intros [_ H]%andb_prop. by apply decimal_value_nonneg.
Qed.

(** X14.  A length written with digits only, minutes and seconds around
    one colon, gives the duration 60 * minutes + seconds, and a query that
    is built from it has a positive duration: a negative duration can only
    come from a sign in the text. *)
Theorem digit_lengths_give_positive_durations (snapshot : gmap string string)
    (file : File) (a b : string) (q : Query) (st : State) :
  file_metadata file = Ret snapshot →
  digits a = true → digits b = true →
  snapshot !! "~length" = Some (a +:+ String ":" b) →
  fst (Pkg._build_query_from_snapshot snapshot st) = Ret (Some q) →
  duration q = decimal_value 0 a * 60 + decimal_value 0 b
  ∧ 0 < duration q
  ∧ fst (Plugin._build_query_from_file file st) = Ret (Some q).
Proof.
  intros Hm Ha Hb Hl. rewrite Pkg_build_fst, Plugin_build_fst, Hm.
  intros [= Hq]. rewrite Hq.
  apply query_of_complete in Hq as (_ & _ & _ & _ & _ & Hd & Hnz).
  assert (duration q = decimal_value 0 a * 60 + decimal_value 0 b) as E.
  { destruct Hd as (ls & m & sec & Hls & Hshape & ->).
    rewrite Hl in Hls. injection Hls as <-.
    apply two_integers_parts in Hshape as [[Sa _] [Sb _]].
    by rewrite (int_syntax_unique _ _ _ Sa (digits_syntax a Ha)),
      (int_syntax_unique _ _ _ Sb (digits_syntax b Hb)). }
  split; [done |]. split; [|done].
  pose proof (digits_nonneg a Ha). pose proof (digits_nonneg b Hb). lia.
Qed.

Lemma digit_lengths_give_positive_durations_witness :
  duration query_X = decimal_value 0 "3" * 60 + decimal_value 0 "45"
  ∧ 0 < duration query_X
  ∧ fst (Plugin._build_query_from_file (song_file "3:45") st0)
    = Ret (Some query_X).
Proof.
  apply (digit_lengths_give_positive_durations (snapshot_of "X" "Y" "Z" "3:45")
           (song_file "3:45") "3" "45" query_X st0); reflexivity.
Defined.

(** ** A successful run, event by event *)

Lemma with_events_app a b st :
  with_events b (with_events a st) = with_events (a ++ b) st.
Proof. unfold with_events. simpl. by rewrite <- app_assoc. Qed.

Lemma log_exact lvl fmt st : log lvl fmt st = (Ret tt, with_events [Log lvl fmt] st).
Proof. done. Qed.

Lemma emit_exact ev st : emit ev st = (Ret tt, with_events [ev] st).
Proof. done. Qed.

Lemma Pkg_parse_length_ok ls d st :
  length_duration ls = Some d → Pkg.parse_length ls st = (Ret (Some d), st).
Proof.
  unfold Pkg.parse_length, length_duration, duration_of.
  destruct ls as [ls|]; [|done]. destruct (str_truthy ls); [|done]. run.
  destruct (str_split ":" ls) as [|p0 [|p1 [|? ?]]]; try done.
  destruct (py_int p0); [|done]. destruct (py_int p1); [|done].
  by intros [= <-].
Qed.

Lemma Plugin_parse_length_ok ls d st :
  length_duration ls = Some d → Plugin.parse_length ls st = (Ret (Some d), st).
Proof.
  unfold Plugin.parse_length, length_duration, duration_of.
  destruct ls as [ls|]; [|done]. destruct (str_truthy ls); [|done]. run.
  destruct (str_split ":" ls) as [|p0 [|p1 [|? ?]]]; try done.
  destruct (py_int p0); [|done]. destruct (py_int p1); [|done].
  by intros [= <-].
Qed.

Lemma query_of_duration snapshot q :
  query_of snapshot = Some q →
  ∃ d, length_duration (snapshot !! "~length") = Some d
       ∧ negb (opt_truthy (snapshot !! "title") && opt_truthy (snapshot !! "artist")
               && optint_truthy (Some d)) = false.
Proof.
  unfold query_of. cbv zeta.
  destruct (length_duration (snapshot !! "~length")) as [d|].
  - destruct (negb _) eqn:E; [done |]. intros _. by exists d.
  - by rewrite !andb_false_r.
Qed.

Lemma Pkg_build_exact snapshot q st :
  query_of snapshot = Some q →
  Pkg._build_query_from_snapshot snapshot st
  = (Ret (Some q),
     with_events [Log Info "LRCLIB SIMPLE: Query → title=%r, artist=%r, album=%r, duration=%r"] st).
Proof.
  intros Hq. destruct (query_of_duration _ _ Hq) as (d & Hd & Ht).
  unfold query_of in Hq. cbv zeta in Hq. rewrite Hd, Ht in Hq.
  unfold Pkg._build_query_from_snapshot. cbv zeta.
  unfold mbind at 1, M_bind at 1. rewrite (Pkg_parse_length_ok _ d) by done.
  unfold mbind at 1, M_bind at 1. rewrite log_exact.
  rewrite Ht. unfold mret, M_ret. by rewrite Hq.
Qed.

Lemma Plugin_build_exact file md q st :
  file_metadata file = Ret md → query_of md = Some q →
  Plugin._build_query_from_file file st
  = (Ret (Some q),
     with_events [Log Info "LRCLIB SIMPLE: Query → title=%r, artist=%r, album=%r, duration=%r"] st).
Proof.
  intros Hm Hq. destruct (query_of_duration _ _ Hq) as (d & Hd & Ht).
  unfold query_of in Hq. cbv zeta in Hq. rewrite Hd, Ht in Hq.
  unfold Plugin._build_query_from_file.
  unfold mbind at 1, M_bind at 1, lift at 1. rewrite Hm. cbv zeta.
  unfold mbind at 1, M_bind at 1. rewrite (Plugin_parse_length_ok _ d) by done.
  unfold mbind at 1, M_bind at 1. rewrite log_exact.
  rewrite Ht. unfold mret, M_ret. by rewrite Hq.
Qed.

Lemma Pkg_pick_exact obj d text synced st :
  the_object obj = Some d → truthy (dict_get d "id") = true →
  chosen d (Found text synced) →
  Pkg.pick_lyrics obj st
  = (Ret (Found text synced),
     with_events [Log Info (if synced
                            then "LRCLIB SIMPLE: Synced lyrics found (%d chars)"
                            else "LRCLIB SIMPLE: Plain lyrics found (%d chars)")] st).
Proof.
  intros Ho Hid Hc.
  assert (Pkg.pick_lyrics obj = Pkg.pick_lyrics (VDict d)) as ->.
  { destruct obj as [| | | | |[|[] ?]|]; simpl in Ho; try done;
      by injection Ho as ->. }
  unfold Pkg.pick_lyrics. cbv zeta. rewrite Hid. simpl.
  inversion Hc as [s Hs Hne | p Hno Hp Hne |]; subst.
  - unfold dict_get at 1. rewrite Hs. simpl.
    destruct text; [done |]. simpl. unfold dict_get. by rewrite Hs.
  - rewrite (no_text_falsy _ _ Hno). unfold dict_get at 1. rewrite Hp. simpl.
    destruct text; [done |]. simpl. unfold dict_get. by rewrite Hp.
Qed.

Lemma Plugin_pick_exact obj :
  Plugin.pick_lyrics obj = Pkg.pick_lyrics obj.
Proof. done. Qed.

Section FoundRun.
Context (env : Env) (q : Query) (qs : string) (resp : Response)
  (data : string) (obj : pyval) (d : gmap string pyval)
  (text : string) (synced : bool).
Context (Hqs : urlencode env q = Ret qs)
  (Hctx : create_unverified_context env = Ret tt)
  (Hdata : resp_read resp = Ret data)
  (Hobj : json_loads env (decode_utf8_replace env data) = Ret obj)
  (Hd : the_object obj = Some d)
  (Hid : truthy (dict_get d "id") = true)
  (Hc : chosen d (Found text synced)).

Lemma Pkg_fetch_exact st :
  urlopen env (request_url qs) USER_AGENT 15 = Ret resp →
  Pkg._fetch_lyrics_from_lrclib env q st
  = (Ret (Found text synced),
     with_events
       [ Log Info "LRCLIB SIMPLE: Requesting %s";
         HttpGet (request_url qs) USER_AGENT 15;
         Log Info "LRCLIB SIMPLE: HTTP status=%r";
         Log Info (if synced
                   then "LRCLIB SIMPLE: Synced lyrics found (%d chars)"
                   else "LRCLIB SIMPLE: Plain lyrics found (%d chars)") ] st).
Proof.
  intros Hopen. unfold Pkg._fetch_lyrics_from_lrclib.
  unfold mbind at 1, M_bind at 1, lift at 1. rewrite Hqs. cbv zeta.
  change (Pkg.LRCLIB_URL +:+ qs) with (request_url qs).
  unfold mbind at 1, M_bind at 1. rewrite log_exact.
  unfold mbind at 1, M_bind at 1, lift at 1. rewrite Hctx.
  unfold mbind at 1, M_bind at 1, try_except at 1.
  unfold mbind at 1, M_bind at 1. rewrite emit_exact.
  unfold mbind at 1, M_bind at 1, lift at 1. rewrite Hopen.
  unfold mbind at 1, M_bind at 1. rewrite log_exact.
  unfold mbind at 1, M_bind at 1, lift at 1. rewrite Hdata.
  unfold mret at 1, M_ret at 1.
  unfold mbind at 1, M_bind at 1, try_except at 1.
  unfold mbind at 1, M_bind at 1, lift at 1. rewrite Hobj.
  unfold mret at 1, M_ret at 1.
  rewrite (Pkg_pick_exact obj d text synced) by done.
  by rewrite !with_events_app.
Qed.

Lemma Plugin_fetch_exact st :
  urlopen env (request_url qs) USER_AGENT 10 = Ret resp →
  Plugin._fetch_lyrics_from_lrclib env q st
  = (Ret (Found text synced),
     with_events
       [ Log Info "LRCLIB SIMPLE: Requesting %s";
         HttpGet (request_url qs) USER_AGENT 10;
         Log Info "LRCLIB SIMPLE: HTTP status=%r";
         Log Info (if synced
                   then "LRCLIB SIMPLE: Synced lyrics found (%d chars)"
                   else "LRCLIB SIMPLE: Plain lyrics found (%d chars)") ] st).
Proof.
  intros Hopen. unfold Plugin._fetch_lyrics_from_lrclib.
  unfold mbind at 1, M_bind at 1, lift at 1. rewrite Hqs. cbv zeta.
  change (Plugin.LRCLIB_URL +:+ "?" +:+ qs) with (request_url qs).
  unfold mbind at 1, M_bind at 1. rewrite log_exact.
  unfold mbind at 1, M_bind at 1, lift at 1. rewrite Hctx.
  unfold mbind at 1, M_bind at 1, try_except at 1.
  unfold mbind at 1, M_bind at 1. rewrite emit_exact.
  unfold mbind at 1, M_bind at 1, lift at 1. rewrite Hopen.
  unfold mbind at 1, M_bind at 1. rewrite log_exact.
  unfold mbind at 1, M_bind at 1, lift at 1. rewrite Hdata.
  unfold mret at 1, M_ret at 1.
  unfold mbind at 1, M_bind at 1, try_except at 1.
  unfold mbind at 1, M_bind at 1, lift at 1. rewrite Hobj.
  unfold mret at 1, M_ret at 1.
  rewrite Plugin_pick_exact, (Pkg_pick_exact obj d text synced) by done.
  by rewrite !with_events_app.
Qed.

End FoundRun.

Lemma Pkg_writer_exact env audio_path text is_synced st :
  open_for_writing env (Pkg.sidecar_path audio_path is_synced) = Ret tt →
  write_text env (Pkg.sidecar_path audio_path is_synced) (utf8_encode text) = Ret tt →
  Pkg._write_sidecar_for_path env audio_path (VStr text) is_synced st
  = (Ret tt,
     {| st_fs := <[file_of env (Pkg.sidecar_path audio_path is_synced) := utf8_encode text]> (st_fs st);
        st_trace := st_trace st ++ [Log Info "LRCLIB SIMPLE: Writing sidecar %s";
                                    Log Info "LRCLIB SIMPLE: Successfully wrote sidecar"];
        st_threads := st_threads st |}).
Proof.
  intros Ho Hw. unfold Pkg._write_sidecar_for_path, open_and_write. run.
  rewrite Ho. simpl. rewrite Hw. simpl.
  by rewrite insert_insert_eq, <- app_assoc.
Qed.

Lemma Plugin_writer_exact env file audio_path text is_synced st :
  file_filename file = Ret audio_path →
  open_for_writing env (Pkg.sidecar_path audio_path is_synced) = Ret tt →
  write_text env (Pkg.sidecar_path audio_path is_synced) (utf8_encode text) = Ret tt →
  Plugin._write_sidecar_for_file env file (VStr text) is_synced st
  = (Ret tt,
     {| st_fs := <[file_of env (Pkg.sidecar_path audio_path is_synced) := utf8_encode text]> (st_fs st);
        st_trace := st_trace st ++ [Log Info "LRCLIB SIMPLE: Writing sidecar %s";
                                    Log Info "LRCLIB SIMPLE: Successfully wrote sidecar"];
        st_threads := st_threads st |}).
Proof.
  intros Hf Ho Hw. rewrite sidecar_path_same in *.
  unfold Plugin._write_sidecar_for_file, open_and_write. run.
  rewrite Hf. simpl. rewrite Ho. simpl. rewrite Hw. simpl.
  by rewrite insert_insert_eq, <- app_assoc.
Qed.

(** X15.  A run that finds lyrics, event by event.  For a complete
    snapshot, when the request is answered by an object with a true id
    whose chosen text is [text], and the disk takes the write, the worker
    ends in exactly this state: the sidecar holds the text, no thread was
    started, and the trace grew by the start entry, the query, the
    announcement of the request, the request itself with the user agent
    and a timeout of 15 seconds, its status, the find, and the two entries
    of the write, in this order and with nothing else.  The plugins hook
    does the same with its own first entry and a timeout of 10 seconds. *)
Theorem found_run_event_by_event (env : Env) (file : File)
    (audio_path : string) (snapshot : gmap string string) (q : Query)
    (qs : string) (resp : Response) (data : string) (obj : pyval)
    (d : gmap string pyval) (text : string) (synced : bool) (st : State) :
  file_filename file = Ret audio_path →
  file_metadata file = Ret snapshot →
  complete snapshot q →
  urlencode env q = Ret qs →
  create_unverified_context env = Ret tt →
  urlopen env (request_url qs) USER_AGENT 15 = Ret resp →
  urlopen env (request_url qs) USER_AGENT 10 = Ret resp →
  resp_read resp = Ret data →
  json_loads env (decode_utf8_replace env data) = Ret obj →
  the_object obj = Some d →
  truthy (dict_get d "id") = true →
  chosen d (Found text synced) →
  open_for_writing env (Pkg.sidecar_path audio_path (VBool synced)) = Ret tt →
  write_text env (Pkg.sidecar_path audio_path (VBool synced)) (utf8_encode text)
    = Ret tt →
  Pkg._worker_for_file env audio_path snapshot st
  = (Ret tt,
     {| st_fs := <[file_of env (Pkg.sidecar_path audio_path (VBool synced)) := utf8_encode text]>
                   (st_fs st);
        st_trace := st_trace st
                    ++ Log Info "LRCLIB SIMPLE: Worker started for %s"
                       :: found_events (request_url qs) 15 synced;
        st_threads := st_threads st |})
  ∧ Plugin.lrclib_simple_file_post_save env file st
    = (Ret tt,
       {| st_fs := <[file_of env (Pkg.sidecar_path audio_path (VBool synced)) := utf8_encode text]>
                     (st_fs st);
          st_trace := st_trace st
                      ++ Log Info "LRCLIB SIMPLE: Post-save → %s"
                         :: found_events (request_url qs) 10 synced;
          st_threads := st_threads st |}).
Proof.
  intros Hf Hm Hq%query_of_complete Hqs Hctx Hopen Hopen' Hdata Hobj Hd Hid Hc
    Ho Hw.
  assert (truthy (VStr text) = true) as Ht.
  { inversion Hc; subst; by destruct text. }
  split.
  - unfold Pkg._worker_for_file, try_except.
    unfold mbind at 1, M_bind at 1. rewrite log_exact.
    unfold mbind at 1, M_bind at 1. rewrite (Pkg_build_exact _ q) by done.
    unfold mbind at 1, M_bind at 1.
    rewrite (Pkg_fetch_exact env q qs resp data obj d text synced) by done.
    unfold Found. cbv beta iota. rewrite Ht. change (negb true) with false.
    cbv iota.
    rewrite Pkg_writer_exact by done.
    unfold with_events, found_events. simpl.
    by rewrite <- !app_assoc.
  - unfold Plugin.lrclib_simple_file_post_save, try_except.
    unfold mbind at 1, M_bind at 1, lift at 1. rewrite Hf.
    unfold mbind at 1, M_bind at 1. rewrite log_exact.
    unfold mbind at 1, M_bind at 1. rewrite (Plugin_build_exact _ snapshot q) by done.
    unfold mbind at 1, M_bind at 1.
    rewrite (Plugin_fetch_exact env q qs resp data obj d text synced) by done.
    unfold Found. cbv beta iota. rewrite Ht. change (negb true) with false.
    cbv iota.
    rewrite (Plugin_writer_exact _ _ audio_path) by done.
    unfold with_events, found_events. simpl.
    by rewrite <- !app_assoc.
Qed.

Lemma found_run_event_by_event_witness :
  Pkg._worker_for_file world_ok "/music/a/Song.flac"
    (snapshot_of "X" "Y" "Z" "3:45") st0
  = (Ret tt,
     {| st_fs := <["/music/a/Song.lrc" := "la"]> ∅;
        st_trace :=
          Log Info "LRCLIB SIMPLE: Worker started for %s"
          :: found_events
               "https://lrclib.net/api/get?track_name=X&artist_name=Y&album_name=Z&duration=225"
               15 true;
        st_threads := [] |}).
Proof.
  assert (chosen (<["id" := VInt 1]> (<["syncedLyrics" := VStr "la"]>
                    (<["plainLyrics" := VNone]> ∅))) (Found "la" true)) as Hc.
  { apply chosen_synced; [reflexivity | discriminate]. }
  destruct (found_run_event_by_event world_ok (song_file "3:45")
              "/music/a/Song.flac" (snapshot_of "X" "Y" "Z" "3:45") query_X
              (py_urlencode query_X) {| resp_read := Ret "body" |} "body"
              (response (VInt 1) (VStr "la") VNone)
              (<["id" := VInt 1]> (<["syncedLyrics" := VStr "la"]>
                 (<["plainLyrics" := VNone]> ∅)))
              "la" true st0 eq_refl eq_refl complete_X eq_refl eq_refl
              eq_refl eq_refl eq_refl eq_refl eq_refl eq_refl Hc eq_refl eq_refl)
    as [H _].
  exact H.
Defined.

(** ** The query string *)

Lemma str_split_no_sep c (s : string) :
  str_forall (λ a, negb (Ascii.eqb a c)) s = true → str_split c s = [s].
Proof.
  induction s as [|a s IH]; [done |]. simpl.
  intros [Ha Hs]%andb_prop. apply negb_true_iff in Ha. by rewrite Ha, IH.
Qed.

Lemma str_split_at c (a b : string) :
  str_forall (λ x, negb (Ascii.eqb x c)) a = true →
  str_split c (a +:+ String c b) = a :: str_split c b.
Proof.
  induction a as [|x a IH]; simpl.
  - intros _. by rewrite Ascii.eqb_refl.
  - intros [Hx Ha]%andb_prop. apply negb_true_iff in Hx. by rewrite Hx, IH.
Qed.

Lemma str_forall_impl (P Q : ascii → bool) (s : string) :
  (∀ c, P c = true → Q c = true) →
  str_forall P s = true → str_forall Q s = true.
Proof.
  intros HPQ. induction s as [|c s IH]; [done |]. simpl.
  intros [Hc Hs]%andb_prop. by rewrite (HPQ c Hc), IH.
Qed.

Lemma hex_digits_unreserved (c : ascii) :
  is_unreserved (hex_digit (Z.shiftr (code c) 4)) = true
  ∧ is_unreserved (hex_digit (Z.land (code c) 15)) = true.
Proof. destruct c as [[] [] [] [] [] [] [] []]; by vm_compute. Qed.

Lemma quote_octets_safe (s : string) : str_forall url_safe (quote_octets s) = true.
Proof.
  induction s as [|c s IH]; [done |]. cbn [quote_octets].
  destruct (is_unreserved c) eqn:Eu.
  - cbn [str_forall]. unfold url_safe at 1. by rewrite Eu, IH.
  - destruct (code c =? 32); cbn [str_forall]; rewrite IH; [done |].
    destruct (hex_digits_unreserved c) as [H1 H2].
    unfold url_safe at 2 3. by rewrite H1, H2.
Qed.

Lemma quote_plus_safe (s : string) : str_forall url_safe (quote_plus s) = true.
Proof. apply quote_octets_safe. Qed.

Lemma url_safe_not (x : ascii) (s : string) :
  url_safe x = false →
  str_forall url_safe s = true →
  str_forall (λ a, negb (Ascii.eqb a x)) s = true.
Proof.
  intros Hx. apply str_forall_impl. intros c Hc.
  destruct (Ascii.eqb c x) eqn:E; [|done].
  apply Ascii.eqb_eq in E. congruence.
Qed.

Lemma key_no_amp (k v : string) :
  str_forall (λ a, negb (Ascii.eqb a "&")) k = true →
  str_forall url_safe v = true →
  str_forall (λ a, negb (Ascii.eqb a "&")) (k +:+ v) = true.
Proof.
  intros Hk Hv. rewrite str_forall_app, Hk. simpl.
  by apply (url_safe_not "&").
Qed.

Lemma py_urlencode_split (q : Query) :
  str_split "&" (py_urlencode q)
  = [ "track_name=" +:+ quote_plus (track_name q);
      "artist_name=" +:+ quote_plus (artist_name q);
      "album_name=" +:+ quote_plus (album_name q);
      "duration=" +:+ quote_plus (str_of_int (duration q)) ].
Proof.
  transitivity
    (str_split "&"
       (("track_name=" +:+ quote_plus (track_name q))
        +:+ String "&"
          (("artist_name=" +:+ quote_plus (artist_name q))
           +:+ String "&"
             (("album_name=" +:+ quote_plus (album_name q))
              +:+ String "&"
                ("duration=" +:+ quote_plus (str_of_int (duration q))))))).
  { unfold py_urlencode. by rewrite !str_app_assoc. }
  rewrite !str_split_at, str_split_no_sep
    by (apply key_no_amp; [done | apply quote_plus_safe]).
  done.
Qed.

(** X16.  Metadata cannot add parameters to the request.  In a world whose
    [urlencode] is Python's, the query string of the request a worker
    sends splits at its ampersands into exactly four parameters,
    track_name, artist_name, album_name and duration in this order, and
    the value of each is made of letters, digits, [_.-~], [+] and [%]
    only: an ampersand, an equals sign, a space or a letter outside ASCII
    in a title never reaches the query string as it is. *)
Theorem metadata_cannot_add_parameters (env : Env) (audio_path : string)
    (snapshot : gmap string string) (q : Query) (st : State) :
  complete snapshot q →
  urlencode env q = Ret (py_urlencode q) →
  create_unverified_context env = Ret tt →
  ∃ qs,
    sends [(Pkg.LRCLIB_URL +:+ qs, USER_AGENT, 15)] st
      (snd (Pkg._worker_for_file env audio_path snapshot st))
    ∧ str_split "&" qs
      = [ "track_name=" +:+ quote_plus (track_name q);
          "artist_name=" +:+ quote_plus (artist_name q);
          "album_name=" +:+ quote_plus (album_name q);
          "duration=" +:+ quote_plus (str_of_int (duration q)) ]
    ∧ str_forall url_safe (quote_plus (track_name q)) = true
    ∧ str_forall url_safe (quote_plus (artist_name q)) = true
    ∧ str_forall url_safe (quote_plus (album_name q)) = true
    ∧ str_forall url_safe (quote_plus (str_of_int (duration q))) = true.
Proof.
  intros Hq%query_of_complete Hu Hc. exists (py_urlencode q).
  split; [|split; [apply py_urlencode_split |]].
  - destruct (Pkg_worker_run env audio_path snapshot st) as (st1 & E1 & _ & S1).
    rewrite E1. simpl.
    unfold pipeline_requests, fetch_requests in S1.
    by rewrite Hq, Hu, Hc in S1.
  - repeat split; apply quote_plus_safe.
Qed.

Lemma metadata_cannot_add_parameters_witness :
  ∃ qs,
    sends [(Pkg.LRCLIB_URL +:+ qs, USER_AGENT, 15)] st0
      (snd (Pkg._worker_for_file world_ok "/music/a/Song.flac"
              (snapshot_of "Rock & Roll" "AC/DC" "" "3:45") st0))
    ∧ str_split "&" qs
      = [ "track_name=Rock+%26+Roll"; "artist_name=AC%2FDC"; "album_name=";
          "duration=225" ]
    ∧ str_forall url_safe "Rock+%26+Roll" = true
    ∧ str_forall url_safe "AC%2FDC" = true
    ∧ str_forall url_safe "" = true
    ∧ str_forall url_safe "225" = true.
Proof.
  assert (complete (snapshot_of "Rock & Roll" "AC/DC" "" "3:45")
            {| track_name := "Rock & Roll"; artist_name := "AC/DC";
               album_name := ""; duration := 225 |}) as Hq.
  { split; [reflexivity |]. split; [done |]. split; [reflexivity |].
    split; [done |]. split; [reflexivity |]. split; [|done].
    exists "3:45", 3, 45. split; [reflexivity |].
    split; [apply shape_3_45 | reflexivity]. }
  exact (metadata_cannot_add_parameters world_ok "/music/a/Song.flac"
           (snapshot_of "Rock & Roll" "AC/DC" "" "3:45")
           {| track_name := "Rock & Roll"; artist_name := "AC/DC";
              album_name := ""; duration := 225 |} st0 Hq eq_refl eq_refl).
Defined.

(** * Failures, stage by stage *)

Lemma wrote_logged lvl fmt st st' :
  logged lvl fmt st st' → wrote (Log lvl fmt) st st'.
Proof. intros [mid H]. by exists mid, []. Qed.

Lemma wrote_frame ev a b c d :
  trace_grows a b → wrote ev b c → trace_grows c d → wrote ev a d.
Proof.
  intros [m1 H1] (x & y & H2) [m2 H3]. exists (m1 ++ x), (y ++ m2).
  rewrite H3, H2, H1. by rewrite <- !app_assoc.
Qed.

Lemma wrote_last ev a b :
  trace_grows a b → wrote ev a (with_events [ev] b).
Proof. intros [m H]. exists m, []. simpl. by rewrite H, <- app_assoc. Qed.

Lemma trace_grows_refl st : trace_grows st st.
Proof. apply (frame_refl (R := trace_grows)). Qed.

Lemma trace_grows_events evs st : trace_grows st (with_events evs st).
Proof. by exists evs. Qed.

(** ** The steps of a run *)

Lemma builder_run c file snapshot st :
  file_metadata file = Ret snapshot →
  ∃ st1, builder_of c file snapshot st = (Ret (query_of snapshot), st1)
         ∧ same_fs st st1 ∧ trace_grows st st1.
Proof.
  intros Hm. destruct c; simpl.
  - destruct (Pkg_build_run snapshot st) as (st1 & E & F & _ & G). eauto.
  - destruct (Plugin_build_run file snapshot st Hm) as (st1 & E & F & _ & G). eauto.
Qed.

Lemma client_run c env q st :
  ∃ st1, client_of c env q st = (fetch_value env q (timeout_of c), st1)
         ∧ same_fs st st1 ∧ trace_grows st st1
         ∧ sends (fetch_requests env q (timeout_of c)) st st1.
Proof.
  destruct c; simpl.
  - destruct (Pkg_fetch_run env q st) as (st1 & E & F & S & G). eauto 6.
  - destruct (Plugin_fetch_run env q st) as (st1 & E & F & S & G). eauto 6.
Qed.

Lemma writer_returns c env file audio_path lyrics is_synced st :
  file_filename file = Ret audio_path →
  fst (writer_of c env file audio_path lyrics is_synced st) = Ret tt.
Proof.
  intros Hn. apply returns_unit. destruct c; simpl.
  - apply Pkg_writer_never_raises.
  - unfold Plugin._write_sidecar_for_file.
    unfold mbind at 1, M_bind at 1, lift at 1. rewrite Hn.
    apply never_raises_bind; [apply never_raises_log |]. intros _.
    apply never_raises_try. intros e. apply never_raises_log.
Qed.

Lemma run_steps c env file audio_path snapshot st :
  file_filename file = Ret audio_path →
  file_metadata file = Ret snapshot →
  ∃ st1 st2,
    trace_grows st st1 ∧ same_fs st st1
    ∧ builder_of c file snapshot st1 = (Ret (query_of snapshot), st2)
    ∧ match query_of snapshot with
      | None => snd (run_of c env file audio_path snapshot st) = st2
      | Some q =>
          ∃ st3,
            client_of c env q st2 = (fetch_value env q (timeout_of c), st3)
            ∧ match fetch_value env q (timeout_of c) with
              | Raise e =>
                  snd (run_of c env file audio_path snapshot st)
                  = with_events [catch_all_entry c] st3
              | Ret (lyrics, is_synced) =>
                  if truthy lyrics
                  then snd (run_of c env file audio_path snapshot st)
                       = snd (writer_of c env file audio_path lyrics is_synced st3)
                  else trace_grows st3
                         (snd (run_of c env file audio_path snapshot st))
                       ∧ same_fs st3
                           (snd (run_of c env file audio_path snapshot st))
              end
      end.
Proof.
  intros Hn Hm.
  assert (∃ st1, trace_grows st st1 ∧ same_fs st st1
            ∧ run_of c env file audio_path snapshot st
              = try_except
                  (query ← builder_of c file snapshot;
                   match query with
                   | None => mret tt
                   | Some q =>
                       '(lyrics, is_synced) ← client_of c env q;
                       if negb (truthy lyrics)
                       then log Info (match c with
                                      | Package => "LRCLIB SIMPLE: No lyrics found for %s"
                                      | Plugins => "LRCLIB SIMPLE: No lyrics found"
                                      end)
                       else writer_of c env file audio_path lyrics is_synced
                   end)
                  (λ exc, match catch_all_entry c with
                          | Log lvl fmt => log lvl fmt
                          | HttpGet _ _ _ => mret tt
                          end) st1) as (st1 & G1 & F1 & E).
  { destruct c; simpl.
    - exists (with_events [Log Info "LRCLIB SIMPLE: Worker started for %s"] st).
      split; [apply trace_grows_events |]. split; [done |].
      unfold Pkg._worker_for_file, try_except.
      unfold mbind at 1, M_bind at 1. rewrite log_exact. reflexivity.
    - exists (with_events [Log Info "LRCLIB SIMPLE: Post-save → %s"] st).
      split; [apply trace_grows_events |]. split; [done |].
      unfold Plugin.lrclib_simple_file_post_save, try_except.
      unfold mbind at 1, M_bind at 1, lift at 1. rewrite Hn.
      unfold mbind at 1, M_bind at 1. rewrite log_exact. reflexivity. }
  rewrite E. clear E. unfold try_except, mbind, M_bind.
  destruct (builder_run c file snapshot st1 Hm) as (st2 & E2 & F2 & G2).
  exists st1, st2. split; [done |]. split; [done |]. split; [done |].
  rewrite E2.
  destruct (query_of snapshot) as [q|]; [|reflexivity].
  destruct (client_run c env q st2) as (st3 & E3 & F3 & G3 & _).
  exists st3. split; [done |].
  rewrite E3.
  destruct (fetch_value env q (timeout_of c)) as [[lyrics is_synced]|e].
  2:{ by destruct c. }
  destruct (truthy lyrics); simpl.
  - pose proof (writer_returns c env file audio_path lyrics is_synced st3 Hn) as Hr.
    destruct (writer_of c env file audio_path lyrics is_synced st3) as [r st4].
    simpl in Hr. by subst r.
  - split; [apply trace_grows_events | done].
Qed.

(** ** What each stage leaves in the log *)

Lemma builder_wrote c file snapshot ls p0 p1 st :
  file_metadata file = Ret snapshot →
  snapshot !! "~length" = Some ls →
  str_split ":" ls = [p0; p1] →
  py_int p0 = Raise ValueError ∨ py_int p1 = Raise ValueError →
  query_of snapshot = None
  ∧ wrote (parse_entry c) st (snd (builder_of c file snapshot st)).
Proof.
  intros Hm Hl Hs Hp.
  assert (str_truthy ls = true) as Ht by (by destruct ls).
  split.
  { unfold query_of. cbv zeta. rewrite Hl. unfold length_duration, duration_of.
    rewrite Ht, Hs.
    assert (match py_int p0, py_int p1 with
            | Ret m, Ret s => Some (m * 60 + s)
            | _, _ => None
            end = None) as ->.
    { destruct Hp as [-> | Hp1]; [done |]. rewrite Hp1. by destruct (py_int p0). }
    simpl. by rewrite !andb_false_r. }
  destruct (parse_length_logs_failure ls p0 p1 st Hs Hp) as [H1 H2].
  destruct c; simpl.
  - unfold Pkg._build_query_from_snapshot. cbv zeta. rewrite Hl.
    apply wrote_logged in H1.
    unfold mbind at 1, M_bind at 1.
    pose proof (Pkg_parse_length_fst (Some ls) st) as Hf.
    destruct (Pkg.parse_length (Some ls) st) as [r st1]. simpl in *. subst r.
    eapply wrote_frame; [apply trace_grows_refl | exact H1 |].
    match goal with |- trace_grows _ (snd (?m st1)) =>
      assert (keeps trace_grows m) as Hk by frame; apply Hk end.
  - unfold Plugin._build_query_from_file.
    unfold mbind at 1, M_bind at 1, lift at 1. rewrite Hm. cbv zeta. rewrite Hl.
    apply wrote_logged in H2.
    unfold mbind at 1, M_bind at 1.
    pose proof (Plugin_parse_length_fst (Some ls) st) as Hf.
    destruct (Plugin.parse_length (Some ls) st) as [r st1]. simpl in *. subst r.
    eapply wrote_frame; [apply trace_grows_refl | exact H2 |].
    match goal with |- trace_grows _ (snd (?m st1)) =>
      assert (keeps trace_grows m) as Hk by frame; apply Hk end.
Qed.

Lemma client_wrote c env q qs st :
  urlencode env q = Ret qs →
  create_unverified_context env = Ret tt →
  (∀ e, urlopen env (request_url qs) USER_AGENT (timeout_of c) = Raise e →
     wrote (request_entry c) st (snd (client_of c env q st))
     ∧ fetch_value env q (timeout_of c) = Ret NotFound)
  ∧ (∀ resp e,
       urlopen env (request_url qs) USER_AGENT (timeout_of c) = Ret resp →
       resp_read resp = Raise e →
       wrote (request_entry c) st (snd (client_of c env q st))
       ∧ fetch_value env q (timeout_of c) = Ret NotFound)
  ∧ (∀ resp data e,
       urlopen env (request_url qs) USER_AGENT (timeout_of c) = Ret resp →
       resp_read resp = Ret data →
       json_loads env (decode_utf8_replace env data) = Raise e →
       wrote (decode_entry c) st (snd (client_of c env q st))
       ∧ fetch_value env q (timeout_of c) = Ret NotFound).
Proof.
  intros Hu Hc.
  assert (∀ t, fetch_value env q t
               = fetch_result (service_answer env (request_url qs) t)) as Hv.
  { intros t. unfold fetch_value. by rewrite Hu, Hc. }
  unfold service_answer in Hv.
  split; [|split].
  - intros e He. split; [|by rewrite Hv, He].
    destruct c; simpl in *;
      unfold Pkg._fetch_lyrics_from_lrclib, Plugin._fetch_lyrics_from_lrclib;
      unfold request_url, Pkg.LRCLIB_URL, Plugin.LRCLIB_URL in *;
      simpl in He; run; rewrite Hu; simpl; rewrite Hc; simpl; rewrite He; simpl;
      eexists [_; _], []; by rewrite <- !app_assoc.
  - intros resp e Ho He. split; [|by rewrite Hv, Ho, He].
    destruct c; simpl in *;
      unfold Pkg._fetch_lyrics_from_lrclib, Plugin._fetch_lyrics_from_lrclib;
      unfold request_url, Pkg.LRCLIB_URL, Plugin.LRCLIB_URL in *;
      simpl in Ho; run; rewrite Hu; simpl; rewrite Hc; simpl; rewrite Ho; simpl;
      rewrite He; simpl;
      eexists [_; _; _], []; by rewrite <- !app_assoc.
  - intros resp data e Ho Hr Hj. split; [|by rewrite Hv, Ho, Hr, Hj].
    destruct c; simpl in *;
      unfold Pkg._fetch_lyrics_from_lrclib, Plugin._fetch_lyrics_from_lrclib;
      unfold request_url, Pkg.LRCLIB_URL, Plugin.LRCLIB_URL in *;
      simpl in Ho; run; rewrite Hu; simpl; rewrite Hc; simpl; rewrite Ho; simpl;
      rewrite Hr; simpl; rewrite Hj; simpl;
      eexists [_; _; _], []; by rewrite <- !app_assoc.
Qed.

Lemma writer_shows c env file audio_path lyrics is_synced st :
  file_filename file = Ret audio_path →
  (∀ e, open_for_writing env (Pkg.sidecar_path audio_path is_synced) = Raise e →
     shows write_entry (st_fs st) st
       (snd (writer_of c env file audio_path lyrics is_synced st)))
  ∧ (open_for_writing env (Pkg.sidecar_path audio_path is_synced) = Ret tt →
     (∀ text e,
        lyrics = VStr text →
        write_text env (Pkg.sidecar_path audio_path is_synced) (utf8_encode text)
          = Raise e →
        shows write_entry
          (<[file_of env (Pkg.sidecar_path audio_path is_synced)
             := str_take (written_on_failure env
                            (Pkg.sidecar_path audio_path is_synced)
                            (utf8_encode text))
                  (utf8_encode text)]> (st_fs st))
          st (snd (writer_of c env file audio_path lyrics is_synced st)))
     ∧ ((∀ text, lyrics ≠ VStr text) →
        shows write_entry
          (<[file_of env (Pkg.sidecar_path audio_path is_synced) := ""]> (st_fs st))
          st (snd (writer_of c env file audio_path lyrics is_synced st)))).
Proof.
  intros Hn.
  assert (∀ st', wrote write_entry st
            {| st_fs := st';
               st_trace := (st_trace st ++ [Log Info "LRCLIB SIMPLE: Writing sidecar %s"])
                           ++ [Log Error "LRCLIB SIMPLE: Failed to write sidecar: %r"];
               st_threads := st_threads st |}) as Hw.
  { intros st'. exists [Log Info "LRCLIB SIMPLE: Writing sidecar %s"], [].
    simpl. by rewrite <- app_assoc. }
  split; [|intros Ho; split].
  - intros e He. destruct c; simpl;
      unfold Pkg._write_sidecar_for_path, Plugin._write_sidecar_for_file,
        open_and_write; rewrite <- ?sidecar_path_same; run;
      rewrite ?Hn; simpl; rewrite He; simpl; (split; [apply Hw | done]).
  - intros text e -> He. destruct c; simpl;
      unfold Pkg._write_sidecar_for_path, Plugin._write_sidecar_for_file,
        open_and_write; rewrite <- ?sidecar_path_same; run;
      rewrite ?Hn; simpl; rewrite Ho; simpl; rewrite He; simpl;
      (split; [apply Hw | by rewrite insert_insert_eq]).
  - intros Hno. destruct c; simpl;
      unfold Pkg._write_sidecar_for_path, Plugin._write_sidecar_for_file,
        open_and_write; rewrite <- ?sidecar_path_same; run;
      rewrite ?Hn; simpl; rewrite Ho; simpl;
      (destruct lyrics; simpl; try (split; [apply Hw | done]));
      by destruct (Hno s).
Qed.

Lemma shows_from a b c ev fs :
  trace_grows a b → shows ev fs b c → shows ev fs a c.
Proof.
  intros G [Hw Hf]. split; [|done].
  eapply wrote_frame; [exact G | exact Hw | apply trace_grows_refl].
Qed.

Lemma shows_last ev a b :
  trace_grows a b → st_fs b = st_fs a → shows ev (st_fs a) a (with_events [ev] b).
Proof. intros G F. split; [by apply wrote_last | done]. Qed.

Lemma shows_then ev a b c d :
  trace_grows a b → wrote ev b c → trace_grows c d →
  st_fs d = st_fs a → shows ev (st_fs a) a d.
Proof. intros G1 Hw G2 F. split; [by eapply wrote_frame | done]. Qed.

Lemma Plugin_hook_stage_fs env file st :
  (∃ e, file_filename file = Raise e) ∨ (∃ e, file_metadata file = Raise e) →
  st_fs (snd (Plugin.lrclib_simple_file_post_save env file st)) = st_fs st.
Proof.
  unfold Plugin.lrclib_simple_file_post_save, Plugin._build_query_from_file.
  intros [[e He] | [e He]].
  - run. by rewrite He.
  - run. destruct (file_filename file); simpl; [|done]. by rewrite He.
Qed.

Lemma an_escape_is_contained c env file audio_path snapshot q e st :
  file_filename file = Ret audio_path →
  file_metadata file = Ret snapshot →
  query_of snapshot = Some q →
  fetch_value env q (timeout_of c) = Raise e →
  shows (catch_all_entry c) (st_fs st) st
    (snd (run_of c env file audio_path snapshot st)).
Proof.
  intros Hn Hm Hq Hv.
  destruct (run_steps c env file audio_path snapshot st Hn Hm)
    as (st1 & st2 & G1 & F1 & E2 & Hrest).
  destruct (builder_run c file snapshot st1 Hm) as (st2' & E2' & F2 & G2).
  rewrite E2 in E2'. injection E2' as <-.
  rewrite Hq in Hrest. destruct Hrest as (st3 & E3 & Hrest).
  destruct (client_run c env q st2) as (st3' & E3' & F3 & G3 & _).
  rewrite E3 in E3'. injection E3' as <-.
  rewrite Hv in Hrest. rewrite Hrest.
  apply shows_last.
  - eapply frame_trans; [exact G1 |]. by eapply frame_trans.
  - unfold same_fs in *. congruence.
Qed.

(** ** The client *)

(** C6, in the code.  The docstring of the client promises (None, None) on
    failure, and the client keeps the promise for every failure of the
    request and of the decoding, and for every value it turns down.  It
    breaks it in two places: what [urlencode] or the creation of the SSL
    context raises leaves the client, no request sent; and a lyrics field
    that holds a true value without a length makes [len] raise TypeError
    out of the client.  The client touches no file.  The callers contain
    what escapes: the run returns normally, leaves the files as they were
    and ends with the entry of its catch-all.  With an SSL context that
    cannot be created both clients raise OSError. *)
Theorem client_raises_before_the_request (env : Env) (q : Query) (st : State) :
  client_gives env q st NoAnswer (Ret NotFound)
  ∧ (∀ obj, rejected obj → client_gives env q st (Answer obj) (Ret NotFound))
  ∧ (∀ c e,
       urlencode env q = Raise e
       ∨ (∃ qs, urlencode env q = Ret qs)
         ∧ create_unverified_context env = Raise e →
       fst (client_of c env q st) = Raise e
       ∧ sends [] st (snd (client_of c env q st)))
  ∧ (∀ obj d,
       the_object obj = Some d → truthy (dict_get d "id") = true →
       choice d (Raise TypeError) →
       client_gives env q st (Answer obj) (Raise TypeError))
  ∧ (∀ c, st_fs (snd (client_of c env q st)) = st_fs st)
  ∧ (∀ c file audio_path snapshot e,
       file_filename file = Ret audio_path →
       file_metadata file = Ret snapshot →
       complete snapshot q →
       fst (client_of c env q st) = Raise e →
       fst (run_of c env file audio_path snapshot st) = Ret tt
       ∧ shows (catch_all_entry c) (st_fs st) st
           (snd (run_of c env file audio_path snapshot st)))
  ∧ fst (Pkg._fetch_lyrics_from_lrclib world_no_ssl query_X st0) = Raise OSError
  ∧ fst (Plugin._fetch_lyrics_from_lrclib world_no_ssl query_X st0)
    = Raise OSError.
Proof.
  split; [by apply client_gives_result |].
  split; [intros obj Hrej%lyrics_of_rejected; by apply client_gives_result |].
  split.
  { intros c e He.
    destruct (client_run c env q st) as (st1 & E & _ & _ & S). rewrite E. simpl.
    unfold fetch_value, fetch_requests in *.
    destruct He as [He | [[qs Hq] He]].
    - by rewrite He in *.
    - by rewrite Hq, He in *. }
  split; [intros obj d Hobj Hid Hr; by eapply client_gives_choice |].
  split.
  { intros c. destruct (client_run c env q st) as (st1 & E & F & _).
    by rewrite E. }
  split; [|by split].
  intros c file audio_path snapshot e Hn Hm Hq%query_of_complete He.
  split.
  { apply returns_unit. destruct c; simpl.
    - apply Pkg_worker_never_raises.
    - apply Plugin_hook_never_raises. }
  eapply an_escape_is_contained; try done.
  destruct (client_run c env q st) as (st1 & E & _). rewrite E in He.
  exact He.
Qed.

(** ** The hooks *)

Lemma run_of_any_file c env file audio_path snapshot :
  (c = Plugins →
   file_filename file = Ret audio_path ∧ file_metadata file = Ret snapshot) →
  ∃ file',
    file_filename file' = Ret audio_path ∧ file_metadata file' = Ret snapshot
    ∧ run_of c env file audio_path snapshot
      = run_of c env file' audio_path snapshot.
Proof.
  destruct c; intros H.
  - by exists {| file_filename := Ret audio_path; file_metadata := Ret snapshot |}.
  - destruct H as [Hn Hm]; [done |]. by exists file.
Qed.

Lemma run_outcome c env file audio_path snapshot st :
  file_filename file = Ret audio_path →
  sidecar_outcome env audio_path st
    (snd (run_of c env file audio_path snapshot st)).
Proof.
  intros Hn. destruct c; simpl.
  - apply Pkg_worker_outcome.
  - by apply Plugin_hook_outcome.
Qed.

(** C7, as the code has it.  Whatever the file reference and the world,
    the hook of either copy and the thread the package hook starts return
    normally, and the package hook itself sends nothing and touches no
    file.  Every failure the stages can meet is caught and leaves an entry
    in the log; the theorem follows a run stage by stage, each stage under
    the success of the ones before: reading the path and the metadata and
    starting the thread in the hooks; then, in the worker of the package
    copy and in the hook of the plugins copy, the two calls of [int],
    [urlencode], the SSL context, opening the request, reading the
    response, decoding it, taking the length of the lyrics, opening the
    sidecar, writing it.  Up to the opening of the sidecar a failure
    leaves every file as it was.  After it, the file the sidecar path
    names holds nothing, when the lyrics are not a string, or the octets
    that had reached it when the write failed: whatever it held before is
    lost.  In any case a run changes no file, or this one only. *)
Theorem hooks_contain_failures (env : Env) (file : File) (st : State) :
  (fst (Pkg.lrclib_simple_file_post_save env file st) = Ret tt
   ∧ fst (Plugin.lrclib_simple_file_post_save env file st) = Ret tt
   ∧ ∀ t st', fst (run_task env t st') = Ret tt
              ∧ run_task env t
                = run_of Package env file (task_audio_path t) (task_snapshot t))
  ∧ offline st (snd (Pkg.lrclib_simple_file_post_save env file st))
  ∧ (∀ e, file_filename file = Raise e →
       shows (Log Error "LRCLIB SIMPLE: Cannot read file filename: %r")
         (st_fs st) st (snd (Pkg.lrclib_simple_file_post_save env file st))
       ∧ shows (catch_all_entry Plugins) (st_fs st) st
           (snd (Plugin.lrclib_simple_file_post_save env file st)))
  ∧ (∀ audio_path e,
       file_filename file = Ret audio_path → file_metadata file = Raise e →
       shows (Log Error "LRCLIB SIMPLE: Cannot snapshot metadata: %r")
         (st_fs st) st (snd (Pkg.lrclib_simple_file_post_save env file st))
       ∧ shows (catch_all_entry Plugins) (st_fs st) st
           (snd (Plugin.lrclib_simple_file_post_save env file st)))
  ∧ (∀ audio_path md e,
       file_filename file = Ret audio_path → file_metadata file = Ret md →
       thread_start env (task_for audio_path md) = Raise e →
       shows (Log Error "LRCLIB SIMPLE: Failed to start worker thread: %r")
         (st_fs st) st (snd (Pkg.lrclib_simple_file_post_save env file st))
       ∧ st_threads (snd (Pkg.lrclib_simple_file_post_save env file st))
         = st_threads st)
  ∧ (∀ c audio_path snapshot,
       (c = Plugins →
        file_filename file = Ret audio_path ∧ file_metadata file = Ret snapshot) →
       let st' := snd (run_of c env file audio_path snapshot st) in
       sidecar_outcome env audio_path st st'
       ∧ (∀ ls p0 p1,
            snapshot !! "~length" = Some ls → str_split ":" ls = [p0; p1] →
            py_int p0 = Raise ValueError ∨ py_int p1 = Raise ValueError →
            shows (parse_entry c) (st_fs st) st st')
       ∧ (∀ q, complete snapshot q →
          (∀ e, urlencode env q = Raise e →
             shows (catch_all_entry c) (st_fs st) st st')
          ∧ (∀ qs, urlencode env q = Ret qs →
             (∀ e, create_unverified_context env = Raise e →
                shows (catch_all_entry c) (st_fs st) st st')
             ∧ (create_unverified_context env = Ret tt →
                (∀ e, urlopen env (request_url qs) USER_AGENT (timeout_of c)
                      = Raise e →
                   shows (request_entry c) (st_fs st) st st')
                ∧ (∀ resp,
                     urlopen env (request_url qs) USER_AGENT (timeout_of c)
                     = Ret resp →
                   (∀ e, resp_read resp = Raise e →
                      shows (request_entry c) (st_fs st) st st')
                   ∧ (∀ data, resp_read resp = Ret data →
                      (∀ e, json_loads env (decode_utf8_replace env data)
                            = Raise e →
                         shows (decode_entry c) (st_fs st) st st')
                      ∧ (∀ obj d,
                           json_loads env (decode_utf8_replace env data)
                           = Ret obj →
                           the_object obj = Some d →
                           truthy (dict_get d "id") = true →
                         (choice d (Raise TypeError) →
                            shows (catch_all_entry c) (st_fs st) st st')
                         ∧ (∀ lyrics is_synced,
                              choice d (Ret (lyrics, is_synced)) →
                              truthy lyrics = true →
                            (∀ e, open_for_writing env
                                    (Pkg.sidecar_path audio_path is_synced)
                                  = Raise e →
                               shows write_entry (st_fs st) st st')
                            ∧ (open_for_writing env
                                 (Pkg.sidecar_path audio_path is_synced)
                               = Ret tt →
                               (∀ text e,
                                  lyrics = VStr text →
                                  write_text env
                                    (Pkg.sidecar_path audio_path is_synced)
                                    (utf8_encode text) = Raise e →
                                  shows write_entry
                                    (<[file_of env
                                         (Pkg.sidecar_path audio_path is_synced)
                                       := str_take
                                            (written_on_failure env
                                               (Pkg.sidecar_path audio_path
                                                  is_synced)
                                               (utf8_encode text))
                                            (utf8_encode text)]> (st_fs st))
                                    st st')
                               ∧ ((∀ text, lyrics ≠ VStr text) →
                                  shows write_entry
                                    (<[file_of env
                                         (Pkg.sidecar_path audio_path is_synced)
                                       := ""]> (st_fs st))
                                    st st')))))))))).
Proof.
  destruct (Pkg_hook_logs_stage env file st) as (P1 & P2 & P3).
  destruct (Plugin_hook_logs_stage env file st) as (Q1 & Q2).
  destruct (Pkg_hook_offline env file st) as [Fpkg _].
  split.
  { split; [apply returns_unit, Pkg_hook_never_raises |].
    split; [apply returns_unit, Plugin_hook_never_raises |].
    intros t st'. split; [apply returns_unit, Pkg_worker_never_raises | done]. }
  split; [apply Pkg_hook_offline |].
  split.
  { intros e He. split; (split; [apply wrote_logged |]).
    - by eapply P1.
    - exact Fpkg.
    - by eapply Q1.
    - apply Plugin_hook_stage_fs. eauto. }
  split.
  { intros p e Hp He. split; (split; [apply wrote_logged |]).
    - by eapply P2.
    - exact Fpkg.
    - by eapply Q2.
    - apply Plugin_hook_stage_fs. eauto. }
  split.
  { intros p md e Hp Hm He. destruct (P3 p md e Hp Hm He) as [H1 H2].
    split; [|done]. split; [by apply wrote_logged | exact Fpkg]. }
  intros c audio_path snapshot Hfile.
  destruct (run_of_any_file c env file audio_path snapshot Hfile)
    as (file' & Hn & Hm & ->).
  clear Hfile P1 P2 P3 Q1 Q2 Fpkg. cbv zeta.
  split; [by apply run_outcome |].
  destruct (run_steps c env file' audio_path snapshot st Hn Hm)
    as (st1 & st2 & G1 & F1 & E2 & Hrest).
  destruct (builder_run c file' snapshot st1 Hm) as (st2' & E2' & F2 & G2).
  rewrite E2 in E2'. injection E2' as <-.
  assert (trace_grows st st2) as G12 by (by eapply frame_trans).
  assert (st_fs st2 = st_fs st) as F12 by (unfold same_fs in *; congruence).
  split.
  { intros ls p0 p1 Hl Hs Hp.
    destruct (builder_wrote c file' snapshot ls p0 p1 st1 Hm Hl Hs Hp) as [Hq Hw].
    rewrite E2 in Hw. simpl in Hw.
    rewrite Hq in Hrest. rewrite Hrest.
    rewrite <- F12.
    split; [|done]. eapply wrote_frame; [exact G1 | exact Hw |].
    apply trace_grows_refl. }
  intros q Hq%query_of_complete.
  rewrite Hq in Hrest. destruct Hrest as (st3 & E3 & Hrest).
  destruct (client_run c env q st2) as (st3' & E3' & F3 & G3 & _).
  rewrite E3 in E3'. injection E3' as <-.
  assert (trace_grows st st3) as G13 by (by eapply frame_trans).
  assert (st_fs st3 = st_fs st) as F13 by (unfold same_fs in *; congruence).
  assert (∀ e, fetch_value env q (timeout_of c) = Raise e →
            shows (catch_all_entry c) (st_fs st) st
              (snd (run_of c env file' audio_path snapshot st))) as Hescape.
  { intros e Hv. rewrite Hv in Hrest. rewrite Hrest. by apply shows_last. }
  assert (∀ ev, wrote ev st2 st3 →
            fetch_value env q (timeout_of c) = Ret NotFound →
            shows ev (st_fs st) st
              (snd (run_of c env file' audio_path snapshot st))) as Hcaught.
  { intros ev Hw Hv. rewrite Hv in Hrest. simpl in Hrest.
    destruct Hrest as [G4 F4].
    eapply shows_then; [exact G12 | exact Hw | exact G4 |].
    unfold same_fs in F4. congruence. }
  split.
  { intros e He. apply (Hescape e). unfold fetch_value. by rewrite He. }
  intros qs Hu. split.
  { intros e He. apply (Hescape e). unfold fetch_value. by rewrite Hu, He. }
  intros Hc.
  destruct (client_wrote c env q qs st2 Hu Hc) as (W1 & W2 & W3).
  rewrite E3 in W1, W2, W3. simpl in W1, W2, W3.
  split.
  { intros e He. destruct (W1 e He). by apply Hcaught. }
  intros resp Ho. split.
  { intros e He. destruct (W2 resp e Ho He). by apply Hcaught. }
  intros data Hr. split.
  { intros e He. destruct (W3 resp data e Ho Hr He). by apply Hcaught. }
  intros obj d Hj Hobj Hid.
  assert (∀ r, choice d r → fetch_value env q (timeout_of c) = r) as Hv.
  { intros r Hch. unfold fetch_value, service_answer.
    rewrite Hu, Hc, Ho, Hr, Hj. simpl.
    rewrite lyrics_of_the_object, Hobj. by apply choice_lyrics. }
  split.
  { intros Hch. apply (Hescape TypeError). by apply Hv. }
  intros lyrics is_synced Hch Ht.
  rewrite (Hv _ Hch), Ht in Hrest. rewrite Hrest.
  destruct (writer_shows c env file' audio_path lyrics is_synced st3 Hn)
    as [Wo Ww].
  rewrite F13 in Wo, Ww.
  split.
  { intros e He. eapply shows_from; [exact G13 | by eapply Wo]. }
  intros Hopen. destruct (Ww Hopen) as [Ww1 Ww2]. split.
  - intros text e Hl He. eapply shows_from; [exact G13 | by eapply Ww1].
  - intros Hno. eapply shows_from; [exact G13 | by apply Ww2].
Qed.

Lemma hooks_contain_failures_witness :
  shows (catch_all_entry Package) (st_fs st0) st0
    (snd (Pkg._worker_for_file world_no_ssl "/music/a/Song.flac"
            (snapshot_of "X" "Y" "Z" "3:45") st0))
  ∧ shows write_entry (<["/music/a/Song.lrc" := ""]> (st_fs st_old)) st_old
      (snd (Plugin.lrclib_simple_file_post_save world_disk_full
              (song_file "3:45") st_old)).
Proof.
  split.
  - destruct (hooks_contain_failures world_no_ssl (song_file "3:45") st0)
      as (_ & _ & _ & _ & _ & H).
    destruct (H Package "/music/a/Song.flac" (snapshot_of "X" "Y" "Z" "3:45"))
      as (_ & _ & H1); [discriminate |].
    destruct (H1 query_X complete_X) as [_ H2].
    destruct (H2 (py_urlencode query_X) eq_refl) as [H3 _].
    exact (H3 OSError eq_refl).
  - destruct (hooks_contain_failures world_disk_full (song_file "3:45") st_old)
      as (_ & _ & _ & _ & _ & H).
    destruct (H Plugins "/music/a/Song.flac" (snapshot_of "X" "Y" "Z" "3:45"))
      as (_ & _ & H1); [done |].
    destruct (H1 query_X complete_X) as [_ H2].
    destruct (H2 (py_urlencode query_X) eq_refl) as [_ H3].
    destruct (H3 eq_refl) as [_ H4].
    destruct (H4 {| resp_read := Ret "body" |} eq_refl) as [_ H5].
    destruct (H5 "body" eq_refl) as [_ H6].
    destruct (H6 (response (VInt 1) (VStr "la") VNone)
                (<["id" := VInt 1]> (<["syncedLyrics" := VStr "la"]>
                   (<["plainLyrics" := VNone]> ∅)))) as [_ H7];
      [reflexivity | reflexivity | reflexivity |].
    destruct (H7 (VStr "la") (VBool true)) as [_ H8];
      [apply choice_synced; [reflexivity | reflexivity | done] | reflexivity |].
    destruct (H8 eq_refl) as [H9 _].
    exact (H9 "la" OSError eq_refl eq_refl).
Defined.

(** C7 as stated fails in its last clause: a failure does not always show
    as a missing sidecar.  When the write fails after the sidecar was
    opened, what an older sidecar held is gone: the file is left empty, or
    with the beginning of the new text. *)
Lemma a_failed_write_damages_the_sidecar :
  st_fs st_old !! "/music/a/Song.lrc" = Some "old"
  ∧ fst (Plugin.lrclib_simple_file_post_save world_disk_full (song_file "3:45") st_old)
    = Ret tt
  ∧ st_fs (snd (Plugin.lrclib_simple_file_post_save world_disk_full
                  (song_file "3:45") st_old))
    !! "/music/a/Song.lrc" = Some ""
  ∧ st_fs (snd (Plugin.lrclib_simple_file_post_save world_disk_fills
                  (song_file "3:45") st_old))
    !! "/music/a/Song.lrc" = Some "l"
  ∧ st_threads (snd (Pkg.lrclib_simple_file_post_save world_disk_full
                       (song_file "3:45") st_old))
    = [task_for "/music/a/Song.flac" (snapshot_of "X" "Y" "Z" "3:45")]
  ∧ st_fs (snd (run_task world_disk_fills
                  (task_for "/music/a/Song.flac" (snapshot_of "X" "Y" "Z" "3:45"))
                  st_old))
    !! "/music/a/Song.lrc" = Some "l"
  ∧ st_fs (snd (run_task world_lines
                  (task_for "/music/a/Song.flac" (snapshot_of "X" "Y" "Z" "3:45"))
                  st_old))
    !! "/music/a/Song.lrc" = Some "".
Proof.
  split; [reflexivity |]. split; [reflexivity |]. split; [reflexivity |].
  split; [reflexivity |]. split; [reflexivity |]. split; reflexivity.
Qed.
